(** * ioBroker.stiebel-isg: the scrape-and-reconcile engine of [main.js]

    A shallow embedding of the adapter's core: the JavaScript values the
    code inspects dynamically ([typeof], [String], [Number]), the object
    and state store it talks to, the command reconciler
    ([createISGCommands]), the clamped state write ([safeSetState]), the
    role classification of the values extractor, the fetch gate
    ([schedule] / [runQueue]), the debounced command batch
    ([setIsgCommands]) and the start-up validation ([main]).

    Conventions of the embedding.
    - A JavaScript string is a [string] of code units; only the code units
      U+0000..U+00FF occur, so a code unit is an [ascii].
    - A JavaScript number is [NaN], an infinity or a finite decimal
      [m * 10^e].  Finite numbers are kept exact: the rounding of the
      mantissa to 53 bits is not modelled, overflow to an infinity is, and
      the two zeros are not told apart.
    - Callbacks of the asynchronous adapter API run to completion one after
      the other; a call of the adapter API is recorded in a trace. *)

From Stdlib Require Import ZArith List String Ascii Bool Lia.
From Stdlib Require Import DecimalString DecimalPos.
From stdpp Require Import gmap strings list fin_maps.

#[local] Set Warnings "-register-all".

Local Open Scope string_scope.
Local Open Scope Z_scope.

(** ** JavaScript strings *)

Module JsString.

Definition code (c : ascii) : N := N_of_ascii c.

(** WhiteSpace and LineTerminator code units below U+0100:
    TAB, LF, VT, FF, CR, SP, NBSP. *)
Definition is_white (c : ascii) : bool :=
  let n := code c in
  ((9 <=? n) && (n <=? 13) || (n =? 32) || (n =? 160))%N.

Definition is_digit (c : ascii) : bool :=
  let n := code c in ((48 <=? n) && (n <=? 57))%N.

Fixpoint all_digits (s : string) : bool :=
  match s with
  | EmptyString => true
  | String c r => is_digit c && all_digits r
  end.

Fixpoint trimStart (s : string) : string :=
  match s with
  | String c r => if is_white c then trimStart r else s
  | EmptyString => EmptyString
  end.

(** [dropEnd s] removes the trailing run of white space. *)
Fixpoint dropEnd (s : string) : string :=
  match s with
  | EmptyString => EmptyString
  | String c r =>
      match dropEnd r with
      | EmptyString => if is_white c then EmptyString else String c EmptyString
      | r' => String c r'
      end
  end.

(** [String.prototype.trim]. *)
Definition trim (s : string) : string := dropEnd (trimStart s).

(** [String.prototype.startsWith]. *)
Definition startsWith (s p : string) : bool := String.prefix p s.

(** [s.search(p)] for a pattern [p] without regular-expression
    metacharacters: the index of the first occurrence, or -1. *)
Definition search (s p : string) : Z :=
  match String.index 0 p s with
  | Some i => Z.of_nat i
  | None => -1
  end.

(** [s.split(sep)] for a one-character separator. *)
Fixpoint split_on (sep : ascii) (s : string) : list string :=
  match s with
  | EmptyString => [EmptyString]
  | String c r =>
      if Ascii.eqb c sep then EmptyString :: split_on sep r
      else match split_on sep r with
           | h :: t => String c h :: t
           | [] => [String c EmptyString]
           end
  end.

(** [parts.join(sep)]. *)
Definition join (sep : string) (parts : list string) : string :=
  String.concat sep parts.

(** [s.replace(/c+/g, by)]: every maximal run of the code unit [c]
    becomes one copy of [by]. *)
Fixpoint replace_runs (c : ascii) (by_ : string) (s : string) : string :=
  match s with
  | EmptyString => EmptyString
  | String x r =>
      if Ascii.eqb x c then
        match r with
        | String y _ =>
            if Ascii.eqb y c then replace_runs c by_ r
            else by_ ++ replace_runs c by_ r
        | EmptyString => by_
        end
      else String x (replace_runs c by_ r)
  end.

(** Replacement of every occurrence of one code unit by another, as in
    the quote substitution before the second JSON parse. *)
Fixpoint replace_each (c : ascii) (by_ : ascii) (s : string) : string :=
  match s with
  | EmptyString => EmptyString
  | String x r =>
      String (if Ascii.eqb x c then by_ else x) (replace_each c by_ r)
  end.

Fixpoint skip (c : ascii) (s : string) : string :=
  match s with
  | String x r => if Ascii.eqb x c then skip c r else s
  | EmptyString => EmptyString
  end.

(** [s.replace(/ +0+/g, '')]: a run of spaces followed by a run of
    zeros is removed; a run of spaces not followed by a zero stays. *)
Fixpoint strip_space_zeros (s : string) : string :=
  match s with
  | EmptyString => EmptyString
  | String x r =>
      if Ascii.eqb x " " then
        match skip " " r with
        | String "0" _ => strip_space_zeros_after r
        | _ => String x (strip_space_zeros r)
        end
      else String x (strip_space_zeros r)
  end
with strip_space_zeros_after (s : string) : string :=
  (* inside a match: the remaining spaces, then the zeros, are dropped *)
  match s with
  | EmptyString => EmptyString
  | String x r =>
      if Ascii.eqb x " " then strip_space_zeros_after r
      else if Ascii.eqb x "0" then
        match r with
        | String "0" _ => strip_space_zeros_after r
        | _ => strip_space_zeros r
        end
      else String x (strip_space_zeros r)
  end.

End JsString.

(** ** JavaScript numbers *)

Module JsNumber.
Import JsString.

Inductive number : Type :=
| NaN
| Infinity (negative : bool)
| Finite (m : Z) (e : Z).          (* the value m * 10^e *)

Definition zero : number := Finite 0 0.
Definition of_Z (z : Z) : number := Finite z 0.

Definition isNaN (n : number) : bool :=
  match n with NaN => true | _ => false end.

(** [Number.isFinite] on a number. *)
Definition isFinite (n : number) : bool :=
  match n with Finite _ _ => true | _ => false end.

(** Both mantissas brought to the smaller exponent. *)
Definition align (m1 e1 m2 e2 : Z) : Z * Z :=
  let e := Z.min e1 e2 in (m1 * 10 ^ (e1 - e), m2 * 10 ^ (e2 - e)).

(** The relational operator [<] on numbers; [a > b] is [lt b a]. *)
Definition lt (a b : number) : bool :=
  match a, b with
  | NaN, _ | _, NaN => false
  | Infinity n1, Infinity n2 => n1 && negb n2
  | Infinity n1, Finite _ _ => n1
  | Finite _ _, Infinity n2 => negb n2
  | Finite m1 e1, Finite m2 e2 =>
      let '(x, y) := align m1 e1 m2 e2 in x <? y
  end.

Definition gt (a b : number) : bool := lt b a.

(** *** Number to string *)

(** Trailing decimal zeros of the mantissa move into the exponent. *)
Fixpoint strip_zeros (fuel : nat) (m e : Z) : Z * Z :=
  match fuel with
  | O => (m, e)
  | S f => if (m mod 10 =? 0) && negb (m =? 0)
           then strip_zeros f (m / 10) (e + 1) else (m, e)
  end.

Definition normalize (m e : Z) : Z * Z :=
  if m =? 0 then (0, 0) else strip_zeros (Z.to_nat (Z.log2 (Z.abs m)) + 1) m e.

Definition digits_of_pos (p : positive) : string :=
  NilEmpty.string_of_uint (Pos.to_uint p).

Definition digits_of_Z (z : Z) : string :=
  NilZero.string_of_int (Z.to_int z).

Fixpoint zeros (n : nat) : string :=
  match n with O => "" | S k => String "0" (zeros k) end.

(** The part after the letter e of the exponential notation. *)
Definition exponent_suffix (x : Z) : string :=
  (if x <? 0 then "-" else "+") ++ digits_of_Z (Z.abs x).

(** Number::toString for a positive finite value with decimal digits
    [ds] (no trailing zero) and magnitude [n]: the value is
    0.ds * 10^n. *)
Definition positive_to_string (ds : string) (n : Z) : string :=
  let k := Z.of_nat (String.length ds) in
  if (k <=? n) && (n <=? 21) then
    ds ++ zeros (Z.to_nat (n - k))
  else if (0 <? n) && (n <=? 21) then
    substring 0 (Z.to_nat n) ds ++ "." ++
    substring (Z.to_nat n) (Z.to_nat (k - n)) ds
  else if (-6 <? n) && (n <=? 0) then
    "0." ++ zeros (Z.to_nat (- n)) ++ ds
  else if k =? 1 then
    ds ++ "e" ++ exponent_suffix (n - 1)
  else
    substring 0 1 ds ++ "." ++ substring 1 (Z.to_nat (k - 1)) ds ++
    "e" ++ exponent_suffix (n - 1).

Definition to_string (x : number) : string :=
  match x with
  | NaN => "NaN"
  | Infinity false => "Infinity"
  | Infinity true => "-Infinity"
  | Finite m e =>
      match normalize m e with
      | (Z0, _) => "0"
      | (Zpos p, e') =>
          let ds := digits_of_pos p in
          positive_to_string ds (Z.of_nat (String.length ds) + e')
      | (Zneg p, e') =>
          let ds := digits_of_pos p in
          "-" ++ positive_to_string ds (Z.of_nat (String.length ds) + e')
      end
  end.

(** *** String to number *)

(** Values at or above 2^1024 - 2^970 round to an infinity. *)
Definition overflow_threshold : Z := 2 ^ 1024 - 2 ^ 970.

Definition overflows (m e : Z) : bool :=
  if 0 <=? e then overflow_threshold <=? Z.abs m * 10 ^ e
  else overflow_threshold * 10 ^ (- e) <=? Z.abs m.

Definition round (m e : Z) : number :=
  if overflows m e then Infinity (m <? 0) else Finite m e.

Fixpoint span_digits (s : string) : string * string :=
  match s with
  | String c r =>
      if is_digit c then let '(d, t) := span_digits r in (String c d, t)
      else (EmptyString, s)
  | EmptyString => (EmptyString, EmptyString)
  end.

(** The value of a string of decimal digits; the empty string counts 0. *)
Definition digits_value (ds : string) : Z :=
  match NilZero.uint_of_string ds with
  | Some u => Z.of_uint u
  | None => 0
  end.

Definition digit_in_radix (radix : Z) (c : ascii) : option Z :=
  let n := Z.of_N (code c) in
  let v := if (48 <=? n) && (n <=? 57) then n - 48
           else if (97 <=? n) && (n <=? 102) then n - 87
           else if (65 <=? n) && (n <=? 70) then n - 55
           else radix in
  if v <? radix then Some v else None.

Fixpoint radix_value (radix : Z) (acc : Z) (s : string) : option Z :=
  match s with
  | EmptyString => Some acc
  | String c r =>
      match digit_in_radix radix c with
      | Some v => radix_value radix (acc * radix + v) r
      | None => None
      end
  end.

(** NonDecimalIntegerLiteral: 0x, 0o and 0b literals (no sign). *)
Definition non_decimal (s : string) : option (option Z) :=
  match s with
  | String "0" (String p r) =>
      let radix :=
        if Ascii.eqb p "x" || Ascii.eqb p "X" then Some 16
        else if Ascii.eqb p "o" || Ascii.eqb p "O" then Some 8
        else if Ascii.eqb p "b" || Ascii.eqb p "B" then Some 2
        else None in
      match radix with
      | Some b =>
          Some (match r with
                | EmptyString => None
                | _ => radix_value b 0 r
                end)
      | None => None
      end
  | _ => None
  end.

(** ExponentPart, if any, then the end of the string. *)
Definition exponent_part (s : string) : option Z :=
  match s with
  | EmptyString => Some 0
  | String c r =>
      if Ascii.eqb c "e" || Ascii.eqb c "E" then
        let '(neg, r1) :=
          match r with
          | String "-" t => (true, t)
          | String "+" t => (false, t)
          | _ => (false, r)
          end in
        match span_digits r1 with
        | (String d ds, EmptyString) =>
            let v := digits_value (String d ds) in
            Some (if neg then - v else v)
        | _ => None
        end
      else None
  end.

(** StrUnsignedDecimalLiteral without the Infinity case. *)
Definition unsigned_decimal (s : string) : option (Z * Z) :=
  let '(ip, r) := span_digits s in
  let '(fp, r1, dot) :=
    match r with
    | String "." t => let '(f, t') := span_digits t in (f, t', true)
    | _ => (EmptyString, r, false)
    end in
  match ip, fp with
  | EmptyString, EmptyString => None
  | _, _ =>
      match exponent_part r1 with
      | Some x =>
          Some (digits_value (ip ++ fp), x - Z.of_nat (String.length fp))
      | None => None
      end
  end.

(** StringToNumber: the numeric value of a string, [NaN] when the
    string is not a StringNumericLiteral. *)
Definition of_string (s : string) : number :=
  let t := trim s in
  match t with
  | EmptyString => zero
  | _ =>
      match non_decimal t with
      | Some (Some v) => round v 0
      | Some None => NaN
      | None =>
          let '(neg, u) :=
            match t with
            | String "-" r => (true, r)
            | String "+" r => (false, r)
            | _ => (false, t)
            end in
          if String.eqb u "Infinity" then Infinity neg
          else match unsigned_decimal u with
               | Some (m, e) => round (if neg then - m else m) e
               | None => NaN
               end
      end
  end.

(** The first code unit is a digit. *)
Definition digit_first (s : string) : bool :=
  match s with String c _ => is_digit c | EmptyString => false end.

End JsNumber.

(** ** JavaScript values *)

Module JsValue.
Import JsString JsNumber.

(** The values the adapter handles: primitives, plain objects (own
    properties in insertion order) and arrays. *)
Inductive value : Type :=
| VUndefined
| VNull
| VBool (b : bool)
| VNum (n : number)
| VStr (s : string)
| VObj (props : list (string * value))
| VArr (items : list value).

Definition jsobj : Type := list (string * value).

(** [typeof v]. *)
Definition typeof (v : value) : string :=
  match v with
  | VUndefined => "undefined"
  | VNull | VObj _ | VArr _ => "object"
  | VBool _ => "boolean"
  | VNum _ => "number"
  | VStr _ => "string"
  end.

(** [String(v)]. An array prints its elements joined by commas, with
    [undefined] and [null] elements printed as the empty string. *)
Fixpoint ToString (v : value) : string :=
  match v with
  | VUndefined => "undefined"
  | VNull => "null"
  | VBool true => "true"
  | VBool false => "false"
  | VNum n => JsNumber.to_string n
  | VStr s => s
  | VObj _ => "[object Object]"
  | VArr items =>
      join ","
        (List.map (fun x => match x with
                            | VUndefined | VNull => ""
                            | _ => ToString x
                            end) items)
  end.

(** [Number(v)]. *)
Definition ToNumber (v : value) : number :=
  match v with
  | VUndefined => NaN
  | VNull => zero
  | VBool true => of_Z 1
  | VBool false => zero
  | VNum n => n
  | VStr s => of_string s
  | VObj _ => NaN
  | VArr _ => of_string (ToString v)
  end.

(** Truthiness, as tested by [if (v)], [!v] and [v || d]. *)
Definition ToBoolean (v : value) : bool :=
  match v with
  | VUndefined | VNull => false
  | VBool b => b
  | VNum NaN => false
  | VNum (Infinity _) => true
  | VNum (Finite m _) => negb (m =? 0)
  | VStr s => negb (String.eqb s "")
  | VObj _ | VArr _ => true
  end.

(** *** Own properties of a plain object *)

(** [o[k]]: the value of the property, [undefined] when there is none. *)
Fixpoint get (o : jsobj) (k : string) : value :=
  match o with
  | [] => VUndefined
  | (k', v) :: r => if String.eqb k' k then v else get r k
  end.

(** [Object.prototype.hasOwnProperty.call(o, k)]. *)
Fixpoint hasOwn (o : jsobj) (k : string) : bool :=
  match o with
  | [] => false
  | (k', _) :: r => String.eqb k' k || hasOwn r k
  end.

(** [o[k] = v]: an existing property keeps its place, a new one is
    appended. *)
Fixpoint set (o : jsobj) (k : string) (v : value) : jsobj :=
  match o with
  | [] => [(k, v)]
  | (k', v') :: r =>
      if String.eqb k' k then (k, v) :: r else (k', v') :: set r k v
  end.

(** [delete o[k]]. *)
Fixpoint delete (o : jsobj) (k : string) : jsobj :=
  match o with
  | [] => []
  | (k', v') :: r =>
      if String.eqb k' k then delete r k else (k', v') :: delete r k
  end.

(** [Object.keys(o)]. *)
Definition keys (o : jsobj) : list string := List.map fst o.

End JsValue.

(** ** The adapter API: object store, state store, log *)

Module Adapter.
Import JsString JsNumber JsValue.

(** A persisted object [{ type, common, native }]; [common] may be
    missing on an object another writer left behind. *)
Record object : Type := Object {
  obj_type : string;
  obj_common : option jsobj;
  obj_native : jsobj
}.

(** The argument of [adapter.setState]. *)
Record state : Type := State {
  st_val : value;
  st_ack : bool;
  st_expire : option value
}.

Inductive level : Type := Lsilly | Ldebug | Linfo | Lwarn | Lerror.

(** The calls of the adapter API, in the order they are issued. *)
Inductive call : Type :=
| CGetObject (id : string)
| CSetObjectNotExists (id : string) (o : object)
| CSetObject (id : string) (o : object)
| CExtendObject (id : string) (common : jsobj)
| CDelObject (id : string)
| CSetState (id : string) (st : state)
| CSubscribeStates (pattern : string)
| CLog (l : level) (msg : string).

Record world : Type := World {
  objects : gmap string object;
  states : gmap string state;
  calls : list call;
  db_down : bool                  (* the object database reports errors *)
}.

(** The result [(err, obj)] handed to a [getObject] callback. *)
Inductive get_result : Type :=
| GetErr
| GetOk (o : option object).

(** A computation over the adapter: state passing. *)
Definition M (A : Type) : Type := world -> A * world.

Definition ret {A} (a : A) : M A := fun w => (a, w).
Definition bind {A B} (m : M A) (k : A -> M B) : M B :=
  fun w => let '(a, w') := m w in k a w'.

Definition record (c : call) (w : world) : world :=
  World (objects w) (states w) (calls w ++ [c])%list (db_down w).

Definition log (l : level) (msg : string) : M unit :=
  fun w => (tt, record (CLog l msg) w).

Definition getObject (id : string) : M get_result :=
  fun w =>
    (if db_down w then GetErr else GetOk (objects w !! id),
     record (CGetObject id) w).

Definition setObjectNotExists (id : string) (o : object) : M unit :=
  fun w =>
    let w1 := record (CSetObjectNotExists id o) w in
    (tt, match objects w !! id with
         | Some _ => w1
         | None =>
             if db_down w then w1
             else World (<[id := o]> (objects w1)) (states w1) (calls w1)
                        (db_down w1)
         end).

Definition setState (id : string) (st : state) : M unit :=
  fun w =>
    let w1 := record (CSetState id st) w in
    (tt, World (objects w1) (<[id := st]> (states w1)) (calls w1)
               (db_down w1)).

(** [obj.common || {}]. *)
Definition common_of (o : object) : jsobj :=
  match obj_common o with Some c => c | None => [] end.

(** [adapter.extendObject(id, { common })] on the store.  The store is
    a collaborator of the adapter and not part of its sources: how it
    combines the persisted common with the common of the patch is the
    parameter [extend_common old patch]. *)
Section Store.
Variable extend_common : jsobj -> jsobj -> jsobj.

Definition extended (o : option object) (patch : jsobj) : object :=
  match o with
  | Some old =>
      Object (obj_type old) (Some (extend_common (common_of old) patch))
             (obj_native old)
  | None => Object "" (Some (extend_common [] patch)) []
  end.

(** The callback receives [true] when the store reported an error. *)
Definition extendObject (id : string) (patch : jsobj) : M bool :=
  fun w =>
    let w1 := record (CExtendObject id patch) w in
    if db_down w then (true, w1)
    else (false,
          World (<[id := extended (objects w !! id) patch]> (objects w1))
                (states w1) (calls w1) (db_down w1)).
End Store.

Definition subscribeStates (pattern : string) : M unit :=
  fun w => (tt, record (CSubscribeStates pattern) w).

(** The store that keeps exactly the common of the patch. *)
Definition replace_common (old patch : jsobj) : jsobj := patch.

(** Modelled from the spec: [patchMetadata(path, partialShape)], the
    patch of the store, which the sources call as [extendObject] and do
    not contain.  A persisted field keeps its place and takes the value
    the partial shape gives it, if it gives one; the fields that only
    the shape names follow. *)
Definition merge_common (old patch : jsobj) : jsobj :=
  (List.map (fun kv => (fst kv,
                        if hasOwn patch (fst kv) then get patch (fst kv)
                        else snd kv)) old
   ++ List.filter (fun kv => negb (hasOwn old (fst kv))) patch)%list.

(** What every merging store does, however it treats the fields a
    patch names: a persisted field the patch does not name stays as it
    is. *)
Definition keeps_unnamed (extend_common : jsobj -> jsobj -> jsobj) : Prop :=
  forall old patch k,
    hasOwn patch k = false ->
    hasOwn (extend_common old patch) k = hasOwn old k
    /\ get (extend_common old patch) k = get old k.

(** A store that merges field by field: a field reads as the patch
    names it and else as it was persisted. *)
Definition merges (extend_common : jsobj -> jsobj -> jsobj) : Prop :=
  forall old patch k,
    get (extend_common old patch) k
    = if hasOwn patch k then get patch k else get old k.

(** [exec m w] is the world after [m]; [issued m w] the calls [m] adds. *)
Definition exec {A} (m : M A) (w : world) : world := snd (m w).
Definition issued {A} (m : M A) (w : world) : list call :=
  drop (length (calls w)) (calls (exec m w)).

(** Reading the store and logging change nothing; [effects] keeps the
    calls that write. *)
Definition quiet (c : call) : bool :=
  match c with
  | CGetObject _ | CLog _ _ => true
  | _ => false
  end.

Definition effects (tr : list call) : list call :=
  List.filter (fun c => negb (quiet c)) tr.

(** [m] only reads and logs: it adds the calls [tr], all quiet, and
    leaves the stores alone. *)
Definition adds {A} (m : M A) (w : world) (tr : list call) : Prop :=
  snd (m w) = World (objects w) (states w) (calls w ++ tr)%list (db_down w).

Definition silent {A} (m : M A) : Prop :=
  forall w, exists tr, effects tr = [] /\ adds m w tr.

End Adapter.

Declare Scope adapter_scope.
Delimit Scope adapter_scope with adapter.
Notation "'let*' x := m 'in' k" := (Adapter.bind m (fun x => k))
  (at level 10, x name, m at level 100, k at level 200) : adapter_scope.
Notation "m >> k" := (Adapter.bind m (fun _ => k))
  (at level 100, k at level 200, right associativity) : adapter_scope.

Local Open Scope adapter_scope.

(** ** The adapter configuration *)

Record config : Type := Config {
  isgAddress : option string;       (* [None]: the entry is not set *)
  isgUser : string;
  isgPassword : string;
  isgUmlauts : string;
  isgIntervall : JsNumber.number;
  isgCommandIntervall : JsNumber.number;
  isgCommandPaths : string;         (* page paths, separated by semicolons *)
  isgValuePaths : string;
  isgStatusPaths : string;
  isgExpert : bool;
  isgExpertPaths : string;
  maxConcurrentFetches : JsValue.value
}.

(** ** Writing a state: [safeSetState] *)

Module StateWrite.
Import JsString JsNumber JsValue Adapter.

(** [id.split('.').pop()]. *)
Definition last_segment (id : string) : string :=
  List.last (split_on "." id) "".

(** [last && last.match(/^val(\d+)$/)] as a truth value. *)
Definition is_valNN (last : string) : bool :=
  match last with
  | String v (String a (String l (String d r))) =>
      Ascii.eqb v "v" && Ascii.eqb a "a" && Ascii.eqb l "l"
      && all_digits (String d r)
  | _ => false
  end.

Definition write (id : string) (val : value) (ack : bool)
    (expire : option value) : M unit :=
  setState id (State val ack expire).

(** The first clamp test: below the declared minimum. *)
Definition clamp_min (id : string) (min finalVal : value) : M value :=
  if negb (String.eqb (typeof min) "undefined")
     && negb (isNaN (ToNumber min)) && negb (isNaN (ToNumber finalVal))
  then
    if lt (ToNumber finalVal) (ToNumber min) then
      log Ldebug ("safeSetState: clamping " ++ id ++ " -> min") >>
      ret (VNum (ToNumber min))
    else ret finalVal
  else ret finalVal.

(** The second clamp test: above the declared maximum; the value
    written is again the minimum. *)
Definition clamp_max (id : string) (min max finalVal : value) : M value :=
  if negb (String.eqb (typeof max) "undefined")
     && negb (isNaN (ToNumber max)) && negb (isNaN (ToNumber finalVal))
  then
    if gt (ToNumber finalVal) (ToNumber max) then
      log Ldebug ("safeSetState: clamping " ++ id ++ " -> min") >>
      ret (VNum (ToNumber min))
    else ret finalVal
  else ret finalVal.

Definition clamp (id : string) (r : get_result) (val : value) : M value :=
  match r with
  | GetOk (Some (Object _ (Some common) _)) =>
      let min := get common "min" in
      let max := get common "max" in
      let* finalVal := clamp_min id min val in
      clamp_max id min max finalVal
  | _ => ret val
  end.

Definition safeSetState (id : string) (val : value) (ack : bool)
    (expire : option value) : M unit :=
  let last := last_segment id in
  if negb (is_valNN last) then
    (* not a valNN state: written directly *)
    write id val ack expire
  else
    let* r := getObject id in
    let* finalVal := clamp id r val in
    write id finalVal ack expire.

(** The words of the pattern: the letters val, then digits, at least
    one. *)
Definition valNN (last : string) : Prop :=
  exists ds, last = "val" ++ ds /\ ds <> "" /\ all_digits ds = true.

(** The value the two clamp tests leave. *)
Definition below (min v : value) : bool :=
  negb (String.eqb (typeof min) "undefined")
  && negb (isNaN (ToNumber min)) && negb (isNaN (ToNumber v))
  && lt (ToNumber v) (ToNumber min).

Definition above (max v : value) : bool :=
  negb (String.eqb (typeof max) "undefined")
  && negb (isNaN (ToNumber max)) && negb (isNaN (ToNumber v))
  && gt (ToNumber v) (ToNumber max).

Definition clamped (common : jsobj) (v : value) : value :=
  let min := get common "min" in
  let max := get common "max" in
  let v1 := if below min v then VNum (ToNumber min) else v in
  if above max v1 then VNum (ToNumber min) else v1.

Definition final_value (r : get_result) (v : value) : value :=
  match r with
  | GetOk (Some (Object _ (Some common) _)) => clamped common v
  | _ => v
  end.

(** The value [safeSetState] writes to a valNN state of an object with
    numeric bounds. *)
Definition clamp_to_min (lo hi : number) (val : value) : value :=
  if lt (ToNumber val) lo then VNum lo
  else if gt (ToNumber val) hi then VNum lo
  else val.

End StateWrite.

(** ** Reconciling a command: [createISGCommands] *)

Module Reconciler.
Import JsString JsNumber JsValue Adapter StateWrite.

(** The code units of the capital umlauts and of the double quote. *)
Definition A_umlaut : ascii := ascii_of_N 196.
Definition O_umlaut : ascii := ascii_of_N 214.
Definition U_umlaut : ascii := ascii_of_N 220.
Definition double_quote : ascii := ascii_of_N 34.

Definition Umlauts (text_string : string) : string :=
  replace_runs U_umlaut "UE"
    (replace_runs O_umlaut "OE" (replace_runs A_umlaut "AE" text_string)).

(** The arguments of one call. [valTag] is [None] for [null] or
    [undefined]; the bounds and the states arrive untyped. *)
Record command : Type := Command {
  strGroup : string;
  valTag : option string;
  valTagLang : string;
  valType : string;
  valUnit : string;
  valRole : string;
  valValue : value;
  valStates : value;
  valMin : value;
  valMax : value
}.

(** [v === null]. *)
Definition is_null (v : value) : bool :=
  match v with VNull => true | _ => false end.

Definition keysToCheck : list string :=
  ["name"; "type"; "read"; "write"; "unit"; "role"; "min"; "max"; "states"].

(** The words of the claim: the bound, converted to a string and
    trimmed, is not empty and parses to a finite number. *)
Definition bound_text (bound : value) : string := trim (ToString bound).

Definition parses_finite (bound : value) : Prop :=
  bound_text bound <> "" /\ isFinite (of_string (bound_text bound)) = true.

(** The test the code makes, in one expression. *)
Definition included (bound : value) : bool :=
  negb (String.eqb (typeof bound) "undefined") && negb (is_null bound)
  && negb (String.eqb (bound_text bound) "")
  && isFinite (of_string (bound_text bound)).

Section WithRuntime.
(** [JSON.parse] ([None] when it throws) and [JSON.stringify] belong
    to the runtime, the way the store combines commons to the
    adapter core. *)
Variable JSON_parse : string -> option value.
Variable JSON_stringify : value -> string.
Variable extend_common : jsobj -> jsobj -> jsobj.
Variable cfg : config.

(** The block that decides on [min], and again on [max]: the bound is
    kept only if it is given and its trimmed string form is a finite
    number. *)
Definition add_bound (key : string) (bound : value) (where_ : string)
    (desiredCommon : jsobj) : M jsobj :=
  if negb (String.eqb (typeof bound) "undefined") && negb (is_null bound)
  then
    let s := trim (ToString bound) in
    if negb (String.eqb s "") then
      let num := of_string s in
      if isFinite num then ret (set desiredCommon key (VNum num))
      else
        log Ldebug ("createISGCommands: invalid " ++ key ++ " for "
                    ++ where_ ++ " - ignored") >>
        ret desiredCommon
    else
      log Ldebug ("createISGCommands: empty " ++ key ++ " for "
                  ++ where_ ++ " - ignored") >>
      ret desiredCommon
  else ret desiredCommon.

(** One pair of the code:label list. *)
Definition add_pair (obj : jsobj) (pair : string) : jsobj :=
  let parts := split_on ":" pair in
  if (2 <=? length parts)%nat then
    let k := trim (List.hd "" parts) in
    let v := trim (join ":" (List.tl parts)) in
    if negb (String.eqb k "") then set obj k (VStr v) else obj
  else obj.

Definition add_states (states : value) (tag : string)
    (desiredCommon : jsobj) : M jsobj :=
  if ToBoolean states then
    if String.eqb (typeof states) "object" then
      ret (set desiredCommon "states" states)
    else
      match states with
      | VStr str =>
          let s := trim str in
          if startsWith s "{" || startsWith s "[" then
            match JSON_parse s with
            | Some parsed => ret (set desiredCommon "states" parsed)
            | None =>
                match JSON_parse (replace_each "'" double_quote s) with
                | Some parsed => ret (set desiredCommon "states" parsed)
                | None =>
                    log Lwarn ("createISGCommands: could not parse states for "
                               ++ tag ++ ". states will be ignored.") >>
                    ret desiredCommon
                end
            end
          else
            let obj := fold_left add_pair (split_on "," s) [] in
            if negb (length (keys obj) =? 0)%nat
            then ret (set desiredCommon "states" (VObj obj))
            else ret desiredCommon
      | _ => ret desiredCommon
      end
  else ret desiredCommon.

(** The identifier and the desired common of a command. *)
Definition group_of (c : command) : string :=
  if String.eqb (isgUmlauts cfg) "no" then Umlauts (strGroup c)
  else strGroup c.

Definition tag_of (tag : string) : string :=
  replace_runs "*" "_"
    (if String.eqb (isgUmlauts cfg) "no" then Umlauts tag else tag).

Definition id_of (c : command) (tag : string) : string :=
  group_of c ++ "." ++ tag_of tag.

Definition basic_common (c : command) : jsobj :=
  [ ("name", VStr (valTagLang c));
    ("type", VStr (valType c));
    ("read", VBool true);
    ("write", VBool true);
    ("unit", VStr (strip_space_zeros (valUnit c)));
    ("role", VStr (valRole c)) ].

(** The desired common without its states. *)
Definition with_bound (key : string) (bound : value) (d : jsobj) : jsobj :=
  if included bound
  then set d key (VNum (of_string (bound_text bound))) else d.

Definition bounded (c : command) : jsobj :=
  with_bound "max" (valMax c) (with_bound "min" (valMin c) (basic_common c)).

Definition desired (c : command) (tag : string) : M jsobj :=
  let id := id_of c tag in
  log Ldebug ("createISGCommands: encountered valMin, valMax for " ++ id) >>
  let* d1 := add_bound "min" (valMin c) id (basic_common c) in
  let* d2 := add_bound "max" (valMax c) id d1 in
  add_states (valStates c) (tag_of tag) d2.

(** The comparison of one field: both objects, by their JSON text;
    otherwise by their string form. *)
Definition same (a b : value) : bool :=
  if String.eqb (typeof a) "object" && String.eqb (typeof b) "object"
  then String.eqb (JSON_stringify a) (JSON_stringify b)
  else String.eqb (ToString a) (ToString b).

Definition needUpdate (existingCommon newCommon : jsobj) : bool :=
  existsb (fun k => negb (same (get existingCommon k) (get newCommon k)))
          keysToCheck.

(** A bound of the new common: taken from the desired common, or
    removed when the desired common has none. *)
Definition carry_bound (key : string) (desiredCommon newCommon : jsobj)
    : jsobj :=
  if hasOwn desiredCommon key then set newCommon key (get desiredCommon key)
  else if hasOwn newCommon key then delete newCommon key
  else newCommon.

Definition carry_states (desiredCommon newCommon : jsobj) : jsobj :=
  if hasOwn desiredCommon "states"
  then set newCommon "states" (get desiredCommon "states")
  else newCommon.

Definition new_common (existingCommon desiredCommon : jsobj) : jsobj :=
  let n0 := existingCommon in
  let n1 := set n0 "name" (get desiredCommon "name") in
  let n2 := set n1 "type" (get desiredCommon "type") in
  let n3 := set n2 "read" (get desiredCommon "read") in
  let n4 := set n3 "write" (get desiredCommon "write") in
  let n5 := set n4 "unit" (get desiredCommon "unit") in
  let n6 := set n5 "role" (get desiredCommon "role") in
  let n7 := carry_bound "min" desiredCommon n6 in
  let n8 := carry_bound "max" desiredCommon n7 in
  carry_states desiredCommon n8.

(** The callback of [getObject]. *)
Definition on_object (id : string) (desiredCommon : jsobj)
    (value_ : value) (r : get_result) : M unit :=
  match r with
  | GetErr =>
      log Lerror ("createISGCommands: getObject error for " ++ id)
  | GetOk None =>
      setObjectNotExists id (Object "state" (Some desiredCommon) []) >>
      safeSetState id value_ true None
  | GetOk (Some obj) =>
      let existingCommon := common_of obj in
      let newCommon := new_common existingCommon desiredCommon in
      if needUpdate existingCommon newCommon then
        let* err2 := extendObject extend_common id newCommon in
        (if err2 : bool
         then log Lerror ("createISGCommands: extendObject failed for " ++ id)
         else ret tt) >>
        safeSetState id value_ true None
      else
        safeSetState id value_ true None
  end.

Definition createISGCommands (c : command) : M unit :=
  match valTag c with
  | None => ret tt
  | Some tag =>
      let* desiredCommon := desired c tag in
      let id := id_of c tag in
      let* r := getObject id in
      on_object id desiredCommon (valValue c) r
  end.

(** What one reconciliation writes: the object store afterwards and
    the writing calls, given the desired common [d] and the value [v]
    that reaches the state. *)
Definition reconciled_objects (w : world) (id : string) (d : jsobj)
    : gmap string object :=
  match objects w !! id with
  | None => <[id := Object "state" (Some d) []]> (objects w)
  | Some obj =>
      let nc := new_common (common_of obj) d in
      if needUpdate (common_of obj) nc
      then <[id := extended extend_common (Some obj) nc]> (objects w)
      else objects w
  end.

Definition reconciled_effects (w : world) (id : string) (d : jsobj)
    (v : value) : list call :=
  match objects w !! id with
  | None => [CSetObjectNotExists id (Object "state" (Some d) []);
             CSetState id (State v true None)]
  | Some obj =>
      let nc := new_common (common_of obj) d in
      if needUpdate (common_of obj) nc
      then [CExtendObject id nc; CSetState id (State v true None)]
      else [CSetState id (State v true None)]
  end.

End WithRuntime.

End Reconciler.

(** ** The JSON texts of the command pages

    [getIsgCommands] builds the states of a selector as the text of a flat
    object, code and label both quoted.  This module reads and prints that
    fragment of JSON; the reconciler itself is stated for any [JSON.parse]
    and [JSON.stringify].

    The reader accepts a text only if [JSON.parse] accepts it: a flat
    object whose members are strings without escapes, written without
    white space.  A text with escapes, with white space between its
    tokens or with members that are not strings is outside the fragment
    and is not read.  The members are kept in the order of the text. *)

Module Json.
Import JsString JsNumber JsValue.

Definition dq : ascii := ascii_of_N 34.
Definition backslash : ascii := ascii_of_N 92.

(** A code unit below U+0020: a JSON string holds it only escaped. *)
Definition is_control (c : ascii) : bool := (code c <? 32)%N.

(** The characters up to the closing quote; escapes are not read, and
    a control character is refused, as [JSON.parse] refuses it. *)
Fixpoint read_string (s : string) : option (string * string) :=
  match s with
  | EmptyString => None
  | String c r =>
      if Ascii.eqb c dq then Some (EmptyString, r)
      else if Ascii.eqb c backslash || is_control c then None
      else match read_string r with
           | Some (body, rest) => Some (String c body, rest)
           | None => None
           end
  end.

(** The members after the opening brace. *)
Fixpoint read_members (fuel : nat) (acc : jsobj) (s : string)
    : option jsobj :=
  match fuel with
  | O => None
  | S f =>
      match s with
      | String q r =>
          if Ascii.eqb q dq then
            match read_string r with
            | Some (k, String ":" (String q2 r2)) =>
                if Ascii.eqb q2 dq then
                  match read_string r2 with
                  | Some (v, String "," r3) =>
                      read_members f (set acc k (VStr v)) r3
                  | Some (v, String "}" EmptyString) =>
                      Some (set acc k (VStr v))
                  | _ => None
                  end
                else None
            | _ => None
            end
          else None
      | EmptyString => None
      end
  end.

Definition parse_flat_object (s : string) : option value :=
  match s with
  | String "{" (String "}" EmptyString) => Some (VObj [])
  | String "{" r =>
      match read_members (String.length r) [] r with
      | Some o => Some (VObj o)
      | None => None
      end
  | _ => None
  end.

Definition hex_digit (n : N) : ascii :=
  ascii_of_N (if (n <? 10)%N then 48 + n else 87 + n).

(** One code unit inside a quoted string: the double quote and the
    backslash after a backslash, a control character by its short
    escape or as [\u00XX]. *)
Definition escape_char (c : ascii) : string :=
  let n := code c in
  if Ascii.eqb c dq || Ascii.eqb c backslash
  then String backslash (String c EmptyString)
  else if (n =? 8)%N then String backslash "b"
  else if (n =? 9)%N then String backslash "t"
  else if (n =? 10)%N then String backslash "n"
  else if (n =? 12)%N then String backslash "f"
  else if (n =? 13)%N then String backslash "r"
  else if is_control c
  then String backslash
         (String "u" (String "0" (String "0"
            (String (hex_digit (n / 16))
               (String (hex_digit (n mod 16)) EmptyString)))))
  else String c EmptyString.

Fixpoint escape (s : string) : string :=
  match s with
  | EmptyString => EmptyString
  | String c r => escape_char c ++ escape r
  end.

Definition quote (s : string) : string :=
  String dq (escape s ++ String dq EmptyString).

Definition is_undefined (v : value) : bool :=
  match v with VUndefined => true | _ => false end.

Fixpoint somes (l : list (option string)) : list string :=
  match l with
  | [] => []
  | Some x :: r => x :: somes r
  | None :: r => somes r
  end.

(** The JSON text of a value: an [undefined] property is left out, an
    [undefined] element and a number that is not finite print as
    [null]. *)
Fixpoint stringify (v : value) : string :=
  match v with
  | VUndefined | VNull => "null"
  | VBool true => "true"
  | VBool false => "false"
  | VNum n => if isFinite n then JsNumber.to_string n else "null"
  | VStr s => quote s
  | VObj props =>
      "{" ++ join ","
               (somes (List.map
                         (fun kv =>
                            if is_undefined (snd kv) then None
                            else Some (quote (fst kv) ++ ":"
                                       ++ stringify (snd kv))) props)) ++ "}"
  | VArr items => "[" ++ join "," (List.map stringify items) ++ "]"
  end.

End Json.

(** ** The role of a value: the classification in [getIsgValues] *)

Module Values.
Import JsString.

Definition valueRole (key : string) : string :=
  if (search key "TEMP" >? -1) || (search key "FROST" >? -1)
     || (search key "SOLLWERT_HK" =? 0) || (search key "ISTWERT_HK" =? 0)
  then "value.temperature"
  else if search key "DRUCK" >? -1 then "value.pressure"
  else if search key "P_" =? 0 then "value.power.consumption"
  else if search key "FEUCHTE" >? -1 then "value.humidity"
  else "value".

(** The words of the specification: a key contains a keyword, a key
    starts with a keyword. *)
Definition contains (key word : string) : Prop :=
  exists before after, key = before ++ word ++ after.

Definition starts_with (key word : string) : Prop :=
  exists after, key = word ++ after.

Definition is_temperature (key : string) : Prop :=
  contains key "TEMP" \/ contains key "FROST" \/
  starts_with key "SOLLWERT_HK" \/ starts_with key "ISTWERT_HK".

End Values.

(** ** The fetch gate: [schedule] and [runQueue] *)

Module FetchGate.
Import JsNumber.

Inductive outcome : Type := Resolved | Rejected.

Section Gate.
Variable task : Type.

(** [queue], [running] and [maxConcurrentFetches] are the variables of
    the module.  [inflight] lists the admitted tasks whose promise
    chain has not reached its [finally], [started] every admitted task
    in admission order, [immediates] counts the [setImmediate(runQueue)]
    callbacks not yet run. *)
Record gate : Type := Gate {
  queue : list task;
  running : Z;
  limit : number;
  inflight : list task;
  started : list task;
  immediates : nat
}.

Definition init (max : number) : gate := Gate [] 0 max [] [] 0.

(** The loop of [runQueue]: while a slot is free and a task waits, the
    head of the queue is admitted. *)
Fixpoint drain (q : list task) (g : gate) : gate :=
  match q with
  | [] => Gate [] (running g) (limit g) (inflight g) (started g)
               (immediates g)
  | item :: rest =>
      if lt (of_Z (running g)) (limit g) then
        drain rest (Gate rest (running g + 1) (limit g)
                         (inflight g ++ [item]) (started g ++ [item])
                         (immediates g))
      else Gate q (running g) (limit g) (inflight g) (started g)
                (immediates g)
  end.

Definition runQueue (g : gate) : gate := drain (queue g) g.

Definition schedule (fn : task) (g : gate) : gate :=
  runQueue (Gate (queue g ++ [fn]) (running g) (limit g) (inflight g)
                 (started g) (immediates g)).

(** The [finally] of the [i]-th task in flight: whatever the outcome,
    the counter goes down and a [runQueue] is queued. *)
Definition settle (i : nat) (o : outcome) (g : gate) : gate :=
  match inflight g !! i with
  | Some _ =>
      Gate (queue g) (running g - 1) (limit g)
           (take i (inflight g) ++ drop (S i) (inflight g))
           (started g) (S (immediates g))
  | None => g
  end.

(** A queued [setImmediate(runQueue)] runs. *)
Definition immediate (g : gate) : gate :=
  match immediates g with
  | S n =>
      runQueue (Gate (queue g) (running g) (limit g) (inflight g)
                     (started g) n)
  | O => g
  end.

Inductive event : Type :=
| Schedule (fn : task)
| Settle (i : nat) (o : outcome)
| Immediate.

Definition step (g : gate) (e : event) : gate :=
  match e with
  | Schedule fn => schedule fn g
  | Settle i o => settle i o g
  | Immediate => immediate g
  end.

Definition run (evs : list event) (g : gate) : gate :=
  fold_left step evs g.

(** The tasks submitted by a sequence of events, in order. *)
Fixpoint submitted (evs : list event) : list task :=
  match evs with
  | [] => []
  | Schedule fn :: r => fn :: submitted r
  | _ :: r => submitted r
  end.

End Gate.

Arguments Gate {task}.
Arguments queue {task}.
Arguments running {task}.
Arguments limit {task}.
Arguments inflight {task}.
Arguments started {task}.
Arguments immediates {task}.
Arguments init {task}.
Arguments runQueue {task}.
Arguments schedule {task}.
Arguments settle {task}.
Arguments immediate {task}.
Arguments Schedule {task}.
Arguments Settle {task}.
Arguments Immediate {task}.
Arguments step {task}.
Arguments run {task}.
Arguments submitted {task}.

(** The counter counts the tasks in flight, of which there are at most
    [N]; the gate is saturated when no task waits or every slot is
    taken. *)
Definition within_limit {task} (N : positive) (g : gate task) : Prop :=
  running g = Z.of_nat (length (inflight g))
  /\ running g <= Zpos N
  /\ limit g = of_Z (Zpos N).

Definition saturated {task} (N : positive) (g : gate task) : Prop :=
  queue g = [] \/ running g = Zpos N.

(** The invariant of the gate: a task waits only while every slot is
    taken, or while a [runQueue] queued by a completion has yet to run. *)
Definition gate_inv {task} (N : positive) (g : gate task) : Prop :=
  within_limit N g /\ (saturated N g \/ (0 < immediates g)%nat).

End FetchGate.

(** ** The running adapter: module variables, timers and requests *)

Module Runtime.
Import JsString JsNumber JsValue Adapter FetchGate.

(** The work handed to [schedule]. *)
Inductive Task : Type :=
| GetIsgStatus (sidePath : string)
| GetIsgValues (sidePath : string)
| GetIsgCommands (sidePath : string).

(** A call of [fetch]: the address, the method and the form fields;
    [data] is the command list that was serialized into the body. *)
Record request : Type := Request {
  req_url : string;
  req_method : string;
  req_user : string;
  req_pass : string;
  req_data : option (list (string * value))
}.

(** What a [fetch] comes back with.  A response carries its status and,
    for a page, the class of its [#main] element. *)
Inductive response : Type :=
| Response (status : Z) (main_class : option string)
| TransportError
| AbortError.

Record runtime : Type := Runtime {
  store : world;
  gate : FetchGate.gate Task;
  host : option string;
  commandPaths : list string;
  valuePaths : list string;
  statusPaths : list string;
  isgIntervall_timer : option number;        (* period of the interval, ms *)
  isgCommandIntervall_timer : option number;
  commands : list (string * value);
  CommandTimeout : option (list (string * value));
                                  (* armed timer and the data it will post *)
  requests : list request
}.

Definition with_store (f : world -> world) (r : runtime) : runtime :=
  Runtime (f (store r)) (gate r) (host r) (commandPaths r) (valuePaths r)
          (statusPaths r) (isgIntervall_timer r)
          (isgCommandIntervall_timer r) (commands r) (CommandTimeout r)
          (requests r).

Definition with_gate (f : FetchGate.gate Task -> FetchGate.gate Task)
    (r : runtime) : runtime :=
  Runtime (store r) (f (gate r)) (host r) (commandPaths r) (valuePaths r)
          (statusPaths r) (isgIntervall_timer r)
          (isgCommandIntervall_timer r) (commands r) (CommandTimeout r)
          (requests r).

Definition with_host (h : option string) (r : runtime) : runtime :=
  Runtime (store r) (gate r) h (commandPaths r) (valuePaths r)
          (statusPaths r) (isgIntervall_timer r)
          (isgCommandIntervall_timer r) (commands r) (CommandTimeout r)
          (requests r).

Definition with_paths (c v s : list string) (r : runtime) : runtime :=
  Runtime (store r) (gate r) (host r) c v s (isgIntervall_timer r)
          (isgCommandIntervall_timer r) (commands r) (CommandTimeout r)
          (requests r).

Definition with_timers (a b : option number) (r : runtime) : runtime :=
  Runtime (store r) (gate r) (host r) (commandPaths r) (valuePaths r)
          (statusPaths r) a b (commands r) (CommandTimeout r) (requests r).

Definition with_batch (cs : list (string * value))
    (t : option (list (string * value))) (r : runtime) : runtime :=
  Runtime (store r) (gate r) (host r) (commandPaths r) (valuePaths r)
          (statusPaths r) (isgIntervall_timer r)
          (isgCommandIntervall_timer r) cs t (requests r).

Definition with_request (q : request) (r : runtime) : runtime :=
  Runtime (store r) (gate r) (host r) (commandPaths r) (valuePaths r)
          (statusPaths r) (isgIntervall_timer r)
          (isgCommandIntervall_timer r) (commands r) (CommandTimeout r)
          (requests r ++ [q])%list.

(** An adapter computation run on the store of the runtime. *)
Definition perform {A} (m : M A) (r : runtime) : runtime :=
  with_store (exec m) r.

(** The text of [host] inside a template literal. *)
Definition host_text (r : runtime) : string :=
  match host r with Some h => h | None => "undefined" end.

Definition connection (flag : bool) : M unit :=
  setState "info.connection" (State (VBool flag) true None).

(** The value of the connectivity flag in the state store. *)
Definition connected (r : runtime) : option value :=
  st_val <$> states (store r) !! "info.connection".

(** [schedule(() => work(item))] for every path of a list. *)
Definition schedule_all (work : string -> Task) (paths : list string)
    (r : runtime) : runtime :=
  fold_left (fun r item => with_gate (schedule (work item)) r) paths r.

End Runtime.

(** ** Fetching a page: [getHTML] *)

Module PageFetcher.
Import JsString JsNumber JsValue Adapter Runtime.

Section Fetch.
Variable cfg : config.

(** The result is the class of [#main] of the parsed page, [None]
    when [getHTML] throws. *)
Definition getHTML (sidePath : string) (resp : response) (r : runtime)
    : option (option string) * runtime :=
  let strURL := host_text r ++ "/?s=" ++ sidePath in
  let r1 := with_request
              (Request strURL "POST" (isgUser cfg) (isgPassword cfg) None)
              r in
  match resp with
  | Response status main_class =>
      if status =? 200 then
        (Some main_class, perform (connection true) r1)
      else
        (None,
         perform (connection false >>
               log Lerror ("Error: HTTP status to " ++ strURL
                           ++ " - Check ISG Address!") >>
               connection false) r1)
  | TransportError =>
      (None,
       perform (log Lerror ("Error: to " ++ strURL ++ " - Check ISG Address!")
             >> connection false) r1)
  | AbortError =>
      (None,
       perform (log Ldebug ("getHTML(" ++ sidePath ++ ") aborted")
             >> connection false) r1)
  end.
End Fetch.

End PageFetcher.

(** ** Sending commands: [setIsgCommands] *)

Module CommandBatch.
Import JsString JsNumber JsValue Adapter FetchGate Runtime.

(** What becomes of a flush: the cookie-aware [fetch] cannot be built
    and the callback ends before any request, or the request is made
    and comes back. *)
Inductive attempt : Type :=
| FetchUnavailable
| Posted (resp : response).

(** The request answered with status 200. *)
Definition succeeded (resp : response) : bool :=
  match resp with
  | Response status _ => status =? 200
  | _ => false
  end.

Section Batch.
Variable cfg : config.

(** The command joins the batch, the body is built from the whole
    batch, the running timer is cleared and a new one armed. *)
Definition setIsgCommands (strKey : string) (strValue : value)
    (r : runtime) : runtime :=
  let newCommand := (strKey, strValue) in
  let cs := (commands r ++ [newCommand])%list in
  with_batch cs (Some cs) r.

(** The callback of the timer. *)
Definition flush (a : attempt) (r : runtime) : runtime :=
  match CommandTimeout r with
  | None => r
  | Some data =>
      let r0 := with_batch (commands r) None r in
      match a with
      | FetchUnavailable => r0
      | Posted resp =>
          let r1 := with_request
                      (Request (host_text r0 ++ "/save.php") "POST"
                               (isgUser cfg) (isgPassword cfg) (Some data))
                      r0 in
          let r2 :=
            match resp with
            | Response status _ =>
                if status =? 200
                then schedule_all GetIsgCommands (commandPaths r1) r1
                else perform (log Lerror "statusCode" >> log Lerror "statusText")
                          r1
            | TransportError => perform (log Lerror "Error") r1
            | AbortError => perform (log Ldebug "setIsgCommands aborted") r1
            end in
          with_batch [] (CommandTimeout r2) r2
      end
  end.
End Batch.

End CommandBatch.

(** ** Start-up: [ready] and [main] *)

Module Startup.
Import JsString JsNumber JsValue Adapter FetchGate Runtime PageFetcher.

(** *** The two address patterns *)

(** One number of the dotted quad:
    [25[0-5]|2[0-4][0-9]|[01]?[0-9][0-9]?]. *)
Definition is_octet (s : string) : bool :=
  match s with
  | String a EmptyString => is_digit a
  | String a (String b EmptyString) => is_digit a && is_digit b
  | String a (String b (String c EmptyString)) =>
      let x := code a in let y := code b in
      is_digit a && is_digit b && is_digit c &&
      ((x <=? 49) || ((x =? 50) && (y <=? 52))
       || ((x =? 50) && (y =? 53) && (code c <=? 53)))%N
  | _ => false
  end.

(** [address.match(ipformat)]: four such numbers between dots. *)
Definition matches_ipformat (address : string) : bool :=
  match split_on "." address with
  | [a; b; c; d] => is_octet a && is_octet b && is_octet c && is_octet d
  | _ => false
  end.

(** The dot of a pattern matches every code unit but a line
    terminator. *)
Definition is_line_terminator (c : ascii) : bool :=
  ((code c =? 10) || (code c =? 13))%N.

Fixpoint no_line_terminator (s : string) : bool :=
  match s with
  | EmptyString => true
  | String c r => negb (is_line_terminator c) && no_line_terminator r
  end.

(** [(.{1,63}\.){1,127}] on a whole string: [body] code units of the
    open group are read, [closed] groups are complete.  A dot either
    closes the group or belongs to its body. *)
Fixpoint label_groups (s : string) (body closed : nat) : bool :=
  match s with
  | EmptyString => (body =? 0)%nat && (1 <=? closed)%nat
  | String c r =>
      negb (is_line_terminator c) &&
      (((body <? 63)%nat && label_groups r (S body) closed)
       || (Ascii.eqb c "." && (1 <=? body)%nat && (closed <? 127)%nat
           && label_groups r 0 (S closed)))
  end.

(** A code unit of [[a-z0-9-]]. *)
Definition is_label_char (c : ascii) : bool :=
  let n := code c in
  (((97 <=? n) && (n <=? 122)) || is_digit c || (n =? 45))%N.

Fixpoint all_label_chars (s : string) : bool :=
  match s with
  | EmptyString => true
  | String c r => is_label_char c && all_label_chars r
  end.

(** [[a-z0-9-]+\.?] up to the end of the string; [seen] tells that a
    label character has been read. *)
Fixpoint label_then_dot (s : string) (seen : bool) : bool :=
  match s with
  | EmptyString => seen
  | String c r =>
      if is_label_char c then label_then_dot r true
      else Ascii.eqb c "." && seen && String.eqb r ""
  end.

(** [(?![0-9]*$)[a-z0-9-]+\.?$]: the rest of the address is not made of
    digits only. *)
Definition top_label (s : string) : bool :=
  negb (all_digits s) && label_then_dot s false.

(** [address.match(fqdnformat)]: no leading [://], 1 to 255 code units
    without a line terminator, and a cut of the address into label
    groups and a top label. *)
Definition matches_fqdnformat (address : string) : bool :=
  let n := String.length address in
  negb (String.prefix "://" address)
  && (1 <=? n)%nat && (n <=? 255)%nat && no_line_terminator address
  && existsb (fun i => label_groups (substring 0 i address) 0 0
                       && top_label (substring i (n - i) address))
             (seq 0 (S n)).

Definition lower (c : ascii) : ascii :=
  let n := code c in
  if ((65 <=? n) && (n <=? 90))%N then ascii_of_N (n + 32) else c.

(** [/^\s*https?:\/\//i.test(host)]. *)
Definition has_scheme (host : string) : bool :=
  match trimStart host with
  | String h (String t (String t2 (String p r))) =>
      Ascii.eqb (lower h) "h" && Ascii.eqb (lower t) "t"
      && Ascii.eqb (lower t2) "t" && Ascii.eqb (lower p) "p"
      && (String.prefix "://" r
          || match r with
             | String s r' => Ascii.eqb (lower s) "s" && String.prefix "://" r'
             | EmptyString => false
             end)
  | _ => false
  end.

(** *** The polling periods and the concurrency limit *)

(** [Math.max(1, Number(seconds) || 60) * 1000]. *)
Definition period (seconds : number) : number :=
  let s := if ToBoolean (VNum seconds) then seconds else of_Z 60 in
  let s := if lt s (of_Z 1) then of_Z 1 else s in
  match s with
  | Finite m e => round (m * 1000) e
  | other => other
  end.

(** The limit read in [ready]: the configured number if it is positive,
    3 otherwise. *)
Definition concurrency_limit (configured : value) : number :=
  let cfgVal := ToNumber configured in
  if negb (isNaN cfgVal) && gt cfgVal zero then cfgVal else of_Z 3.

Definition set_limit (max : number) (g : FetchGate.gate Task)
    : FetchGate.gate Task :=
  Gate (queue g) (running g) max (inflight g) (started g) (immediates g).

(** [(text || '').split(';').filter(Boolean)]. *)
Definition paths (text : string) : list string :=
  List.filter (fun p => negb (String.eqb p "")) (split_on ";" text).

(** What [getForeignObject('system.config')] hands to its callback. *)
Inductive system_config : Type :=
| SysError
| SysMissing
| SysFound (language : option string).

Section Main.
Variable cfg : config.
Variable translateName : string -> string.

(** [!address || address.trim() === ''] *)
Definition address_missing : bool :=
  match isgAddress cfg with
  | None => true
  | Some address => String.eqb address "" || String.eqb (trim address) ""
  end.

Definition address_text : string :=
  match isgAddress cfg with Some a => a | None => "" end.

(** Neither pattern matches the address. *)
Definition address_malformed : bool :=
  negb (matches_ipformat address_text)
  && negb (matches_fqdnformat address_text).


Definition reboot_object : object :=
  Object "state"
         (Some [ ("name", VStr (translateName "ISGReboot"));
                 ("type", VStr "boolean");
                 ("role", VStr "button");
                 ("read", VBool true);
                 ("write", VBool true) ])
         [].

(** The tail of [main]: the first fetches and the two intervals. *)
Definition start_polling (r : runtime) : runtime :=
  let r1 := schedule_all GetIsgStatus (statusPaths r) r in
  let r2 := schedule_all GetIsgValues (valuePaths r1) r1 in
  let r3 := schedule_all GetIsgCommands (commandPaths r2) r2 in
  with_timers (Some (period (isgIntervall cfg)))
              (Some (period (isgCommandIntervall cfg))) r3.

(** [probe] is what the device answers to the login check. *)
Definition main (probe : response) (r : runtime) : runtime :=
  let r0 := perform (setObjectNotExists "ISGReboot" reboot_object >>
                  subscribeStates "ISGReboot") r in
  if address_missing then
    perform (log Lerror "Invalid configuration - isgAddress not set." >>
          connection false) r0
  else if address_malformed then
    perform (log Lerror ("ISG Address " ++ address_text
                      ++ " format not valid. Should be e.g. 192.168.123.123 or servicewelt.fritz.box"))
         r0
  else
    let h := trim address_text in
    let h := if has_scheme h then h else "http://" ++ h in
    let r1 := with_host (Some h) r0 in
    let r2 := perform (log Linfo ("Connecting to ISG: " ++ h ++ " ...") >>
                    subscribeStates "*") r1 in
    let '(page, r3) := getHTML cfg "1,0" probe r2 in
    match page with
    | Some main_class =>
        if match main_class with
           | Some cl => String.eqb cl "login"
           | None => false
           end
        then
          perform (log Lerror "ISG Login failed - please check your username and password!"
                >> connection false) r3
        else
          start_polling
            (perform (log Linfo "Connected to ISG successfully." >>
                   connection true) r3)
    | None =>
        start_polling (perform (log Lerror "checkIsgCredentials error") r3)
    end.

(** The [ready] handler: the page lists are read, then the callback of
    [getForeignObject] runs. *)
Definition ready (sys : system_config) (probe : response) (r : runtime)
    : runtime :=
  let cmds := paths (isgCommandPaths cfg) in
  let cmds := if isgExpert cfg && negb (String.eqb (isgExpertPaths cfg) "")
              then (cmds ++ paths (isgExpertPaths cfg))%list else cmds in
  let r0 := with_paths cmds (paths (isgValuePaths cfg))
                       (paths (isgStatusPaths cfg)) r in
  match sys with
  | SysError => perform (log Lerror "system.config") r0
  | SysMissing => r0
  | SysFound language =>
      let r1 := perform ((match language with
                       | None => log Linfo "Language not set. English set therefore."
                       | Some _ => ret tt
                       end) >> connection false) r0 in
      let r2 := with_gate
                  (set_limit (concurrency_limit (maxConcurrentFetches cfg)))
                  r1 in
      main probe r2
  end.

End Main.

End Startup.

(** ** Labels of the device pages: the cleaning before a label is used

    The extractors clean the text of a submenu, of a group and of a key
    with three replacements each before it becomes a path segment. *)

Module Labels.
Import JsString.

(** [s.replace(/[class]+/g, by)]: every maximal run of code units of the
    class becomes one copy of [by]. *)
Fixpoint replace_class_runs (class : ascii -> bool) (by_ : string)
    (s : string) : string :=
  match s with
  | EmptyString => EmptyString
  | String x r =>
      if class x then
        match r with
        | String y _ =>
            if class y then replace_class_runs class by_ r
            else by_ ++ replace_class_runs class by_ r
        | EmptyString => by_
        end
      else String x (replace_class_runs class by_ r)
  end.

Fixpoint skip_class (class : ascii -> bool) (s : string) : string :=
  match s with
  | String x r => if class x then skip_class class r else s
  | EmptyString => EmptyString
  end.

(** [s.replace(/[class]+/, by)], without the global flag: the first run
    only. *)
Fixpoint replace_first_run (class : ascii -> bool) (by_ : string)
    (s : string) : string :=
  match s with
  | EmptyString => EmptyString
  | String x r =>
      if class x then by_ ++ skip_class class r
      else String x (replace_first_run class by_ r)
  end.

Definition sharp_s : ascii := ascii_of_N 223.

Definition space_or_hyphen (c : ascii) : bool :=
  Ascii.eqb c " " || Ascii.eqb c "-".
Definition hyphen_or_slash (c : ascii) : bool :=
  Ascii.eqb c "-" || Ascii.eqb c "/".
Definition space_or_period (c : ascii) : bool :=
  Ascii.eqb c " " || Ascii.eqb c ".".
Definition is_period (c : ascii) : bool := Ascii.eqb c ".".
Definition is_sharp_s (c : ascii) : bool := Ascii.eqb c sharp_s.

(** The text of the current submenu:
    [.replace(/[-/]+/g, '_').replace(/[ .]+/g, '').replace(/[ß]+/g, 'SS')]. *)
Definition submenu_label (text : string) : string :=
  replace_class_runs is_sharp_s "SS"
    (replace_class_runs space_or_period ""
       (replace_class_runs hyphen_or_slash "_" text)).

(** The text of a group and of a key:
    [.replace(/[ -]+/g, '_').replace(/[.]+/g, '').replace(/[ß]+/, 'SS')]. *)
Definition key_label (text : string) : string :=
  replace_first_run is_sharp_s "SS"
    (replace_class_runs is_period ""
       (replace_class_runs space_or_hyphen "_" text)).

(** No code unit of the string is in the class. *)
Fixpoint free_of (class : ascii -> bool) (s : string) : bool :=
  match s with
  | EmptyString => true
  | String x r => negb (class x) && free_of class r
  end.

(** The code units that end a path segment or are blanked in a key. *)
Definition separator (c : ascii) : bool :=
  Ascii.eqb c " " || Ascii.eqb c "-" || Ascii.eqb c ".".

Definition is_umlaut (c : ascii) : bool :=
  Ascii.eqb c (ascii_of_N 196) || Ascii.eqb c (ascii_of_N 214)
  || Ascii.eqb c (ascii_of_N 220).

Definition is_star (c : ascii) : bool := Ascii.eqb c "*".

Definition is_semicolon (c : ascii) : bool := Ascii.eqb c ";".

(** A page path as the configuration lists hold it: not empty, without
    a semicolon. *)
Definition is_path (p : string) : Prop :=
  p <> "" /\ free_of is_semicolon p = true.

End Labels.

(** ** [parseFloat] *)

Module Float.
Import JsString JsNumber.

(** A sign at the head of [s], and what follows it. *)
Definition signed (s : string) : bool * string :=
  match s with
  | String c r =>
      if Ascii.eqb c "-" then (true, r)
      else if Ascii.eqb c "+" then (false, r)
      else (false, s)
  | EmptyString => (false, s)
  end.

(** The exponent of an ExponentPart at the head of [s]; 0 when [s] does
    not start with one, and then nothing of [s] is read. *)
Definition exponent_prefix (s : string) : Z :=
  match s with
  | String c r =>
      if Ascii.eqb c "e" || Ascii.eqb c "E" then
        let '(neg, r1) := signed r in
        match span_digits r1 with
        | (String d ds, _) =>
            let v := digits_value (String d ds) in
            if neg then - v else v
        | _ => 0
        end
      else 0
  | EmptyString => 0
  end.

(** The digits after a decimal point at the head of [s], and what
    follows them. *)
Definition fraction (s : string) : string * string :=
  match s with
  | String c t => if Ascii.eqb c "." then span_digits t else (EmptyString, s)
  | EmptyString => (EmptyString, s)
  end.

(** [parseFloat(s)]: the number written by the longest prefix of the
    trimmed string that is a decimal literal, [NaN] when there is none. *)
Definition parseFloat (s : string) : number :=
  let '(neg, u) := signed (trimStart s) in
  if String.prefix "Infinity" u then Infinity neg
  else
    let '(ip, r) := span_digits u in
    let '(fp, r1) := fraction r in
    match ip, fp with
    | EmptyString, EmptyString => NaN
    | _, _ =>
        let m := digits_value (ip ++ fp) in
        round (if neg then - m else m)
              (exponent_prefix r1 - Z.of_nat (String.length fp))
    end.

(** The text does not go on with a digit or with the letter of an
    exponent. *)
Definition ends_number (rest : string) : bool :=
  match rest with
  | String c _ =>
      negb (is_digit c) && negb (Ascii.eqb c "e") && negb (Ascii.eqb c "E")
  | EmptyString => true
  end.

(** [a === b] on numbers: the same value; NaN equals nothing. *)
Definition same_number (a b : number) : bool :=
  match a, b with
  | Infinity x, Infinity y => Bool.eqb x y
  | Finite m1 e1, Finite m2 e2 =>
      let '(x, y) := align m1 e1 m2 e2 in x =? y
  | _, _ => false
  end.

(** The value of a run of digits read from the left, [acc] being the
    value of the digits before it. *)
Definition digit_of (c : ascii) : Z := Z.of_N (code c) - 48.

Fixpoint digits_acc (acc : Z) (s : string) : Z :=
  match s with
  | EmptyString => acc
  | String c r => digits_acc (10 * acc + digit_of c) r
  end.

(** The code units of a printed number. *)
Definition plain (c : ascii) : bool :=
  is_digit c || Ascii.eqb c "." || Ascii.eqb c "e" || Ascii.eqb c "+"
  || Ascii.eqb c "-".

Fixpoint all_plain (s : string) : bool :=
  match s with
  | EmptyString => true
  | String c r => plain c && all_plain r
  end.

(** [n * 2]. *)
Definition double (n : number) : number :=
  match n with
  | Finite m e => round (2 * m) e
  | other => other
  end.

End Float.

(** ** Reconciling a reading: [updateState] *)

Module Readings.
Import JsString JsNumber JsValue Adapter StateWrite Reconciler Float.

(** The arguments of one call; [tag] is [None] for [null] or
    [undefined]. *)
Record reading : Type := Reading {
  group : string;
  tag : option string;
  tagLang : string;
  type_ : string;
  unit_ : string;
  role : string;
  reading_value : value
}.

Section WithConfig.
Variable cfg : config.
Variable translateName : string -> string.

(** Twice the command interval below the settings and the statistics,
    twice the poll interval elsewhere. *)
Definition ValueExpire (strGroup : string) : number :=
  if startsWith strGroup (translateName "settings")
     || startsWith strGroup (translateName "info" ++ ".ANLAGE.STATISTIK")
  then double (isgCommandIntervall cfg)
  else double (isgIntervall cfg).

Definition reading_group (strGroup : string) : string :=
  if String.eqb (isgUmlauts cfg) "no" then Umlauts strGroup else strGroup.

Definition reading_id (strGroup valTag : string) : string :=
  reading_group strGroup ++ "." ++ tag_of cfg valTag.

Definition reading_object (r : reading) : object :=
  Object "state"
         (Some [ ("name", VStr (tagLang r));
                 ("type", VStr (type_ r));
                 ("read", VBool true);
                 ("write", VBool false);
                 ("unit", VStr (unit_ r));
                 ("role", VStr (role r)) ])
         [].

Definition updateState (r : reading) : M unit :=
  match tag r with
  | None => ret tt
  | Some valTag =>
      let expire := ValueExpire (group r) in
      let id := reading_id (group r) valTag in
      setObjectNotExists id (reading_object r) >>
      safeSetState id (reading_value r) true (Some (VNum expire))
  end.

End WithConfig.

End Readings.

(** ** The rows of the status and value pages, the sliders and radio
    buttons of a command page

    What the page gives (the texts of a row, the script next to a
    slider, the inputs of a radio group) is the input; the callbacks of
    [getIsgStatus], [getIsgValues] and of the slider and radio branches
    of [getIsgCommands] turn it into a call of [updateState] or
    [createISGCommands]. *)

Module Extractors.
Import JsString JsNumber JsValue Reconciler Values Labels Float Readings.

(** A table row: the text of its key cell, the text of its value cell
    and the markup of the value cell ([None] when there is no such
    cell). *)
Record row : Type := Row {
  key_text : string;
  value_text : string;
  value_html : option string
}.

(** A panel of the page (an element of class info): the text of its
    heading and its rows.  A page: the text of the first entry of the
    sub-navigation and its panels. *)
Record panel : Type := Panel {
  round_top : string;
  rows : list row
}.

Record page : Type := Page {
  sub_nav : string;
  panels : list panel
}.

(** [s.replace(c, by)] for a one-character pattern: the first
    occurrence. *)
Fixpoint replace_first_char (c : ascii) (by_ : string) (s : string)
    : string :=
  match s with
  | EmptyString => EmptyString
  | String x r =>
      if Ascii.eqb x c then by_ ++ r
      else String x (replace_first_char c by_ r)
  end.

(** [s.replace(pattern, '')] for a string pattern: the first occurrence
    is removed. *)
Definition remove_first (pattern s : string) : string :=
  match String.index 0 pattern s with
  | Some i =>
      substring 0 i s
      ++ substring (i + String.length pattern)
                   (String.length s - (i + String.length pattern)) s
  | None => s
  end.

(** [s.replace(/[ ]{0,2}/, '')]: up to two blanks at the head. *)
Definition drop_two_blanks (s : string) : string :=
  match s with
  | String " " (String " " r) => r
  | String " " r => r
  | _ => s
  end.

Definition remove_blanks (s : string) : string :=
  Labels.replace_class_runs (fun c => Ascii.eqb c " ") "" s.

(** [s.replace(/([.0][0]){1}?/, '')]: the first period or zero that a
    zero follows goes, with that zero. *)
Fixpoint drop_point_zero (s : string) : string :=
  match s with
  | String x t =>
      match t with
      | String y r =>
          if (Ascii.eqb x "." || Ascii.eqb x "0") && Ascii.eqb y "0" then r
          else String x (drop_point_zero t)
      | EmptyString => s
      end
  | EmptyString => s
  end.

(** [s.replace(/^0+/, '')]. *)
Definition drop_leading_zeros (s : string) : string := skip "0" s.

(** The unit of a value: what is left of the text once the number is
    taken out. *)
Definition unit_of (param : string) (value_ : number) : string :=
  drop_leading_zeros
    (drop_point_zero
       (remove_first (JsNumber.to_string value_)
          (remove_blanks (drop_two_blanks param)))).

Section WithTranslation.
Variable translateName : string -> string.

(** The group of the readings of a panel. *)
Definition info_group (pg : page) (p : panel) : string :=
  translateName "info" ++ "."
  ++ (submenu_label (sub_nav pg) ++ "." ++ key_label (round_top p)).

(** The row callback of [getIsgStatus]: the reading handed to
    [updateState], if any. *)
Definition status_row (group : string) (r : row) : option reading :=
  let valueName := key_text r in
  let key := key_label (key_text r) in
  let value_ : option bool :=
    match value_html r with
    | Some param => if search param "symbol_an" >? -1 then Some true else None
    | None => None
    end in
  let valThisType :=
    match value_ with Some _ => "boolean" | None => "state" end in
  match value_ with
  | Some true =>
      Some (Reading group (Some key)
                    (translateName valueName) valThisType "" "indicator.state"
                    (VBool true))
  | _ => None
  end.

(** The row callback of [getIsgValues]. *)
Definition value_row (group : string) (r : row) : option reading :=
  let valueName := key_text r in
  let key := key_label (key_text r) in
  let param := replace_first_char "," "." (value_text r) in
  let value_ := parseFloat param in
  let unit := unit_of param value_ in
  let valueRole := valueRole key in
  if negb (String.eqb key "") && negb (isNaN value_) then
    Some (Reading group (Some key)
                  (translateName valueName) "number" unit valueRole
                  (VNum value_))
  else None.

(** The calls of [updateState] the two loops make, in order. *)
Definition readings_of (f : string -> row -> option reading) (pg : page)
    : list reading :=
  flat_map (fun p => omap (f (info_group pg p)) (rows p)) (panels pg).

Definition status_readings : page -> list reading := readings_of status_row.
Definition value_readings : page -> list reading := readings_of value_row.

(** *** The slider of a command page *)

(** The code units that end a capture: the apostrophe and the line
    ends. *)
Definition ends_capture (c : ascii) : bool :=
  Ascii.eqb c "'" || (code c =? 10)%N || (code c =? 13)%N.

(** The text between [opening] and the next apostrophe, from the first
    place of [s] where [opening] is followed by an apostrophe before any
    line end: the capture of [/opening(.*?)'/]. *)
Fixpoint until_quote (s : string) : option string :=
  match s with
  | EmptyString => None
  | String c r =>
      if Ascii.eqb c "'" then Some EmptyString
      else if (code c =? 10)%N || (code c =? 13)%N then None
      else match until_quote r with
           | Some body => Some (String c body)
           | None => None
           end
  end.

(** What follows [p] when [s] starts with [p]. *)
Fixpoint after_prefix (p s : string) : option string :=
  match p, s with
  | EmptyString, _ => Some s
  | String a p', String b s' =>
      if Ascii.eqb a b then after_prefix p' s' else None
  | String _ _, EmptyString => None
  end.

Fixpoint capture (opening : string) (s : string) : option string :=
  match (match after_prefix opening s with
         | Some rest => until_quote rest
         | None => None
         end) with
  | Some body => Some body
  | None =>
      match s with
      | EmptyString => None
      | String _ r => capture opening r
      end
  end.

(** [parseFloat(m ? m[1].replace(',', '.').replace(' ', '') : NaN)]. *)
Definition script_number (m : option string) : number :=
  match m with
  | Some text =>
      parseFloat (replace_first_char " " ""
                    (replace_first_char "," "." text))
  | None => NaN
  end.

(** The group of the commands of a page: the settings, the cleaned
    text of the sub-navigation and, when the page names one, the active
    submenu. *)
Definition settings_group (subnav : string) (submenu : option string)
    : string :=
  translateName "settings" ++ "." ++ submenu_label subnav
  ++ match submenu with Some name => "." ++ name | None => "" end.

(** The slider branch of [getIsgCommands]: the command handed to
    [createISGCommands], if the script names an identifier. *)
Definition slider_command (subnav : string) (submenu : option string)
    (nameCommand unitCommand scriptValues : string) : option command :=
  let minCommand := capture "['min'] = '" scriptValues in
  let maxCommand := capture "['max'] = '" scriptValues in
  let valCommand := capture "['val']='" scriptValues in
  let idCommand := capture "['id']='" scriptValues in
  match idCommand with
  | Some id =>
      Some (Command (settings_group subnav submenu) (Some id) nameCommand
                    "number" unitCommand "state"
                    (VNum (script_number valCommand)) (VStr "")
                    (VNum (script_number minCommand))
                    (VNum (script_number maxCommand)))
  | None => None
  end.

(** *** The radio buttons of a command page *)

(** An input of the group: its value, its label ([alt]) and whether it
    is checked. *)
Record radio : Type := Radio {
  radio_value : string;
  radio_alt : string;
  radio_checked : bool
}.

(** One step of the loop that builds the states text: a comma unless
    the text is still the opening brace, then value and label, both in
    double quotes, with a colon in between. *)
Definition add_entry (statesCommand : string) (i : radio) : string :=
  (if negb (String.eqb statesCommand "{") then statesCommand ++ ","
   else statesCommand)
  ++ String double_quote
       (radio_value i
        ++ String double_quote
             (":" ++ String double_quote
                       (radio_alt i ++ String double_quote ""))).

Definition states_text (inputs : list radio) : string :=
  fold_left add_entry inputs "{" ++ "}".

(** The value of the last checked input, [undefined] when none is. *)
Definition checked_value (inputs : list radio) : value :=
  fold_left
    (fun v i =>
       if radio_checked i
       then VNum (parseFloat (replace_first_char " " ""
                                (replace_first_char "," "."
                                   (radio_value i))))
       else v)
    inputs VUndefined.

(** The branch of [getIsgCommands] for a group of radio buttons: the
    command handed to [createISGCommands].  [idCommand] is the name of
    the first input, [None] when it has none. *)
Definition radio_command (subnav : string) (submenu : option string)
    (nameCommand : string) (idCommand : option string)
    (inputs : list radio) : command :=
  Command (settings_group subnav submenu) idCommand nameCommand "number" ""
          "level" (checked_value inputs) (VStr (states_text inputs))
          (VStr "") (VStr "").

(** The text of one entry, and the text after an entry: the further
    entries, each after a comma, and the closing brace. *)
Definition entry_text (i : radio) : string :=
  String double_quote
    (radio_value i
     ++ String double_quote
          (":" ++ String double_quote
                    (radio_alt i ++ String double_quote ""))).

Fixpoint members_text (inputs : list radio) : string :=
  match inputs with
  | [] => "}"
  | i :: rest => "," ++ entry_text i ++ members_text rest
  end.

(** The mapping the states text writes down. *)
Definition states_of (inputs : list radio) : jsobj :=
  fold_left (fun o i => set o (radio_value i) (VStr (radio_alt i)))
            inputs [].

(** A code unit that a JSON string cannot hold as it is: the double
    quote, the backslash and the control characters below U+0020. *)
Definition json_special (c : ascii) : bool :=
  Ascii.eqb c double_quote || Ascii.eqb c (ascii_of_N 92)
  || (code c <? 32)%N.

Definition plain_radio (i : radio) : Prop :=
  free_of json_special (radio_value i) = true
  /\ free_of json_special (radio_alt i) = true.

End WithTranslation.

End Extractors.

(** ** Reading a page: [getIsgStatus] and [getIsgValues]

    The page is fetched; [pg] is what the parser finds in the text of
    the answer.  The result lists the calls of [updateState]. *)

Module Pages.
Import JsString JsNumber JsValue Adapter Runtime PageFetcher Readings
       Extractors.

Section WithConfig.
Variable cfg : config.
Variable translateName : string -> string.

Definition getIsgStatus (sidePath : string) (resp : response) (pg : page)
    (r : runtime) : list reading * runtime :=
  match getHTML cfg sidePath resp r with
  | (Some _, r1) => (status_readings translateName pg, r1)
  | (None, r1) =>
      ([], perform (log Ldebug ("getIsgStatus(" ++ sidePath ++ ") error"))
                   r1)
  end.

Definition getIsgValues (sidePath : string) (resp : response) (pg : page)
    (r : runtime) : list reading * runtime :=
  match getHTML cfg sidePath resp r with
  | (Some _, r1) => (value_readings translateName pg, r1)
  | (None, r1) =>
      ([], perform (log Ldebug ("getIsgValues(" ++ sidePath ++ ") error"))
                   r1)
  end.

End WithConfig.

End Pages.

(** ** State changes, reboot, the polling rounds and the request timeout *)

Module Lifecycle.
Import JsString JsNumber JsValue Adapter StateWrite FetchGate Runtime
       CommandBatch.

(** [buildFetchOptions]: the timeout in milliseconds for the configured
    [requestTimeout], and whether the abort timer is armed. *)
Definition configuredTimeout (requestTimeout : value) : number :=
  match requestTimeout with
  | VUndefined | VNull => of_Z 60000
  | v => let num := ToNumber v in
         if isNaN num then of_Z 60000 else num
  end.

Definition timeout (requestTimeout : value) : number :=
  let c := configuredTimeout requestTimeout in
  if ToBoolean (VNum c) then c else of_Z 0.

Definition timer_armed (requestTimeout : value) : bool :=
  gt (timeout requestTimeout) (of_Z 0).

(** [rebootISG]: one GET, without form fields; the answer only decides
    what is logged.  When the cookie-aware [fetch] cannot be built the
    function throws before any request ([None]). *)
Definition rebootISG (a : attempt) (r : runtime) : option runtime :=
  let url := host_text r ++ "/reboot.php" in
  match a with
  | FetchUnavailable => None
  | Posted answer =>
      let r1 := with_request (Request url "GET" "" "" None) r in
      Some match answer with
           | Response _ _ =>
               perform (log Linfo "Reboot request sent to ISG.") r1
           | AbortError => perform (log Ldebug "rebootISG aborted") r1
           | TransportError => perform (log Lerror "Reboot request failed") r1
           end
  end.

(** The [stateChange] handler.  [st] is [None] for a deleted state.  The
    second component tells that [main] has been set to run again after a
    minute. *)
Definition stateChange (id : string) (st : option state) (a : attempt)
    (r : runtime) : runtime * bool :=
  let command := last_segment id in
  match st with
  | None => (r, false)
  | Some s =>
      if st_ack s then (r, false)
      else if String.eqb command "ISGReboot" then
        let r1 := perform (log Linfo "ISG rebooting") r in
        match rebootISG a r1 with
        | Some r2 => (r2, true)
        | None => (r1, false)
        end
      else (setIsgCommands command (st_val s) r, false)
  end.

(** The device answered the login check with its login page. *)
Definition login_page (probe : response) : bool :=
  match probe with
  | Response status (Some cl) => (status =? 200) && String.eqb cl "login"
  | _ => false
  end.

(** The tasks handed to the gate so far, in the order they start: the
    ones admitted, then the ones that wait. *)
Definition admission_order (g : FetchGate.gate Task) : list Task :=
  (started g ++ queue g)%list.

(** The callbacks of the two intervals of [main]. *)
Definition poll_tick (r : runtime) : runtime :=
  let r1 := schedule_all GetIsgValues (valuePaths r) r in
  schedule_all GetIsgStatus (statusPaths r1) r1.

Definition command_tick (r : runtime) : runtime :=
  schedule_all GetIsgCommands (commandPaths r) r.

(** State changes that arrive one after the other, before the timer of
    the batch fires. *)
Definition enqueue_all (cs : list (string * value)) (r : runtime)
    : runtime :=
  fold_left (fun r c => setIsgCommands (fst c) (snd c) r) cs r.

End Lifecycle.

(** ** Sample data

    A configuration, two commands as [getIsgCommands] derives them (a
    mode selector with states and no bounds, a slider with bounds and no
    states) and a few persisted objects, to run the model on. *)

Module Examples.
Import JsString JsNumber JsValue Adapter Reconciler Json Runtime.

Definition cfg : config :=
  Config (Some "192.168.1.2") "user" "secret" "no" (of_Z 60) (of_Z 60)
         "1,13;1,14" "1,0" "1,1" false "" (VNum (of_Z 3)).

(** The states text of the selector: code and label quoted, as the
    scraper concatenates them. *)
Definition selector_states : string :=
  "{" ++ quote "11" ++ ":" ++ quote "AUTOMATIK" ++ ","
      ++ quote "1" ++ ":" ++ quote "BEREITSCHAFT" ++ "}".

Definition selector : command :=
  Command "start" (Some "val82") "Betriebsart" "number" "" "level"
          (VNum (of_Z 11)) (VStr selector_states) (VStr "") (VStr "").

Definition slider : command :=
  Command "settings.HEIZEN" (Some "val5") "Raumtemperatur" "number"
          "C" "state" (VNum (Finite 215 (-1))) (VStr "")
          (VNum (of_Z 10)) (VNum (of_Z 30)).

(** The slider page without its bounds. *)
Definition slider_unbounded : command :=
  Command "settings.HEIZEN" (Some "val5") "Raumtemperatur" "number"
          "C" "state" (VNum (Finite 215 (-1))) (VStr "")
          (VNum NaN) (VNum NaN).

Definition selector_mapping : jsobj :=
  [("11", VStr "AUTOMATIK"); ("1", VStr "BEREITSCHAFT")].

(** The selector as an earlier version persisted it: another label,
    and bounds of zero. *)
Definition stale_selector : object :=
  Object "state"
         (Some [ ("name", VStr "BETRIEBSART"); ("type", VStr "number");
                 ("read", VBool true); ("write", VBool true);
                 ("unit", VStr ""); ("role", VStr "level");
                 ("min", VNum (of_Z 0)); ("max", VNum (of_Z 0));
                 ("states", VObj selector_mapping) ])
         [].

(** A slider object that also has states. *)
Definition slider_with_states : object :=
  Object "state"
         (Some [ ("name", VStr "Raumtemperatur"); ("type", VStr "number");
                 ("read", VBool true); ("write", VBool true);
                 ("unit", VStr "C"); ("role", VStr "state");
                 ("min", VNum (of_Z 10)); ("max", VNum (of_Z 30));
                 ("states", VObj selector_mapping) ])
         [].

Definition empty_world : world := World ∅ ∅ [] false.

Definition stale_world : world :=
  World {[ "start.val82" := stale_selector ]} ∅ [] false.

Definition slider_world : world :=
  World {[ "settings.HEIZEN.val5" := slider_with_states ]} ∅ [] false.

Definition reconcile : command -> M unit :=
  createISGCommands parse_flat_object stringify replace_common cfg.

(** The same over the store that merges. *)
Definition reconcile_merging : command -> M unit :=
  createISGCommands parse_flat_object stringify merge_common cfg.

(** A bounded command whose identifier is a name, not a valNN code. *)
Definition room_id : string := "settings.HEIZEN.RAUMTEMPERATUR".

Definition room_common : jsobj :=
  [ ("name", VStr "Raumtemperatur"); ("type", VStr "number");
    ("read", VBool true); ("write", VBool true);
    ("unit", VStr "C"); ("role", VStr "state");
    ("min", VNum (of_Z 0)); ("max", VNum (of_Z 50)) ].

Definition room_world : world :=
  World {[ room_id := Object "state" (Some room_common) [];
           "settings.HEIZEN.val5" := Object "state" (Some room_common) [] ]}
        ∅ [] false.

(** A runtime with nothing pending. *)
Definition idle : runtime :=
  Runtime empty_world (FetchGate.init (of_Z 3)) (Some "http://192.168.1.2")
          ["1,13"; "1,14"] ["1,0"] ["1,1"] None None [] None [].


Definition no_translation (name : string) : string := name.

End Examples.

(** Further sample data: pages, rows and stores. *)

Module Samples.
Import JsString JsNumber JsValue Adapter Reconciler Runtime Readings
       Extractors Examples.

(** A slider object that declares a maximum and no minimum. *)
Definition upper_only : object :=
  Object "state"
         (Some [ ("name", VStr "Raumtemperatur"); ("type", VStr "number");
                 ("read", VBool true); ("write", VBool true);
                 ("unit", VStr "C"); ("role", VStr "state");
                 ("max", VNum (of_Z 30)) ])
         [].

Definition upper_only_world : world :=
  World {[ "settings.HEIZEN.val7" := upper_only ]} ∅ [] false.

(** An object another writer left without a common part. *)
Definition bare_world : world :=
  World {[ "settings.HEIZEN.val7" := Object "state" None [] ]} ∅ [] false.

(** A reading of the values page and a store that already has its
    object, with a name of its own. *)
Definition outside_reading : reading :=
  Reading "info.ANLAGE.HEIZUNG" (Some "AUSSENTEMPERATUR") "Aussentemperatur"
          "number" "C" "value.temperature" (VNum (Finite 215 (-1))).

Definition outside_object : object :=
  Object "state"
         (Some [ ("name", VStr "Outside"); ("type", VStr "number");
                 ("read", VBool true); ("write", VBool false);
                 ("unit", VStr "C"); ("role", VStr "value.temperature") ])
         [].

Definition outside_world : world :=
  World {[ "info.ANLAGE.HEIZUNG.AUSSENTEMPERATUR" := outside_object ]}
        ∅ [] false.

(** A status page with one pump running, and a values page with a
    temperature and a row that holds no number. *)
Definition status_page : page :=
  Page "DIAGNOSE"
       [Panel "STATUS"
              [Row "HEIZKREISPUMPE" "" (Some "<img class=symbol_an>");
               Row "VERDICHTER" "" (Some "<img class=symbol_aus>");
               Row "" "" None]].

Definition degrees : string := String (ascii_of_N 176) "C".

Definition values_page : page :=
  Page "ANLAGE"
       [Panel "RAUMTEMPERATUR"
              [Row "ISTTEMPERATUR FEK" ("21,5 " ++ degrees) None;
               Row "BETRIEBSART" "AUTOMATIK" None]].

(** A store whose object database reports errors. *)
Definition down_world : world := World ∅ ∅ [] true.

(** The slider page with a value above its maximum. *)
Definition hot_slider : command :=
  Command "settings.HEIZEN" (Some "val5") "Raumtemperatur" "number"
          "C" "state" (VNum (of_Z 40)) (VStr "")
          (VNum (of_Z 10)) (VNum (of_Z 30)).

(** The radio buttons of the operating mode, the first one checked. *)
Definition mode_inputs : list radio :=
  [Radio "11" "AUTOMATIK" true; Radio "1" "BEREITSCHAFT" false].

(** The script next to a slider with both bounds, the minimum written
    with a decimal comma. *)
Definition bounded_script : string :=
  "jsvalues['5']['id']='val5'; jsvalues['5']['val']='21,5'; jsvalues['5']['min'] = '5,5'; jsvalues['5']['max'] = '30';".

(** The script next to a slider that names no minimum. *)
Definition slider_script : string :=
  "jsvalues['5']['id']='val5'; jsvalues['5']['val']='21,5'; jsvalues['5']['max'] = '30';".

End Samples.

(** * Properties *)

(** ** Own properties *)

Module ObjectFacts.
Import JsValue.

Lemma get_set_same o k v : get (set o k v) k = v.
Proof.
  induction o as [|[k' v'] r IH]; simpl.
  - now rewrite String.eqb_refl.
  - destruct (String.eqb k' k) eqn:E; simpl.
    + now rewrite String.eqb_refl.
    + now rewrite E.
Qed.

Lemma get_set_other o k v k' : k <> k' -> get (set o k v) k' = get o k'.
Proof.
  intros Hne. induction o as [|[k0 v0] r IH]; simpl.
  - apply String.eqb_neq in Hne. now rewrite Hne.
  - destruct (String.eqb k0 k) eqn:E; simpl.
    + apply String.eqb_eq in E. subst k0.
      apply String.eqb_neq in Hne. now rewrite Hne.
    + now rewrite IH.
Qed.

Lemma hasOwn_set_same o k v : hasOwn (set o k v) k = true.
Proof.
  induction o as [|[k' v'] r IH]; simpl.
  - now rewrite String.eqb_refl.
  - destruct (String.eqb k' k) eqn:E; simpl.
    + now rewrite String.eqb_refl.
    + now rewrite E.
Qed.

Lemma hasOwn_set_other o k v k' :
  k <> k' -> hasOwn (set o k v) k' = hasOwn o k'.
Proof.
  intros Hne. induction o as [|[k0 v0] r IH]; simpl.
  - apply String.eqb_neq in Hne. now rewrite Hne.
  - destruct (String.eqb k0 k) eqn:E; simpl.
    + apply String.eqb_eq in E. subst k0.
      apply String.eqb_neq in Hne. now rewrite Hne.
    + now rewrite IH.
Qed.

Lemma hasOwn_delete_same o k : hasOwn (delete o k) k = false.
Proof.
  induction o as [|[k' v'] r IH]; simpl; [reflexivity|].
  destruct (String.eqb k' k) eqn:E; simpl; [assumption|].
  now rewrite E.
Qed.

Lemma get_delete_same o k : get (delete o k) k = VUndefined.
Proof.
  induction o as [|[k' v'] r IH]; simpl; [reflexivity|].
  destruct (String.eqb k' k) eqn:E; simpl; [assumption|].
  now rewrite E.
Qed.

Lemma get_delete_other o k k' : k <> k' -> get (delete o k) k' = get o k'.
Proof.
  intros Hne. induction o as [|[k0 v0] r IH]; simpl; [reflexivity|].
  destruct (String.eqb k0 k) eqn:E; simpl.
  - apply String.eqb_eq in E. subst k0.
    apply String.eqb_neq in Hne. now rewrite Hne.
  - now rewrite IH.
Qed.

Lemma hasOwn_delete_other o k k' :
  k <> k' -> hasOwn (delete o k) k' = hasOwn o k'.
Proof.
  intros Hne. induction o as [|[k0 v0] r IH]; simpl; [reflexivity|].
  destruct (String.eqb k0 k) eqn:E; simpl.
  - apply String.eqb_eq in E. subst k0.
    apply String.eqb_neq in Hne. now rewrite Hne.
  - now rewrite IH.
Qed.

Lemma get_absent o k : hasOwn o k = false -> get o k = VUndefined.
Proof.
  induction o as [|[k' v'] r IH]; simpl; [reflexivity|].
  destruct (String.eqb k' k); simpl; [discriminate | exact IH].
Qed.

End ObjectFacts.

Module AdapterFacts.
Import JsValue Adapter.

Lemma bind_run {A B} (m : M A) (k : A -> M B) w :
  bind m k w = k (fst (m w)) (snd (m w)).
Proof. unfold bind. now destruct (m w). Qed.

Lemma world_eta w : World (objects w) (states w) (calls w) (db_down w) = w.
Proof. now destruct w. Qed.

Lemma silent_ret {A} (a : A) : silent (ret a).
Proof.
  intros w. exists []. split; [reflexivity|].
  unfold adds, ret. simpl. rewrite app_nil_r. symmetry. apply world_eta.
Qed.

Lemma silent_log l msg : silent (log l msg).
Proof. intros w. exists [CLog l msg]. split; reflexivity. Qed.

Lemma effects_app tr1 tr2 : effects (tr1 ++ tr2) = (effects tr1 ++ effects tr2)%list.
Proof. unfold effects. apply List.filter_app. Qed.

Lemma silent_bind {A B} (m : M A) (k : A -> M B) :
  silent m -> (forall a, silent (k a)) -> silent (bind m k).
Proof.
  intros Hm Hk w. destruct (Hm w) as [tr1 [E1 A1]].
  destruct (Hk (fst (m w)) (snd (m w))) as [tr2 [E2 A2]].
  exists (tr1 ++ tr2)%list. split.
  - now rewrite effects_app, E1, E2.
  - unfold adds in *. rewrite bind_run, A2, A1. simpl.
    now rewrite app_assoc.
Qed.

Lemma issued_adds {A} (m : M A) w tr :
  calls (exec m w) = (calls w ++ tr)%list -> issued m w = tr.
Proof. intros H. unfold issued. rewrite H. apply drop_app_length. Qed.

End AdapterFacts.

(** ** The bounds of the desired common *)

Module BoundFacts.
Import JsString JsNumber JsValue Adapter Reconciler ObjectFacts
       AdapterFacts.

Lemma included_iff bound : included bound = true <-> parses_finite bound.
Proof.
  unfold included, parses_finite. split.
  - intros H. repeat (apply andb_true_iff in H; destruct H as [H ?]).
    split; [|assumption].
    apply String.eqb_neq. now apply negb_true_iff.
  - intros [Hne Hfin].
    destruct bound; try discriminate Hfin;
      apply String.eqb_neq in Hne; simpl typeof; simpl is_null;
      rewrite Hne, Hfin; reflexivity.
Qed.

Lemma add_bound_value key bound where_ d w :
  fst (add_bound key bound where_ d w)
  = if included bound
    then set d key (VNum (of_string (bound_text bound))) else d.
Proof.
  unfold add_bound, included, bound_text.
  destruct (negb (String.eqb (typeof bound) "undefined")
            && negb (is_null bound)); simpl; [|reflexivity].
  destruct (String.eqb (trim (ToString bound)) ""); simpl; [reflexivity|].
  destruct (isFinite (of_string (trim (ToString bound)))); reflexivity.
Qed.

Section States.
Variable JSON_parse : string -> option value.

(** The states leave every other property alone. *)
Lemma add_states_shape states tag d w :
  fst (add_states JSON_parse states tag d w) = d
  \/ exists v, fst (add_states JSON_parse states tag d w)
               = set d "states" v.
Proof.
  unfold add_states.
  destruct (ToBoolean states); [|now left].
  destruct (String.eqb (typeof states) "object"); [right; eauto|].
  destruct states; try (now left).
  destruct (startsWith (trim s) "{" || startsWith (trim s) "[").
  - destruct (JSON_parse (trim s)); [right; eauto|].
    destruct (JSON_parse _); [right; eauto | now left].
  - destruct (negb _); [right; eauto | now left].
Qed.

Lemma add_states_get states tag d w k :
  k <> "states" ->
  get (fst (add_states JSON_parse states tag d w)) k = get d k
  /\ hasOwn (fst (add_states JSON_parse states tag d w)) k = hasOwn d k.
Proof.
  intros Hk.
  destruct (add_states_shape states tag d w) as [-> | [v ->]].
  - split; reflexivity.
  - split; [apply get_set_other | apply hasOwn_set_other]; congruence.
Qed.

Lemma desired_shape cfg c tag w :
  exists w', fst (desired JSON_parse cfg c tag w)
             = fst (add_states JSON_parse (valStates c) (tag_of cfg tag)
                      (bounded c) w').
Proof.
  unfold desired. rewrite !bind_run, !add_bound_value.
  eexists. reflexivity.
Qed.

Lemma desired_get cfg c tag w k :
  k <> "states" ->
  get (fst (desired JSON_parse cfg c tag w)) k = get (bounded c) k
  /\ hasOwn (fst (desired JSON_parse cfg c tag w)) k = hasOwn (bounded c) k.
Proof.
  intros Hk. destruct (desired_shape cfg c tag w) as [w' ->].
  now apply add_states_get.
Qed.
End States.

Lemma bounded_min c :
  hasOwn (bounded c) "min" = included (valMin c)
  /\ get (bounded c) "min"
     = if included (valMin c)
       then VNum (of_string (bound_text (valMin c))) else VUndefined.
Proof.
  unfold bounded, with_bound.
  destruct (included (valMax c)), (included (valMin c));
    rewrite ?hasOwn_set_other, ?get_set_other by discriminate;
    rewrite ?hasOwn_set_same, ?get_set_same; split; reflexivity.
Qed.

Lemma bounded_max c :
  hasOwn (bounded c) "max" = included (valMax c)
  /\ get (bounded c) "max"
     = if included (valMax c)
       then VNum (of_string (bound_text (valMax c))) else VUndefined.
Proof.
  unfold bounded, with_bound.
  destruct (included (valMax c)), (included (valMin c));
    rewrite ?hasOwn_set_other, ?get_set_other by discriminate;
    rewrite ?hasOwn_set_same, ?get_set_same; split; reflexivity.
Qed.

Lemma bounded_basic c k :
  k <> "min" -> k <> "max" ->
  get (bounded c) k = get (basic_common c) k
  /\ hasOwn (bounded c) k = hasOwn (basic_common c) k.
Proof.
  intros H1 H2. unfold bounded, with_bound.
  destruct (included (valMax c)), (included (valMin c));
    rewrite ?hasOwn_set_other, ?get_set_other by congruence;
    split; reflexivity.
Qed.

Lemma not_parses_finite :
  forall b, ~ parses_finite VUndefined /\ ~ parses_finite VNull
            /\ ~ parses_finite (VStr "")
            /\ ~ parses_finite (VNum NaN)
            /\ ~ parses_finite (VNum (Infinity b)).
Proof.
  intros b. repeat split; intros [Hne Hfin];
    try (apply Hne; reflexivity); try discriminate Hfin.
  destruct b; discriminate Hfin.
Qed.

End BoundFacts.

(** ** C1: which bounds the desired common carries *)

Module C1.
Import JsString JsNumber JsValue Adapter Reconciler ObjectFacts BoundFacts.

(** C1.  The desired common of a command has the key [min] exactly when
    the given minimum, converted to a string and trimmed, is not empty
    and parses to a finite number, and then the key holds that number;
    otherwise the key is absent and reads [undefined], never 0.  The
    same holds for [max].  In particular an [undefined], [null], empty
    or non-finite bound leaves its key out. *)
Theorem desired_bound_iff_finite :
  forall (JSON_parse : string -> option value) (cfg : config)
         (c : command) (tag : string) (w : world),
    let d := fst (desired JSON_parse cfg c tag w) in
    ((hasOwn d "min" = true <-> parses_finite (valMin c))
     /\ get d "min" = (if hasOwn d "min"
                       then VNum (of_string (bound_text (valMin c)))
                       else VUndefined))
    /\ ((hasOwn d "max" = true <-> parses_finite (valMax c))
        /\ get d "max" = (if hasOwn d "max"
                          then VNum (of_string (bound_text (valMax c)))
                          else VUndefined))
    /\ (forall b, ~ parses_finite VUndefined /\ ~ parses_finite VNull
                  /\ ~ parses_finite (VStr "")
                  /\ ~ parses_finite (VNum NaN)
                  /\ ~ parses_finite (VNum (Infinity b))).
Proof.
  intros JSON_parse cfg c tag w d.
  destruct (desired_get JSON_parse cfg c tag w "min" ltac:(discriminate))
    as [Hg1 Hh1].
  destruct (desired_get JSON_parse cfg c tag w "max" ltac:(discriminate))
    as [Hg2 Hh2].
  destruct (bounded_min c) as [Hbh1 Hbg1].
  destruct (bounded_max c) as [Hbh2 Hbg2].
  subst d. rewrite Hg1, Hh1, Hg2, Hh2, Hbh1, Hbg1, Hbh2, Hbg2.
  split; [|split].
  - split; [apply included_iff | reflexivity].
  - split; [apply included_iff | reflexivity].
  - apply not_parses_finite.
Qed.

(** The slider keeps its bounds 10 and 30; the selector, called with
    empty bounds, and the slider without bounds, called with [NaN], get
    none. *)
Example desired_bounds_of_samples :
  let d c := fst (desired Json.parse_flat_object Examples.cfg c "val5"
                    Examples.empty_world) in
  (get (d Examples.slider) "min", get (d Examples.slider) "max")
  = (VNum (of_Z 10), VNum (of_Z 30))
  /\ (hasOwn (d Examples.selector) "min", hasOwn (d Examples.selector) "max")
     = (false, false)
  /\ (hasOwn (d Examples.slider_unbounded) "min",
      hasOwn (d Examples.slider_unbounded) "max") = (false, false).
Proof. vm_compute. repeat split; reflexivity. Qed.

End C1.

(** ** Facts about [safeSetState] *)

Module WriteFacts.
Import JsString JsNumber JsValue Adapter StateWrite AdapterFacts.

Lemma is_valNN_spec last : is_valNN last = true <-> valNN last.
Proof.
  unfold valNN. split.
  - destruct last as [|a [|b [|c [|d r]]]]; try discriminate.
    unfold is_valNN. intros H.
    apply andb_true_iff in H as [H Hd].
    apply andb_true_iff in H as [H Hc].
    apply andb_true_iff in H as [Ha Hb].
    apply Ascii.eqb_eq in Ha, Hb, Hc. subst a b c.
    exists (String d r). repeat split; [discriminate | exact Hd].
  - intros [ds [-> [Hne Hd]]]. destruct ds as [|d r]; [contradiction|].
    exact Hd.
Qed.

Lemma clamp_min_run id min v w :
  exists tr, effects tr = []
    /\ clamp_min id min v w
       = (if below min v then VNum (ToNumber min) else v,
          World (objects w) (states w) (calls w ++ tr)%list (db_down w)).
Proof.
  unfold clamp_min, below.
  destruct (negb (String.eqb (typeof min) "undefined")
            && negb (isNaN (ToNumber min)) && negb (isNaN (ToNumber v)));
    simpl.
  - destruct (lt (ToNumber v) (ToNumber min)).
    + eexists. split; [|reflexivity]. reflexivity.
    + exists []. split; [reflexivity|].
      unfold ret. now rewrite app_nil_r, world_eta.
  - exists []. split; [reflexivity|].
    unfold ret. now rewrite app_nil_r, world_eta.
Qed.

Lemma clamp_max_run id min max v w :
  exists tr, effects tr = []
    /\ clamp_max id min max v w
       = (if above max v then VNum (ToNumber min) else v,
          World (objects w) (states w) (calls w ++ tr)%list (db_down w)).
Proof.
  unfold clamp_max, above.
  destruct (negb (String.eqb (typeof max) "undefined")
            && negb (isNaN (ToNumber max)) && negb (isNaN (ToNumber v)));
    simpl.
  - destruct (gt (ToNumber v) (ToNumber max)).
    + eexists. split; [|reflexivity]. reflexivity.
    + exists []. split; [reflexivity|].
      unfold ret. now rewrite app_nil_r, world_eta.
  - exists []. split; [reflexivity|].
    unfold ret. now rewrite app_nil_r, world_eta.
Qed.

Lemma clamp_run id r v w :
  exists tr, effects tr = []
    /\ clamp id r v w
       = (final_value r v,
          World (objects w) (states w) (calls w ++ tr)%list (db_down w)).
Proof.
  assert (Hret : exists tr, effects tr = []
            /\ ret v w = (v, World (objects w) (states w) (calls w ++ tr)%list
                                  (db_down w))).
  { exists []. split; [reflexivity|].
    unfold ret. now rewrite app_nil_r, world_eta. }
  destruct r as [|[[t [common|] n]|]]; simpl; try exact Hret.
  unfold clamped.
  destruct (clamp_min_run id (get common "min") v w) as [tr1 [E1 R1]].
  rewrite bind_run, R1. simpl.
  destruct (clamp_max_run id (get common "min") (get common "max")
              (if below (get common "min") v
               then VNum (ToNumber (get common "min")) else v)
              (World (objects w) (states w) (calls w ++ tr1)%list (db_down w)))
    as [tr2 [E2 R2]].
  rewrite R2. simpl. exists (tr1 ++ tr2)%list. split.
  - now rewrite effects_app, E1, E2.
  - now rewrite app_assoc.
Qed.

(** A state that is not a valNN state is written as given, with one
    call and without a look at the object. *)
Lemma safeSetState_direct id v ack expire w :
  is_valNN (last_segment id) = false ->
  safeSetState id v ack expire w
  = (tt, World (objects w) (<[id := State v ack expire]> (states w))
               (calls w ++ [CSetState id (State v ack expire)])%list
               (db_down w)).
Proof. intros H. unfold safeSetState. rewrite H. reflexivity. Qed.

(** A valNN state: the object is read, the value clamped, then written. *)
Lemma safeSetState_clamped id v ack expire w :
  is_valNN (last_segment id) = true ->
  let v' := final_value (if db_down w then GetErr
                         else GetOk (objects w !! id)) v in
  exists tr, effects tr = []
    /\ safeSetState id v ack expire w
       = (tt, World (objects w) (<[id := State v' ack expire]> (states w))
                    (calls w ++ CGetObject id :: tr
                     ++ [CSetState id (State v' ack expire)])%list
                    (db_down w)).
Proof.
  intros H v'. unfold safeSetState. rewrite H. cbn [negb].
  rewrite bind_run. unfold getObject at 1 2. simpl fst. simpl snd.
  rewrite bind_run.
  destruct (clamp_run id (if db_down w then GetErr else GetOk (objects w !! id))
              v (record (CGetObject id) w)) as [tr [E R]].
  rewrite R. simpl. exists tr. split; [exact E|].
  unfold write, setState, record. simpl.
  rewrite <- !app_assoc. reflexivity.
Qed.

(** In both cases: one write, of some value, to the state store. *)
Lemma safeSetState_effects id v ack expire w :
  exists tr v',
    effects tr = [CSetState id (State v' ack expire)]
    /\ snd (safeSetState id v ack expire w)
       = World (objects w) (<[id := State v' ack expire]> (states w))
               (calls w ++ tr)%list (db_down w).
Proof.
  destruct (is_valNN (last_segment id)) eqn:E.
  - destruct (safeSetState_clamped id v ack expire w E) as [tr [Et R]].
    do 2 eexists. split; [|rewrite R; reflexivity].
    simpl. rewrite effects_app, Et. reflexivity.
  - rewrite (safeSetState_direct id v ack expire w E).
    do 2 eexists. split; [|reflexivity]. reflexivity.
Qed.

End WriteFacts.

(** ** Facts about [createISGCommands] *)

Module ReconcileFacts.
Import JsString JsNumber JsValue Adapter StateWrite Reconciler
       ObjectFacts AdapterFacts BoundFacts WriteFacts.

Section WithRuntime.
Variable JSON_parse : string -> option value.
Variable JSON_stringify : value -> string.
Variable extend_common : jsobj -> jsobj -> jsobj.
Variable cfg : config.

Lemma add_bound_silent key bound where_ d :
  silent (add_bound key bound where_ d).
Proof.
  unfold add_bound.
  destruct (negb (String.eqb (typeof bound) "undefined")
            && negb (is_null bound)); [|apply silent_ret].
  destruct (negb (String.eqb (trim (ToString bound)) ""));
    [destruct (isFinite (of_string (trim (ToString bound))))|];
    try apply silent_ret;
    (apply silent_bind; [apply silent_log | intros; apply silent_ret]).
Qed.

Lemma add_states_silent states tag d :
  silent (add_states JSON_parse states tag d).
Proof.
  unfold add_states.
  destruct (ToBoolean states); [|apply silent_ret].
  destruct (String.eqb (typeof states) "object"); [apply silent_ret|].
  destruct states; try apply silent_ret.
  destruct (startsWith (trim s) "{" || startsWith (trim s) "[").
  - destruct (JSON_parse (trim s)); [apply silent_ret|].
    destruct (JSON_parse _); [apply silent_ret|].
    apply silent_bind; [apply silent_log | intros; apply silent_ret].
  - destruct (negb _); apply silent_ret.
Qed.

Lemma desired_silent c tag : silent (desired JSON_parse cfg c tag).
Proof.
  unfold desired.
  apply silent_bind; [apply silent_log | intros _].
  apply silent_bind; [apply add_bound_silent | intros d1].
  apply silent_bind; [apply add_bound_silent | intros d2].
  apply add_states_silent.
Qed.

Lemma reconcile_run c tag w :
  valTag c = Some tag -> db_down w = false ->
  let d := fst (desired JSON_parse cfg c tag w) in
  let id := id_of cfg c tag in
  exists tr v,
    effects tr = reconciled_effects JSON_stringify w id d v
    /\ snd (createISGCommands JSON_parse JSON_stringify extend_common cfg
              c w)
       = World (reconciled_objects JSON_stringify extend_common w id d)
               (<[id := State v true None]> (states w))
               (calls w ++ tr)%list false.
Proof.
  intros Htag Hdb d id.
  unfold createISGCommands. rewrite Htag. rewrite bind_run.
  destruct (desired_silent c tag w) as [tr0 [E0 A0]].
  unfold adds in A0. fold d. rewrite A0. fold id.
  rewrite bind_run. unfold getObject.
  cbn [fst snd objects states calls db_down record].
  rewrite Hdb. unfold reconciled_effects, reconciled_objects.
  unfold on_object.
  destruct (objects w !! id) as [obj|] eqn:Hobj.
  - destruct (needUpdate JSON_stringify (common_of obj)
                (new_common (common_of obj) d)) eqn:Hupd.
    + rewrite bind_run. unfold extendObject.
      cbn [fst snd objects states calls db_down record].
      rewrite bind_run. unfold ret at 1. cbn [snd].
      match goal with
      | |- context [safeSetState id ?v true None ?w1] =>
          destruct (safeSetState_effects id v true None w1)
            as [tr1 [v1 [E1 R1]]]
      end.
      rewrite R1. cbn [fst snd objects states calls db_down record].
      rewrite Hobj.
      exists ((tr0 ++ [CGetObject id]) ++ [CExtendObject id
                  (new_common (common_of obj) d)] ++ tr1)%list, v1.
      split.
      * rewrite !effects_app, E0, E1. reflexivity.
      * rewrite <- !app_assoc. reflexivity.
    + match goal with
      | |- context [safeSetState id ?v true None ?w1] =>
          destruct (safeSetState_effects id v true None w1)
            as [tr1 [v1 [E1 R1]]]
      end.
      rewrite R1. cbn [fst snd objects states calls db_down record].
      exists ((tr0 ++ [CGetObject id]) ++ tr1)%list, v1.
      split.
      * rewrite !effects_app, E0, E1. reflexivity.
      * rewrite <- !app_assoc. reflexivity.
  - rewrite bind_run. unfold setObjectNotExists.
    cbn [fst snd objects states calls db_down record].
    rewrite Hobj.
    match goal with
    | |- context [safeSetState id ?v true None ?w1] =>
        destruct (safeSetState_effects id v true None w1)
          as [tr1 [v1 [E1 R1]]]
    end.
    rewrite R1. cbn [fst snd objects states calls db_down record].
    exists ((tr0 ++ [CGetObject id])
            ++ [CSetObjectNotExists id (Object "state" (Some d) [])]
            ++ tr1)%list, v1.
    split.
    + rewrite !effects_app, E0, E1. reflexivity.
    + rewrite <- !app_assoc. reflexivity.
Qed.

End WithRuntime.

End ReconcileFacts.

(** ** The string form of a number *)

Module NumberFacts.
Import JsString JsNumber.

Lemma digits_of_pos_first p : digit_first (digits_of_pos p) = true.
Proof.
  unfold digits_of_pos.
  pose proof (Unsigned.to_uint_nonnil p) as H.
  destruct (Pos.to_uint p); [contradiction | reflexivity ..].
Qed.

Lemma digit_first_app s t :
  digit_first s = true -> digit_first (s ++ t) = true.
Proof. destruct s; [discriminate | trivial]. Qed.

Lemma digit_first_substring s n :
  digit_first s = true -> digit_first (substring 0 (S n) s) = true.
Proof. destruct s; [discriminate | trivial]. Qed.

Lemma positive_to_string_first ds n :
  digit_first ds = true -> digit_first (positive_to_string ds n) = true.
Proof.
  intros H. unfold positive_to_string.
  destruct ((Z.of_nat (String.length ds) <=? n) && (n <=? 21));
    [now apply digit_first_app|].
  destruct ((0 <? n) && (n <=? 21)) eqn:E.
  { apply andb_true_iff in E as [E _]. apply Z.ltb_lt in E.
    destruct (Z.to_nat n) eqn:En; [lia|].
    apply digit_first_app. now apply digit_first_substring. }
  destruct ((-6 <? n) && (n <=? 0)); [reflexivity|].
  destruct (Z.of_nat (String.length ds) =? 1);
    apply digit_first_app; [assumption|].
  now apply (digit_first_substring ds 0).
Qed.

(** No number prints as the word undefined. *)
Lemma to_string_not_undefined n : to_string n <> "undefined".
Proof.
  destruct n as [|[]|m e]; try discriminate.
  unfold to_string. destruct (normalize m e) as [[|p|p] e'].
  - discriminate.
  - intros H.
    pose proof (positive_to_string_first (digits_of_pos p)
                  (Z.of_nat (String.length (digits_of_pos p)) + e')
                  (digits_of_pos_first p)) as F.
    rewrite H in F. discriminate F.
  - discriminate.
Qed.

End NumberFacts.

(** ** The new common and the comparison *)

Module CommonFacts.
Import JsString JsNumber JsValue Reconciler ObjectFacts NumberFacts.

Ltac obj_simpl :=
  repeat first
    [ rewrite get_set_same | rewrite hasOwn_set_same
    | rewrite get_delete_same | rewrite hasOwn_delete_same
    | rewrite get_set_other by discriminate
    | rewrite hasOwn_set_other by discriminate
    | rewrite get_delete_other by discriminate
    | rewrite hasOwn_delete_other by discriminate ].

(** The fields written from the desired common. *)
Lemma new_common_basic ec d k :
  In k ["name"; "type"; "read"; "write"; "unit"; "role"] ->
  get (new_common ec d) k = get d k.
Proof.
  intros Hk. unfold new_common, carry_states, carry_bound.
  simpl in Hk.
  repeat (destruct Hk as [<- | Hk]; [|]); try contradiction;
    repeat match goal with
           | |- context [if ?b then _ else _] => destruct b
           end; obj_simpl; reflexivity.
Qed.

Lemma carry_bound_get key d n :
  hasOwn (carry_bound key d n) key = hasOwn d key
  /\ get (carry_bound key d n) key
     = if hasOwn d key then get d key else VUndefined.
Proof.
  unfold carry_bound. destruct (hasOwn d key) eqn:Hd.
  - now rewrite hasOwn_set_same, get_set_same.
  - destruct (hasOwn n key) eqn:Hn.
    + now rewrite hasOwn_delete_same, get_delete_same.
    + split; [assumption | now apply get_absent].
Qed.

Lemma carry_bound_other key d n k :
  key <> k ->
  hasOwn (carry_bound key d n) k = hasOwn n k
  /\ get (carry_bound key d n) k = get n k.
Proof.
  intros Hk. unfold carry_bound.
  destruct (hasOwn d key); [|destruct (hasOwn n key)];
    rewrite ?hasOwn_set_other, ?get_set_other,
            ?hasOwn_delete_other, ?get_delete_other by assumption;
    split; reflexivity.
Qed.

Lemma carry_states_other d n k :
  k <> "states" ->
  hasOwn (carry_states d n) k = hasOwn n k
  /\ get (carry_states d n) k = get n k.
Proof.
  intros Hk. unfold carry_states. destruct (hasOwn d "states").
  - rewrite hasOwn_set_other, get_set_other by congruence. now split.
  - now split.
Qed.

(** A bound of the new common is the bound of the desired common. *)
Lemma new_common_min ec d :
  hasOwn (new_common ec d) "min" = hasOwn d "min"
  /\ get (new_common ec d) "min"
     = if hasOwn d "min" then get d "min" else VUndefined.
Proof.
  unfold new_common.
  destruct (carry_states_other d
              (carry_bound "max" d
                 (carry_bound "min" d
                    (set (set (set (set (set (set ec "name" (get d "name"))
                       "type" (get d "type")) "read" (get d "read"))
                       "write" (get d "write")) "unit" (get d "unit"))
                       "role" (get d "role")))) "min" ltac:(discriminate))
    as [-> ->].
  destruct (carry_bound_other "max" d
              (carry_bound "min" d
                 (set (set (set (set (set (set ec "name" (get d "name"))
                    "type" (get d "type")) "read" (get d "read"))
                    "write" (get d "write")) "unit" (get d "unit"))
                    "role" (get d "role"))) "min" ltac:(discriminate))
    as [-> ->].
  apply carry_bound_get.
Qed.

Lemma new_common_max ec d :
  hasOwn (new_common ec d) "max" = hasOwn d "max"
  /\ get (new_common ec d) "max"
     = if hasOwn d "max" then get d "max" else VUndefined.
Proof.
  unfold new_common.
  destruct (carry_states_other d
              (carry_bound "max" d
                 (carry_bound "min" d
                    (set (set (set (set (set (set ec "name" (get d "name"))
                       "type" (get d "type")) "read" (get d "read"))
                       "write" (get d "write")) "unit" (get d "unit"))
                       "role" (get d "role")))) "max" ltac:(discriminate))
    as [-> ->].
  apply carry_bound_get.
Qed.

(** The states of the new common: those of the desired common, or else
    the existing ones. *)
Lemma new_common_states ec d :
  get (new_common ec d) "states"
  = if hasOwn d "states" then get d "states" else get ec "states".
Proof.
  unfold new_common, carry_states.
  destruct (hasOwn d "states"); [apply get_set_same|].
  destruct (carry_bound_other "max" d
              (carry_bound "min" d
                 (set (set (set (set (set (set ec "name" (get d "name"))
                    "type" (get d "type")) "read" (get d "read"))
                    "write" (get d "write")) "unit" (get d "unit"))
                    "role" (get d "role"))) "states" ltac:(discriminate))
    as [_ ->].
  destruct (carry_bound_other "min" d
              (set (set (set (set (set (set ec "name" (get d "name"))
                 "type" (get d "type")) "read" (get d "read"))
                 "write" (get d "write")) "unit" (get d "unit"))
                 "role" (get d "role")) "states" ltac:(discriminate))
    as [_ ->].
  obj_simpl. reflexivity.
Qed.

Lemma new_common_hasOwn_states ec d :
  hasOwn (new_common ec d) "states"
  = hasOwn d "states" || hasOwn ec "states".
Proof.
  unfold new_common, carry_states.
  destruct (hasOwn d "states"); [apply hasOwn_set_same|].
  destruct (carry_bound_other "max" d
              (carry_bound "min" d
                 (set (set (set (set (set (set ec "name" (get d "name"))
                    "type" (get d "type")) "read" (get d "read"))
                    "write" (get d "write")) "unit" (get d "unit"))
                    "role" (get d "role"))) "states" ltac:(discriminate))
    as [-> _].
  destruct (carry_bound_other "min" d
              (set (set (set (set (set (set ec "name" (get d "name"))
                 "type" (get d "type")) "read" (get d "read"))
                 "write" (get d "write")) "unit" (get d "unit"))
                 "role" (get d "role")) "states" ltac:(discriminate))
    as [-> _].
  obj_simpl. reflexivity.
Qed.

(** The basic fields are own fields of the new common. *)
Lemma new_common_hasOwn_basic ec d k :
  In k ["name"; "type"; "read"; "write"; "unit"; "role"] ->
  hasOwn (new_common ec d) k = true.
Proof.
  intros Hk. unfold new_common, carry_states, carry_bound.
  simpl in Hk.
  repeat (destruct Hk as [<- | Hk]; [|]); try contradiction;
    repeat match goal with
           | |- context [if ?b then _ else _] => destruct b
           end; obj_simpl; reflexivity.
Qed.

(** A bound the desired common lacks is not in the new common. *)
Lemma new_common_lacks ec d key :
  key = "min" \/ key = "max" ->
  hasOwn d key = false ->
  hasOwn (new_common ec d) key = false
  /\ get (new_common ec d) key = VUndefined.
Proof.
  intros [-> | ->] Hd.
  - destruct (new_common_min ec d) as [-> ->]. now rewrite Hd.
  - destruct (new_common_max ec d) as [-> ->]. now rewrite Hd.
Qed.

Section Compare.
Variable JSON_stringify : value -> string.

Lemma same_refl a : same JSON_stringify a a = true.
Proof.
  unfold same.
  destruct (String.eqb (typeof a) "object" && String.eqb (typeof a) "object");
    apply String.eqb_refl.
Qed.

(** A number and [undefined] differ. *)
Lemma same_number_undefined n :
  same JSON_stringify (VNum n) VUndefined = false.
Proof.
  unfold same. simpl. apply String.eqb_neq. apply to_string_not_undefined.
Qed.

(** A value and [undefined] are told apart by the string form. *)
Lemma same_undefined v :
  same JSON_stringify v VUndefined = String.eqb (ToString v) "undefined".
Proof.
  unfold same. cbn [typeof ToString].
  change (String.eqb "undefined" "object") with false.
  now rewrite andb_false_r.
Qed.

Lemma needUpdate_false ec nc :
  (forall k, In k keysToCheck -> get ec k = get nc k) ->
  needUpdate JSON_stringify ec nc = false.
Proof.
  intros H. unfold needUpdate.
  apply not_true_is_false. intros Hex.
  apply existsb_exists in Hex as [k [Hk Hs]].
  rewrite (H k Hk), same_refl in Hs. discriminate.
Qed.

Lemma needUpdate_true ec nc k :
  In k keysToCheck ->
  same JSON_stringify (get ec k) (get nc k) = false ->
  needUpdate JSON_stringify ec nc = true.
Proof.
  intros Hk Hs. unfold needUpdate. apply existsb_exists.
  exists k. split; [assumption|]. now rewrite Hs.
Qed.
End Compare.

End CommonFacts.

(** ** The store that merges a patch *)

Module StoreFacts.
Import JsString JsValue Adapter ObjectFacts.

Lemma get_app (a b : jsobj) k :
  get (a ++ b)%list k = if hasOwn a k then get a k else get b k.
Proof.
  induction a as [|[k' v'] r IH]; simpl; [reflexivity|].
  destruct (String.eqb k' k); simpl; [reflexivity | exact IH].
Qed.

Lemma hasOwn_app (a b : jsobj) k :
  hasOwn (a ++ b)%list k = hasOwn a k || hasOwn b k.
Proof.
  induction a as [|[k' v'] r IH]; simpl; [reflexivity|].
  destruct (String.eqb k' k); simpl; [reflexivity | exact IH].
Qed.

Section Merge.
Variables old patch : jsobj.

Lemma hasOwn_written (l : jsobj) k :
  hasOwn (List.map (fun kv => (fst kv,
                               if hasOwn patch (fst kv)
                               then get patch (fst kv) else snd kv)) l) k
  = hasOwn l k.
Proof.
  induction l as [|[k' v'] r IH]; simpl; [reflexivity|].
  now rewrite IH.
Qed.

Lemma get_written (l : jsobj) k :
  hasOwn l k = true ->
  get (List.map (fun kv => (fst kv,
                            if hasOwn patch (fst kv)
                            then get patch (fst kv) else snd kv)) l) k
  = if hasOwn patch k then get patch k else get l k.
Proof.
  induction l as [|[k' v'] r IH]; simpl; [discriminate|].
  destruct (String.eqb k' k) eqn:E; simpl.
  - intros _. apply String.eqb_eq in E. now subst k'.
  - exact IH.
Qed.

Lemma fresh_fields (l : jsobj) k :
  hasOwn old k = false ->
  hasOwn (List.filter (fun kv => negb (hasOwn old (fst kv))) l) k
  = hasOwn l k
  /\ get (List.filter (fun kv => negb (hasOwn old (fst kv))) l) k
     = get l k.
Proof.
  intros Hk. induction l as [|[k' v'] r [IHh IHg]]; [now split|].
  cbn [List.filter fst].
  destruct (hasOwn old k') eqn:Hold; cbn [negb].
  - assert (E : String.eqb k' k = false).
    { apply String.eqb_neq. intros ->. congruence. }
    cbn [hasOwn get]. rewrite E. now split.
  - cbn [hasOwn get]. rewrite IHh, IHg. now split.
Qed.

Lemma merge_common_get k :
  get (merge_common old patch) k
  = if hasOwn patch k then get patch k else get old k.
Proof.
  unfold merge_common.
  rewrite get_app, hasOwn_written.
  destruct (hasOwn old k) eqn:Hold.
  - now apply get_written.
  - destruct (fresh_fields patch k Hold) as [_ ->].
    destruct (hasOwn patch k) eqn:Hp; [reflexivity|].
    now rewrite (get_absent patch k Hp), (get_absent old k Hold).
Qed.

Lemma merge_common_hasOwn k :
  hasOwn (merge_common old patch) k = hasOwn old k || hasOwn patch k.
Proof.
  unfold merge_common.
  rewrite hasOwn_app, hasOwn_written.
  destruct (hasOwn old k) eqn:Hold; [reflexivity|].
  now destruct (fresh_fields patch k Hold) as [-> _].
Qed.

End Merge.

Lemma merge_common_merges : merges merge_common.
Proof. intros old patch k. apply merge_common_get. Qed.

Lemma merge_common_keeps_unnamed : keeps_unnamed merge_common.
Proof.
  intros old patch k Hk.
  rewrite merge_common_hasOwn, merge_common_get, Hk.
  now rewrite orb_false_r.
Qed.

End StoreFacts.

(** ** C2, C4, C9: patching a persisted command *)

Module Patch.
Import JsString JsNumber JsValue Adapter StateWrite Reconciler
       ObjectFacts AdapterFacts BoundFacts WriteFacts ReconcileFacts
       CommonFacts.

Section WithRuntime.
Variable JSON_parse : string -> option value.
Variable JSON_stringify : value -> string.
Variable extend_common : jsobj -> jsobj -> jsobj.
Variable cfg : config.

Abbreviation reconcile :=
  (createISGCommands JSON_parse JSON_stringify extend_common cfg).

Lemma add_states_indep states tag d w w' :
  fst (add_states JSON_parse states tag d w)
  = fst (add_states JSON_parse states tag d w').
Proof.
  unfold add_states.
  destruct (ToBoolean states); [|reflexivity].
  destruct (String.eqb (typeof states) "object"); [reflexivity|].
  destruct states; try reflexivity.
  destruct (startsWith (trim s) "{" || startsWith (trim s) "[").
  - destruct (JSON_parse (trim s)); [reflexivity|].
    destruct (JSON_parse _); reflexivity.
  - destruct (negb _); reflexivity.
Qed.

(** The desired common depends on the command only. *)
Lemma desired_indep c tag w w' :
  fst (desired JSON_parse cfg c tag w)
  = fst (desired JSON_parse cfg c tag w').
Proof.
  destruct (desired_shape JSON_parse cfg c tag w) as [w1 ->].
  destruct (desired_shape JSON_parse cfg c tag w') as [w2 ->].
  apply add_states_indep.
Qed.

Lemma issued_reconcile c tag w :
  valTag c = Some tag -> db_down w = false ->
  let d := fst (desired JSON_parse cfg c tag w) in
  let id := id_of cfg c tag in
  exists v,
    effects (issued (reconcile c) w)
    = reconciled_effects JSON_stringify w id d v
    /\ objects (exec (reconcile c) w)
       = reconciled_objects JSON_stringify extend_common w id d
    /\ db_down (exec (reconcile c) w) = false.
Proof.
  intros Htag Hdb d id.
  destruct (reconcile_run JSON_parse JSON_stringify extend_common cfg
              c tag w Htag Hdb) as [tr [v [E R]]].
  exists v. unfold issued, exec. rewrite R. simpl.
  rewrite drop_app_length. auto.
Qed.

(** A bound that reaches the store is a finite number: the desired
    common, and with it every common handed to [setObjectNotExists] or
    [extendObject], has under [min] and [max] a finite number or nothing. *)
Lemma persisted_bounds_are_numbers c tag w ec key :
  key = "min" \/ key = "max" ->
  let d := fst (desired JSON_parse cfg c tag w) in
  (hasOwn d key = true ->
   exists n, get d key = VNum n /\ isFinite n = true)
  /\ (hasOwn (new_common ec d) key = true ->
      exists n, get (new_common ec d) key = VNum n /\ isFinite n = true).
Proof.
  intros Hkey d.
  assert (Hd : hasOwn d key = true ->
               exists n, get d key = VNum n /\ isFinite n = true).
  { subst d. destruct Hkey as [-> | ->].
    - destruct (desired_get JSON_parse cfg c tag w "min" ltac:(discriminate))
        as [-> ->].
      destruct (bounded_min c) as [-> ->]. intros H. rewrite H.
      eexists. split; [reflexivity|].
      apply included_iff in H. apply H.
    - destruct (desired_get JSON_parse cfg c tag w "max" ltac:(discriminate))
        as [-> ->].
      destruct (bounded_max c) as [-> ->]. intros H. rewrite H.
      eexists. split; [reflexivity|].
      apply included_iff in H. apply H. }
  split; [exact Hd|].
  destruct Hkey as [-> | ->].
  - destruct (new_common_min ec d) as [-> ->]. intros H. rewrite H. auto.
  - destruct (new_common_max ec d) as [-> ->]. intros H. rewrite H. auto.
Qed.

(** A persisted command whose common carries under [min] (or [max]) a
    value that does not print as [undefined] is reconciled with a
    desired common that lacks this bound: the object is patched in
    place, by one [extendObject] and nothing that deletes or creates an
    object, and the common of the patch no longer has the key.  What is
    persisted afterwards is what the store makes of the persisted
    common and this patch. *)
Lemma stale_bound_removed_by_patch :
  forall (c : command) (tag : string) (w : world) (obj : object)
         (key : string),
    valTag c = Some tag -> db_down w = false ->
    objects w !! id_of cfg c tag = Some obj ->
    key = "min" \/ key = "max" ->
    ToString (get (common_of obj) key) <> "undefined" ->
    hasOwn (fst (desired JSON_parse cfg c tag w)) key = false ->
    let patch := new_common (common_of obj)
                   (fst (desired JSON_parse cfg c tag w)) in
    (exists st,
        effects (issued (reconcile c) w)
        = [CExtendObject (id_of cfg c tag) patch;
           CSetState (id_of cfg c tag) st])
    /\ hasOwn patch key = false /\ get patch key = VUndefined
    /\ objects (exec (reconcile c) w) !! id_of cfg c tag
       = Some (extended extend_common (Some obj) patch)
    /\ db_down (exec (reconcile c) w) = false.
Proof.
  intros c tag w obj key Htag Hdb Hobj Hkey Hv Hd patch.
  destruct (issued_reconcile c tag w Htag Hdb) as [v [E [O Hdb1]]].
  destruct (new_common_lacks (common_of obj)
              (fst (desired JSON_parse cfg c tag w)) key Hkey Hd)
    as [Hh Hg].
  fold patch in Hh, Hg.
  assert (Hupd : needUpdate JSON_stringify (common_of obj) patch = true).
  { apply (needUpdate_true JSON_stringify _ _ key).
    - destruct Hkey as [-> | ->]; simpl; tauto.
    - rewrite Hg, same_undefined. now apply String.eqb_neq. }
  unfold reconciled_effects in E. unfold reconciled_objects in O.
  rewrite Hobj in E, O. cbv zeta in E, O. fold patch in E, O.
  rewrite Hupd in E, O.
  split; [now exists (State v true None)|].
  split; [exact Hh|]. split; [exact Hg|]. split; [|exact Hdb1].
  rewrite O. apply lookup_insert_eq.
Qed.

(** Over a store that keeps the fields a patch does not name, the
    bound is still persisted after the reconciliation, with the value
    it had: removing the key from the patch removes nothing from the
    store. *)
Lemma stale_bound_survives_merge :
  forall (c : command) (tag : string) (w : world) (obj : object)
         (key : string),
    keeps_unnamed extend_common ->
    valTag c = Some tag -> db_down w = false ->
    objects w !! id_of cfg c tag = Some obj ->
    key = "min" \/ key = "max" ->
    hasOwn (fst (desired JSON_parse cfg c tag w)) key = false ->
    exists obj',
      objects (exec (reconcile c) w) !! id_of cfg c tag = Some obj'
      /\ hasOwn (common_of obj') key = hasOwn (common_of obj) key
      /\ get (common_of obj') key = get (common_of obj) key.
Proof.
  intros c tag w obj key Hkeep Htag Hdb Hobj Hkey Hd.
  destruct (issued_reconcile c tag w Htag Hdb) as [v [_ [O _]]].
  destruct (new_common_lacks (common_of obj)
              (fst (desired JSON_parse cfg c tag w)) key Hkey Hd)
    as [Hh _].
  unfold reconciled_objects in O. rewrite Hobj in O. cbv zeta in O.
  destruct (needUpdate JSON_stringify (common_of obj)
              (new_common (common_of obj)
                 (fst (desired JSON_parse cfg c tag w)))).
  - eexists. split; [rewrite O; apply lookup_insert_eq|].
    unfold extended, common_of at 1 3. cbn [obj_common].
    apply Hkeep, Hh.
  - exists obj. rewrite O. now split.
Qed.

(** Over such a store the patch is issued again by the next
    reconciliation of the same command, and by every later one. *)
Lemma stale_bound_patched_again :
  forall (c : command) (tag : string) (w : world) (obj : object)
         (key : string),
    keeps_unnamed extend_common ->
    valTag c = Some tag -> db_down w = false ->
    objects w !! id_of cfg c tag = Some obj ->
    key = "min" \/ key = "max" ->
    ToString (get (common_of obj) key) <> "undefined" ->
    hasOwn (fst (desired JSON_parse cfg c tag w)) key = false ->
    let w1 := exec (reconcile c) w in
    exists obj1 patch st,
      objects w1 !! id_of cfg c tag = Some obj1
      /\ db_down w1 = false
      /\ ToString (get (common_of obj1) key) <> "undefined"
      /\ effects (issued (reconcile c) w1)
         = [CExtendObject (id_of cfg c tag) patch;
            CSetState (id_of cfg c tag) st]
      /\ hasOwn patch key = false.
Proof.
  intros c tag w obj key Hkeep Htag Hdb Hobj Hkey Hv Hd w1.
  destruct (stale_bound_removed_by_patch c tag w obj key
              Htag Hdb Hobj Hkey Hv Hd) as (_ & Hh & _ & O & Hdb1).
  fold w1 in O, Hdb1.
  set (obj1 := extended extend_common (Some obj)
                 (new_common (common_of obj)
                    (fst (desired JSON_parse cfg c tag w)))) in *.
  assert (Hg1 : get (common_of obj1) key = get (common_of obj) key).
  { unfold obj1, extended, common_of at 1. cbn [obj_common].
    apply Hkeep, Hh. }
  assert (Hd1 : hasOwn (fst (desired JSON_parse cfg c tag w1)) key = false).
  { now rewrite (desired_indep c tag w1 w). }
  assert (Hv1 : ToString (get (common_of obj1) key) <> "undefined")
    by now rewrite Hg1.
  destruct (stale_bound_removed_by_patch c tag w1 obj1 key
              Htag Hdb1 O Hkey Hv1 Hd1) as ([st E] & Hh1 & _).
  exists obj1. eexists. exists st.
  repeat (split; [eassumption|]). exact Hh1.
Qed.


(** The persisted common serves every compared field as the new common
    has it. *)
Lemma settled_no_update ec d :
  (forall k, In k keysToCheck -> get ec k = get (new_common ec d) k) ->
  needUpdate JSON_stringify ec (new_common ec d) = false.
Proof. apply needUpdate_false. Qed.

Lemma desired_settled d :
  forall k, In k keysToCheck -> get d k = get (new_common d d) k.
Proof.
  intros k Hk. simpl in Hk.
  destruct Hk as [<-|[<-|[<-|[<-|[<-|[<-|[<-|[<-|[<-|[]]]]]]]]]].
  1-6: symmetry; apply new_common_basic; simpl; tauto.
  - destruct (new_common_min d d) as [_ ->].
    destruct (hasOwn d "min") eqn:H; [reflexivity | now apply get_absent].
  - destruct (new_common_max d d) as [_ ->].
    destruct (hasOwn d "max") eqn:H; [reflexivity | now apply get_absent].
  - rewrite new_common_states. now destruct (hasOwn d "states").
Qed.

Lemma patched_settled ec0 ec d :
  (forall k, In k keysToCheck -> get ec k = get (new_common ec0 d) k) ->
  forall k, In k keysToCheck -> get ec k = get (new_common ec d) k.
Proof.
  intros H k Hk. pose proof (H k Hk) as Hget. simpl in Hk.
  destruct Hk as [<-|[<-|[<-|[<-|[<-|[<-|[<-|[<-|[<-|[]]]]]]]]]].
  1-6: rewrite Hget; rewrite !new_common_basic by (simpl; tauto);
       reflexivity.
  - rewrite Hget. destruct (new_common_min ec0 d) as [_ ->].
    destruct (new_common_min ec d) as [_ ->]. reflexivity.
  - rewrite Hget. destruct (new_common_max ec0 d) as [_ ->].
    destruct (new_common_max ec d) as [_ ->]. reflexivity.
  - rewrite new_common_states. rewrite new_common_states in Hget.
    destruct (hasOwn d "states"); [exact Hget | reflexivity].
Qed.

(** Over a store that serves the compared fields of a patch as the
    patch had them, a second reconciliation with the same derived data
    patches nothing: the comparison finds every field equal and the
    only writing call is the value write. *)
Lemma second_reconcile_only_writes_value :
  forall (c : command) (tag : string) (w : world),
    valTag c = Some tag -> db_down w = false ->
    (forall old patch k,
        In k keysToCheck ->
        get (extend_common old patch) k = get patch k) ->
    exists st,
      effects (issued (reconcile c) (exec (reconcile c) w))
      = [CSetState (id_of cfg c tag) st].
Proof.
  intros c tag w Htag Hdb Hstore.
  destruct (issued_reconcile c tag w Htag Hdb) as [v1 [_ [O1 Hdb1]]].
  destruct (issued_reconcile c tag (exec (reconcile c) w) Htag Hdb1)
    as [v2 [E2 _]].
  exists (State v2 true None). rewrite E2.
  rewrite (desired_indep c tag (exec (reconcile c) w) w).
  set (d := fst (desired JSON_parse cfg c tag w)) in *.
  set (id := id_of cfg c tag) in *.
  unfold reconciled_effects. rewrite O1. unfold reconciled_objects.
  destruct (objects w !! id) as [obj|] eqn:Hobj.
  - cbv zeta.
    destruct (needUpdate JSON_stringify (common_of obj)
                (new_common (common_of obj) d)) eqn:Hupd.
    + rewrite lookup_insert_eq. cbv zeta.
      rewrite settled_no_update; [reflexivity|].
      apply (patched_settled (common_of obj)).
      intros k Hk. unfold extended, common_of at 1. simpl.
      now apply Hstore.
    + rewrite Hobj. cbv zeta. now rewrite Hupd.
  - rewrite lookup_insert_eq. cbv zeta.
    rewrite settled_no_update; [reflexivity|].
    unfold common_of. simpl. apply desired_settled.
Qed.

(** Over a store that merges field by field the same holds as long
    as the persisted common carries no bound that the derived data
    lack. *)
Lemma merging_store_settles :
  forall (c : command) (tag : string) (w : world),
    merges extend_common ->
    valTag c = Some tag -> db_down w = false ->
    (forall obj key,
        objects w !! id_of cfg c tag = Some obj ->
        key = "min" \/ key = "max" ->
        hasOwn (fst (desired JSON_parse cfg c tag w)) key = false ->
        hasOwn (common_of obj) key = false) ->
    exists st,
      effects (issued (reconcile c) (exec (reconcile c) w))
      = [CSetState (id_of cfg c tag) st].
Proof.
  intros c tag w Hstore Htag Hdb Hclean.
  destruct (issued_reconcile c tag w Htag Hdb) as [v1 [_ [O1 Hdb1]]].
  destruct (issued_reconcile c tag (exec (reconcile c) w) Htag Hdb1)
    as [v2 [E2 _]].
  exists (State v2 true None). rewrite E2.
  rewrite (desired_indep c tag (exec (reconcile c) w) w).
  set (d := fst (desired JSON_parse cfg c tag w)) in *.
  set (id := id_of cfg c tag) in *.
  unfold reconciled_effects. rewrite O1. unfold reconciled_objects.
  destruct (objects w !! id) as [obj|] eqn:Hobj.
  - cbv zeta.
    destruct (needUpdate JSON_stringify (common_of obj)
                (new_common (common_of obj) d)) eqn:Hupd.
    + rewrite lookup_insert_eq. cbv zeta.
      rewrite settled_no_update; [reflexivity|].
      apply (patched_settled (common_of obj)).
      intros k Hk. unfold extended, common_of at 1. cbn [obj_common].
      rewrite Hstore.
      destruct (hasOwn (new_common (common_of obj) d) k) eqn:Hown;
        [reflexivity|].
      rewrite (get_absent _ _ Hown). apply get_absent.
      simpl in Hk.
      destruct Hk as [<-|[<-|[<-|[<-|[<-|[<-|[<-|[<-|[<-|[]]]]]]]]]].
      1-6: rewrite new_common_hasOwn_basic in Hown by (simpl; tauto);
           discriminate.
      * destruct (new_common_min (common_of obj) d) as [Hm _].
        rewrite Hm in Hown. apply (Hclean obj "min"); auto.
      * destruct (new_common_max (common_of obj) d) as [Hm _].
        rewrite Hm in Hown. apply (Hclean obj "max"); auto.
      * rewrite new_common_hasOwn_states in Hown.
        now apply orb_false_iff in Hown as [_ Hown].
    + rewrite Hobj. cbv zeta. now rewrite Hupd.
  - rewrite lookup_insert_eq. cbv zeta.
    rewrite settled_no_update; [reflexivity|].
    unfold common_of. simpl. apply desired_settled.
Qed.

End WithRuntime.

Import Examples Json.

(** C2, over a store that merges.  The selector persisted under another
    label and with bounds of zero is reconciled with the selector as the
    page gives it, without bounds.  The patch handed to [extendObject]
    has neither [min] nor [max]; the store merges it into the persisted
    common: the label is the new one, and both bounds of zero are still
    persisted.  The value 11 of the selector is then clamped against
    them and written as 0. *)
Theorem stale_bounds_survive_merging_store :
  let id := id_of cfg selector "val82" in
  let after := exec (reconcile_merging selector) stale_world in
  (exists patch,
      effects (issued (reconcile_merging selector) stale_world)
      = [CExtendObject id patch;
         CSetState id (State (VNum (of_Z 0)) true None)]
      /\ hasOwn patch "min" = false /\ hasOwn patch "max" = false
      /\ get patch "name" = VStr "Betriebsart")
  /\ (exists obj',
         objects after !! id = Some obj'
         /\ get (common_of obj') "name" = VStr "Betriebsart"
         /\ get (common_of obj') "min" = VNum (of_Z 0)
         /\ get (common_of obj') "max" = VNum (of_Z 0))
  /\ id = "start.val82"
  /\ valValue selector = VNum (of_Z 11)
  /\ get (common_of stale_selector) "name" = VStr "BETRIEBSART".
Proof.
  intros id after.
  assert (Hobj : objects stale_world !! id = Some stale_selector)
    by (vm_compute; reflexivity).
  assert (Hmin : hasOwn (fst (desired parse_flat_object cfg selector "val82"
                                stale_world)) "min" = false)
    by (vm_compute; reflexivity).
  assert (Hmax : hasOwn (fst (desired parse_flat_object cfg selector "val82"
                                stale_world)) "max" = false)
    by (vm_compute; reflexivity).
  split; [|split; [|repeat split; reflexivity]].
  - eexists. split; [vm_compute; reflexivity|].
    repeat split; vm_compute; reflexivity.
  - destruct (stale_bound_survives_merge parse_flat_object stringify
                merge_common cfg selector "val82" stale_world
                stale_selector "min" StoreFacts.merge_common_keeps_unnamed
                eq_refl eq_refl Hobj (or_introl eq_refl) Hmin)
      as (obj1 & O1 & _ & G1).
    destruct (stale_bound_survives_merge parse_flat_object stringify
                merge_common cfg selector "val82" stale_world
                stale_selector "max" StoreFacts.merge_common_keeps_unnamed
                eq_refl eq_refl Hobj (or_intror eq_refl) Hmax)
      as (obj2 & O2 & _ & G2).
    fold id in O1, O2. fold (reconcile_merging selector) in O1, O2.
    fold after in O1, O2.
    assert (N : exists o, objects after !! id = Some o
                          /\ get (common_of o) "name" = VStr "Betriebsart")
      by (eexists; split; vm_compute; reflexivity).
    destruct N as (o & On & Hn).
    assert (obj2 = obj1) by congruence. subst obj2.
    assert (o = obj1) by congruence. subst o.
    exists obj1. split; [exact O1|]. split; [exact Hn|].
    split; [exact G1 | exact G2].
Qed.

(** C4, over a store that merges.  The same selector is reconciled a
    second time with the same derived data.  The first call has brought
    every compared field but the bounds to what the derived data give;
    the bounds of zero are still persisted, the comparison finds them
    different from the new common, which has none, and the second call
    patches again before it writes the value, as the first call did. *)
Theorem second_reconcile_patches_merging_store :
  let id := id_of cfg selector "val82" in
  let once := exec (reconcile_merging selector) stale_world in
  exists patch patch' st st' obj1,
    effects (issued (reconcile_merging selector) stale_world)
    = [CExtendObject id patch; CSetState id st]
    /\ objects once !! id = Some obj1
    /\ effects (issued (reconcile_merging selector) once)
       = [CExtendObject id patch'; CSetState id st']
    /\ hasOwn patch "min" = false /\ hasOwn patch' "min" = false
    /\ get (common_of obj1) "min" = VNum (of_Z 0)
    /\ Forall (fun k => get (common_of obj1) k = get patch' k)
              ["name"; "type"; "read"; "write"; "unit"; "role"; "states"]
    /\ id = "start.val82".
Proof.
  intros id once.
  assert (Hobj : objects stale_world !! id = Some stale_selector)
    by (vm_compute; reflexivity).
  assert (Hmin : hasOwn (fst (desired parse_flat_object cfg selector "val82"
                                stale_world)) "min" = false)
    by (vm_compute; reflexivity).
  assert (Hv : ToString (get (common_of stale_selector) "min")
               <> "undefined")
    by (vm_compute; discriminate).
  destruct (stale_bound_removed_by_patch parse_flat_object stringify
              merge_common cfg selector "val82" stale_world stale_selector
              "min" eq_refl eq_refl Hobj (or_introl eq_refl) Hv Hmin)
    as ([st E] & Hh & _).
  destruct (stale_bound_patched_again parse_flat_object stringify
              merge_common cfg selector "val82" stale_world stale_selector
              "min" StoreFacts.merge_common_keeps_unnamed
              eq_refl eq_refl Hobj (or_introl eq_refl) Hv Hmin)
    as (obj1 & patch' & st' & O1 & _ & _ & E' & Hh').
  fold id in E, O1, E'. fold (reconcile_merging selector) in E, O1, E'.
  fold once in O1, E'.
  assert (N : exists o p s,
             objects once !! id = Some o
             /\ effects (issued (reconcile_merging selector) once)
                = [CExtendObject id p; CSetState id s]
             /\ get (common_of o) "min" = VNum (of_Z 0)
             /\ Forall (fun k => get (common_of o) k = get p k)
                       ["name"; "type"; "read"; "write"; "unit"; "role";
                        "states"]).
  { do 3 eexists. split; [vm_compute; reflexivity|].
    split; [vm_compute; reflexivity|].
    split; [vm_compute; reflexivity|].
    repeat (constructor; [vm_compute; reflexivity|]). constructor. }
  destruct N as (o & p & s & On & En & Gn & Fn).
  assert (o = obj1) by congruence. subst o.
  assert (p = patch') by congruence. subst p.
  eexists. exists patch', st, st', obj1.
  split; [exact E|]. split; [exact O1|]. split; [exact E'|].
  split; [exact Hh|]. split; [exact Hh'|]. split; [exact Gn|].
  split; [exact Fn | reflexivity].
Qed.

(** The slider, whose page gives both bounds, over the store that
    merges: the second reconciliation only writes the value. *)
Example merging_store_settles_on_slider :
  exists st,
    effects (issued (reconcile_merging slider)
               (exec (reconcile_merging slider) slider_world))
    = [CSetState (id_of cfg slider "val5") st].
Proof.
  apply (merging_store_settles parse_flat_object stringify merge_common
           cfg slider "val5" slider_world StoreFacts.merge_common_merges
           eq_refl eq_refl).
  intros obj key _ [-> | ->] H; vm_compute in H; discriminate.
Qed.


End Patch.

(** ** C3, C10: the clamped write *)

Module Clamp.
Import JsString JsNumber JsValue Adapter StateWrite AdapterFacts WriteFacts.

(** C10.  For a state whose last path segment is not val followed by
    digits, [safeSetState] issues the single call [setState] with the
    value, the acknowledgement flag and the expiry as given: the object
    is not read and nothing is clamped. *)
Theorem direct_write_outside_valNN :
  forall (id : string) (val : value) (ack : bool) (expire : option value)
         (w : world),
    ~ valNN (last_segment id) ->
    issued (safeSetState id val ack expire) w
    = [CSetState id (State val ack expire)]
    /\ exec (safeSetState id val ack expire) w
       = World (objects w) (<[id := State val ack expire]> (states w))
               (calls w ++ [CSetState id (State val ack expire)])%list
               (db_down w).
Proof.
  intros id val ack expire w Hno.
  assert (E : is_valNN (last_segment id) = false).
  { apply not_true_is_false. intros H. apply Hno. now apply is_valNN_spec. }
  unfold issued, exec. rewrite (safeSetState_direct id val ack expire w E).
  simpl. rewrite drop_app_length. now split.
Qed.

Lemma clamped_bounds common lo hi val :
  get common "min" = VNum lo -> get common "max" = VNum hi ->
  isNaN lo = false -> isNaN hi = false -> isNaN (ToNumber val) = false ->
  clamped common val = clamp_to_min lo hi val.
Proof.
  intros Hmin Hmax Hlo Hhi Hval.
  unfold clamped, clamp_to_min, below, above.
  rewrite Hmin, Hmax. cbn [typeof ToNumber].
  change (String.eqb "number" "undefined") with false.
  rewrite Hlo, Hhi, Hval. cbn [negb andb].
  destruct (lt (ToNumber val) lo).
  - cbn [ToNumber]. rewrite Hlo. cbn [negb andb]. now destruct (gt lo hi).
  - rewrite Hval. cbn [negb andb]. reflexivity.
Qed.

(** C3, as the code has it.  A numeric value is written through
    [safeSetState] to a state whose last path segment is val followed by
    digits and whose object declares a numeric [min] and [max]: below
    [min] the value written is [min], above [max] it is [min] as well,
    and otherwise the value is written unchanged. *)
Theorem clamp_to_min_on_valNN :
  forall (id : string) (val : value) (ack : bool) (expire : option value)
         (w : world) (t : string) (common native : jsobj) (lo hi : number),
    valNN (last_segment id) -> db_down w = false ->
    objects w !! id = Some (Object t (Some common) native) ->
    get common "min" = VNum lo -> get common "max" = VNum hi ->
    isNaN lo = false -> isNaN hi = false ->
    isNaN (ToNumber val) = false ->
    states (exec (safeSetState id val ack expire) w) !! id
    = Some (State (clamp_to_min lo hi val) ack expire)
    /\ effects (issued (safeSetState id val ack expire) w)
       = [CSetState id (State (clamp_to_min lo hi val) ack expire)]
    /\ (lt (ToNumber val) lo = true -> clamp_to_min lo hi val = VNum lo)
    /\ (gt (ToNumber val) hi = true -> clamp_to_min lo hi val = VNum lo)
    /\ (lt (ToNumber val) lo = false -> gt (ToNumber val) hi = false ->
        clamp_to_min lo hi val = val).
Proof.
  intros id val ack expire w t common native lo hi
         Hid Hdb Hobj Hmin Hmax Hlo Hhi Hval.
  apply is_valNN_spec in Hid.
  destruct (safeSetState_clamped id val ack expire w Hid) as [tr [E R]].
  rewrite Hdb, Hobj in R. simpl final_value in R.
  rewrite (clamped_bounds common lo hi val Hmin Hmax Hlo Hhi Hval) in R.
  unfold issued, exec. rewrite R. simpl.
  rewrite drop_app_length. split; [apply lookup_insert_eq|]. split.
  - simpl. rewrite effects_app, E. reflexivity.
  - unfold clamp_to_min. repeat split.
    + now intros ->.
    + intros ->. now destruct (lt (ToNumber val) lo).
    + now intros -> ->.
Qed.

Import Examples.

Lemma direct_write_outside_valNN_witness :
  ~ valNN (last_segment room_id)
  /\ issued (safeSetState room_id (VNum (of_Z 60)) true None) room_world
     = [CSetState room_id (State (VNum (of_Z 60)) true None)].
Proof.
  assert (H : ~ valNN (last_segment room_id)).
  { intros H. apply is_valNN_spec in H. discriminate H. }
  split; [exact H|].
  apply (direct_write_outside_valNN room_id (VNum (of_Z 60)) true None
           room_world H).
Defined.

Lemma clamp_to_min_on_valNN_witness :
  valNN (last_segment "settings.HEIZEN.val5")
  /\ db_down room_world = false
  /\ objects room_world !! "settings.HEIZEN.val5"
     = Some (Object "state" (Some room_common) [])
  /\ get room_common "min" = VNum (of_Z 0)
  /\ get room_common "max" = VNum (of_Z 50)
  /\ isNaN (of_Z 0) = false /\ isNaN (of_Z 50) = false
  /\ isNaN (ToNumber (VNum (of_Z 60))) = false
  /\ states (exec (safeSetState "settings.HEIZEN.val5" (VNum (of_Z 60))
                     true None) room_world) !! "settings.HEIZEN.val5"
     = Some (State (VNum (of_Z 0)) true None).
Proof.
  assert (H : valNN (last_segment "settings.HEIZEN.val5")).
  { apply is_valNN_spec. reflexivity. }
  split; [exact H|].
  repeat (split; [reflexivity|]).
  apply (clamp_to_min_on_valNN "settings.HEIZEN.val5" (VNum (of_Z 60)) true
           None room_world "state" room_common [] (of_Z 0) (of_Z 50) H);
    reflexivity.
Defined.

(** C3 as stated does not hold for every state write: an object with
    the bounds 0 and 50 under an identifier that is not a valNN code
    receives the value 60, above its maximum, unchanged. *)
Lemma unclamped_write_outside_valNN :
  exists (id : string) (val : value) (w : world) (common : jsobj)
         (lo hi : number),
    db_down w = false
    /\ objects w !! id = Some (Object "state" (Some common) [])
    /\ get common "min" = VNum lo /\ get common "max" = VNum hi
    /\ isNaN lo = false /\ isNaN hi = false
    /\ isNaN (ToNumber val) = false
    /\ gt (ToNumber val) hi = true
    /\ states (exec (safeSetState id val true None) w) !! id
       = Some (State val true None)
    /\ val <> VNum lo.
Proof.
  exists room_id, (VNum (of_Z 60)), room_world, room_common,
         (of_Z 0), (of_Z 50).
  repeat (split; [reflexivity|]). discriminate.
Qed.

End Clamp.

(** ** C6: the role of a value *)

Module Roles.
Import JsString Values.

Lemma substring_prefix t a : substring 0 (String.length t) (t ++ a) = t.
Proof.
  induction t as [|c t IH]; simpl.
  - destruct a; reflexivity.
  - rewrite IH. reflexivity.
Qed.

Lemma substring_middle b t a :
  substring (String.length b) (String.length t) (b ++ t ++ a) = t.
Proof.
  induction b as [|c b IH].
  - exact (substring_prefix t a).
  - exact IH.
Qed.

Lemma prefix_split t : forall s,
  substring 0 (String.length t) s = t -> exists a, s = t ++ a.
Proof.
  induction t as [|c t IH]; intros s H; simpl in *.
  - now exists s.
  - destruct s as [|c' s]; [discriminate|].
    injection H as -> H. destruct (IH s H) as [a ->]. now exists a.
Qed.

Lemma middle_split t : t <> "" -> forall m s,
  substring m (String.length t) s = t ->
  exists b a, s = b ++ t ++ a /\ String.length b = m.
Proof.
  intros Ht. induction m as [|m IH]; intros s H.
  - destruct (prefix_split t s H) as [a ->]. now exists "", a.
  - destruct s as [|c s].
    + destruct t; [contradiction | discriminate].
    + simpl in H. destruct (IH s H) as [b [a [-> Hb]]].
      exists (String c b), a. simpl. now rewrite Hb.
Qed.

(** [search] finds a keyword exactly when the key contains it. *)
Lemma search_contains key word :
  word <> "" -> (search key word >? -1) = true <-> contains key word.
Proof.
  intros Hw. unfold search, contains.
  destruct (String.index 0 word key) as [m|] eqn:E.
  - split; [intros _ | intros _; apply Z.gtb_lt; lia].
    apply index_correct1 in E.
    destruct (middle_split word Hw m key E) as [b [a [-> _]]]. eauto.
  - split; [discriminate|]. intros [b [a ->]]. exfalso.
    apply (index_correct3 0 (String.length b) word (b ++ word ++ a) E Hw);
      [lia | apply substring_middle].
Qed.

(** [search] answers 0 exactly when the key starts with the keyword. *)
Lemma search_starts key word :
  word <> "" -> (search key word =? 0) = true <-> starts_with key word.
Proof.
  intros Hw. unfold search, starts_with.
  destruct (String.index 0 word key) as [m|] eqn:E.
  - split.
    + intros H. apply Z.eqb_eq in H. assert (m = 0%nat) as -> by lia.
      apply index_correct1 in E. now apply prefix_split.
    + intros [a ->]. apply Z.eqb_eq.
      destruct m as [|m]; [reflexivity|]. exfalso.
      apply (index_correct2 0 (S m) word (word ++ a) E 0%nat);
        [lia | lia | apply substring_prefix].
  - split; [discriminate|]. intros [a ->]. exfalso.
    apply (index_correct3 0 0%nat word (word ++ a) E Hw);
      [lia | apply substring_prefix].
Qed.

Lemma temperature_test key :
  (search key "TEMP" >? -1) || (search key "FROST" >? -1)
  || (search key "SOLLWERT_HK" =? 0) || (search key "ISTWERT_HK" =? 0) = true
  <-> is_temperature key.
Proof.
  unfold is_temperature.
  rewrite !orb_true_iff.
  rewrite !search_contains, !search_starts by discriminate. tauto.
Qed.

Lemma decide_test (b : bool) (P : Prop) :
  (b = true <-> P) -> (b = true /\ P) \/ (b = false /\ ~ P).
Proof.
  intros H. destruct b; [left | right]; split; trivial.
  - now apply H.
  - intros HP. apply H in HP. discriminate.
Qed.

(** C6.  The role of a key is decided by the first test that succeeds,
    in this order: the key contains TEMP or FROST or starts with
    SOLLWERT_HK or ISTWERT_HK, temperature; it contains DRUCK, pressure;
    it starts with P_, power consumption; it contains FEUCHTE, humidity;
    and every other key has the role value. *)
Theorem role_by_first_match :
  forall key : string,
    (is_temperature key -> valueRole key = "value.temperature")
    /\ (~ is_temperature key -> contains key "DRUCK" ->
        valueRole key = "value.pressure")
    /\ (~ is_temperature key -> ~ contains key "DRUCK" ->
        starts_with key "P_" -> valueRole key = "value.power.consumption")
    /\ (~ is_temperature key -> ~ contains key "DRUCK" ->
        ~ starts_with key "P_" -> contains key "FEUCHTE" ->
        valueRole key = "value.humidity")
    /\ (~ is_temperature key -> ~ contains key "DRUCK" ->
        ~ starts_with key "P_" -> ~ contains key "FEUCHTE" ->
        valueRole key = "value").
Proof.
  intros key. unfold valueRole.
  destruct (decide_test _ _ (temperature_test key)) as [[-> Ht] | [-> Ht]];
    [repeat split; intros; try reflexivity; contradiction|].
  destruct (decide_test _ _ (search_contains key "DRUCK" ltac:(discriminate)))
    as [[-> Hd] | [-> Hd]];
    [repeat split; intros; try reflexivity; contradiction|].
  destruct (decide_test _ _ (search_starts key "P_" ltac:(discriminate)))
    as [[-> Hp] | [-> Hp]];
    [repeat split; intros; try reflexivity; contradiction|].
  destruct (decide_test _ _ (search_contains key "FEUCHTE" ltac:(discriminate)))
    as [[-> Hf] | [-> Hf]];
    repeat split; intros; try reflexivity; contradiction.
Qed.

(** The roles of a few keys of the device pages. *)
Example roles_of_sample_keys :
  List.map valueRole
    ["AUSSENTEMPERATUR"; "FROSTSCHUTZ"; "SOLLWERT_HK_1"; "ISTWERT_HK_1";
     "HEIZKREISDRUCK"; "P_HEIZUNG"; "RAUMFEUCHTE"; "VOLUMENSTROM";
     "TEMP_DRUCK"; "WP_P_"]
  = ["value.temperature"; "value.temperature"; "value.temperature";
     "value.temperature"; "value.pressure"; "value.power.consumption";
     "value.humidity"; "value"; "value.temperature"; "value"].
Proof. reflexivity. Qed.

End Roles.

(** ** C5: the fetch gate *)

Module GateFacts.
Import JsNumber FetchGate.

Lemma lt_of_Z a b : lt (of_Z a) (of_Z b) = (a <? b).
Proof. unfold lt, of_Z, align. simpl. now rewrite !Z.mul_1_r. Qed.

Section Gate.
Variable task : Type.
Variable N : positive.

Lemma drain_spec : forall (q : list task) (g : gate task),
  within_limit N g ->
  let g' := drain task q g in
  within_limit N g' /\ saturated N g'
  /\ immediates g' = immediates g
  /\ exists adm,
       started g' = (started g ++ adm)%list
       /\ inflight g' = (inflight g ++ adm)%list
       /\ q = (adm ++ queue g')%list
       /\ (running g < Zpos N ->
           match q with
           | [] => adm = []
           | next :: _ => exists more, adm = next :: more
           end).
Proof.
  induction q as [|item rest IH]; intros g [Hrun [Hle Hlim]] g'.
  - subst g'. cbn [drain].
    unfold within_limit, saturated.
    cbn [queue running limit inflight started immediates].
    split; [auto|]. split; [now left|]. split; [reflexivity|].
    exists []. rewrite !app_nil_r. auto.
  - subst g'. cbn [drain]. rewrite Hlim, lt_of_Z.
    destruct (running g <? Zpos N) eqn:Hlt.
    + apply Z.ltb_lt in Hlt.
      set (g1 := Gate rest (running g + 1) (of_Z (Zpos N))
                      (inflight g ++ [item]) (started g ++ [item])
                      (immediates g)).
      assert (B1 : within_limit N g1).
      { unfold within_limit, g1.
        cbn [queue running limit inflight started immediates].
        split; [|split; [lia | reflexivity]].
        rewrite length_app. simpl. lia. }
      destruct (IH g1 B1) as [B [S [I [adm [Hs [Hi [Hq _]]]]]]].
      split; [exact B|]. split; [exact S|]. split; [exact I|].
      exists (item :: adm).
      unfold g1 in Hs, Hi.
      cbn [queue running limit inflight started immediates] in Hs, Hi.
      rewrite <- !app_assoc in Hs, Hi.
      split; [exact Hs|]. split; [exact Hi|]. split.
      * simpl. now rewrite <- Hq.
      * intros _. now exists adm.
    + apply Z.ltb_ge in Hlt.
      unfold within_limit, saturated.
      cbn [queue running limit inflight started immediates].
      split; [auto|]. split; [right; lia|]. split; [reflexivity|].
      exists []. rewrite !app_nil_r.
      split; [reflexivity|]. split; [reflexivity|].
      split; [reflexivity|]. intros Hfree. lia.
Qed.

Lemma init_inv : @gate_inv task N (init (of_Z (Zpos N))).
Proof.
  unfold gate_inv, within_limit, saturated, init. simpl.
  repeat split; try reflexivity; [lia | left; now left].
Qed.

Lemma settle_bounded i o (g : gate task) (t : task) :
  within_limit N g -> inflight g !! i = Some t ->
  within_limit N (settle i o g)
  /\ running (settle i o g) = running g - 1
  /\ queue (settle i o g) = queue g
  /\ started (settle i o g) = started g
  /\ immediates (settle i o g) = S (immediates g).
Proof.
  intros [Hrun [Hle Hlim]] Hi. unfold settle. rewrite Hi.
  unfold within_limit. cbn [queue running limit inflight started immediates].
  pose proof (lookup_lt_Some _ _ _ Hi) as Hlen.
  assert (Hl : length (take i (inflight g) ++ drop (S i) (inflight g))
               = (length (inflight g) - 1)%nat).
  { rewrite length_app, length_take, length_drop. lia. }
  rewrite Hl.
  split; [split; [lia | split; [lia | assumption]]|].
  auto.
Qed.

Lemma step_inv (g : gate task) (e : event task) :
  gate_inv N g ->
  gate_inv N (step g e)
  /\ (started (step g e) ++ queue (step g e))%list
     = (started g ++ queue g
        ++ match e with Schedule fn => [fn] | _ => [] end)%list.
Proof.
  intros [B L]. destruct e as [fn | i o |]; cbn [step].
  - unfold schedule, runQueue.
    cbn [queue running limit inflight started immediates].
    set (g0 := Gate (queue g ++ [fn]) (running g) (limit g) (inflight g)
                    (started g) (immediates g)).
    assert (B0 : within_limit N g0) by exact B.
    destruct (drain_spec (queue g ++ [fn]) g0 B0)
      as [B' [S' [_ [adm [Hs [_ [Hq _]]]]]]].
    split; [split; [exact B' | now left]|].
    rewrite Hs. simpl. rewrite <- app_assoc. now rewrite <- Hq.
  - destruct (inflight g !! i) as [t|] eqn:Hi.
    + destruct (settle_bounded i o g t B Hi) as [B' [_ [Hq [Hs Him]]]].
      split; [split; [exact B' | right; lia]|].
      now rewrite Hq, Hs, app_nil_r.
    + unfold settle. rewrite Hi. split; [now split|].
      now rewrite app_nil_r.
  - unfold immediate. destruct (immediates g) as [|n] eqn:Him.
    + split; [split; [exact B|]|now rewrite app_nil_r].
      destruct L as [S|Hpos]; [now left | lia].
    + unfold runQueue.
      cbn [queue running limit inflight started immediates].
      set (g0 := Gate (queue g) (running g) (limit g) (inflight g)
                      (started g) n).
      assert (B0 : within_limit N g0) by exact B.
      destruct (drain_spec (queue g) g0 B0)
        as [B' [S' [_ [adm [Hs [_ [Hq _]]]]]]].
      split; [split; [exact B' | now left]|].
      rewrite Hs. simpl. rewrite <- app_assoc, app_nil_r.
      now rewrite <- Hq.
Qed.

Lemma run_inv : forall (evs : list (event task)) (g : gate task),
  gate_inv N g ->
  gate_inv N (run evs g)
  /\ (started (run evs g) ++ queue (run evs g))%list
     = (started g ++ queue g ++ submitted evs)%list.
Proof.
  induction evs as [|e evs IH]; intros g Hg.
  - split; [exact Hg|]. simpl. now rewrite app_nil_r.
  - destruct (step_inv g e Hg) as [Hg' Hfifo].
    destruct (IH (step g e) Hg') as [Hinv Hrest].
    change (run (e :: evs) g) with (run evs (step g e)).
    split; [exact Hinv|].
    rewrite Hrest, app_assoc, Hfifo.
    rewrite <- !app_assoc. destruct e; reflexivity.
Qed.

End Gate.

End GateFacts.

Module C5.
Import JsNumber FetchGate GateFacts.

(** C5.  From the empty gate with limit [N], after every sequence of
    submissions, completions and queued [runQueue] calls: at most [N]
    tasks are in flight and the counter [running] is their number; the
    tasks started so far followed by the waiting ones are the submitted
    tasks in submission order; a task waits only while all [N] slots are
    taken or a queued [runQueue] has yet to run; and the completion of a
    task in flight, resolved or rejected, lowers the counter by one and
    the [runQueue] it queues admits the head of the queue, if there is
    one. *)
Theorem gate_admits_at_most_limit :
  forall (task : Type) (N : positive) (evs : list (event task)),
    let g := run evs (init (of_Z (Zpos N))) in
    ((length (inflight g) <= Pos.to_nat N)%nat
     /\ running g = Z.of_nat (length (inflight g)))
    /\ (started g ++ queue g)%list = submitted evs
    /\ (queue g = [] \/ running g = Zpos N \/ (0 < immediates g)%nat)
    /\ (forall (i : nat) (o : outcome) (t : task),
          inflight g !! i = Some t ->
          running (settle i o g) = running g - 1
          /\ match queue g with
             | [] => queue (immediate (settle i o g)) = []
             | next :: _ =>
                 exists more,
                   started (immediate (settle i o g))
                   = (started g ++ next :: more)%list
                   /\ In next (inflight (immediate (settle i o g)))
             end).
Proof.
  intros task N evs g.
  destruct (run_inv task N evs (init (of_Z (Zpos N))) (init_inv task N))
    as [[B L] Hfifo].
  fold g in B, L, Hfifo. simpl in Hfifo.
  destruct B as [Hrun [Hle Hlim]].
  split; [split; [lia | exact Hrun]|].
  split; [exact Hfifo|].
  split; [destruct L as [[S|S]|S]; auto|].
  intros i o t Hi.
  destruct (settle_bounded task N i o g t (conj Hrun (conj Hle Hlim)) Hi)
    as [B1 [Hr1 [Hq1 [Hs1 Him1]]]].
  split; [exact Hr1|].
  unfold immediate. rewrite Him1. unfold runQueue.
  cbn [queue running limit inflight started immediates].
  set (g0 := Gate (queue (settle i o g)) (running (settle i o g))
                  (limit (settle i o g)) (inflight (settle i o g))
                  (started (settle i o g)) (immediates g)).
  assert (B0 : within_limit N g0) by exact B1.
  destruct (drain_spec task N (queue (settle i o g)) g0 B0)
    as [_ [_ [_ [adm [Hs [Hin [Hq Hhead]]]]]]].
  assert (Hfree : running g0 < Zpos N).
  { unfold g0. cbn [running]. lia. }
  specialize (Hhead Hfree). rewrite Hq1 in Hhead, Hq, Hs, Hin |- *.
  destruct (queue g) as [|next rest].
  - subst adm. cbn [app] in Hq. symmetry. exact Hq.
  - destruct Hhead as [more ->]. exists more.
    rewrite Hs, Hin. unfold g0. cbn [started inflight]. rewrite Hs1.
    split; [reflexivity|]. apply in_or_app. right. now left.
Qed.

(** Two slots, three submissions, then the first task fails. *)
Lemma gate_admits_at_most_limit_witness :
  let g := run [Schedule 1%nat; Schedule 2%nat; Schedule 3%nat]
               (init (of_Z 2)) in
  inflight g !! 0%nat = Some 1%nat
  /\ running (settle 0 Rejected g) = running g - 1
  /\ exists more,
       started (immediate (settle 0 Rejected g))
       = (started g ++ 3%nat :: more)%list
       /\ In 3%nat (inflight (immediate (settle 0 Rejected g))).
Proof.
  split; [reflexivity|].
  exact (proj2 (proj2 (proj2
           (gate_admits_at_most_limit nat 2
              [Schedule 1%nat; Schedule 2%nat; Schedule 3%nat])))
           0%nat Rejected 1%nat eq_refl).
Defined.

End C5.

(** ** C7: the command batch *)

Module BatchFacts.
Import JsString JsNumber JsValue Adapter FetchGate Runtime CommandBatch.

Lemma schedule_all_frame work paths : forall r,
  store (schedule_all work paths r) = store r
  /\ commands (schedule_all work paths r) = commands r
  /\ CommandTimeout (schedule_all work paths r) = CommandTimeout r
  /\ requests (schedule_all work paths r) = requests r
  /\ host (schedule_all work paths r) = host r
  /\ isgIntervall_timer (schedule_all work paths r) = isgIntervall_timer r
  /\ isgCommandIntervall_timer (schedule_all work paths r)
     = isgCommandIntervall_timer r
  /\ commandPaths (schedule_all work paths r) = commandPaths r
  /\ valuePaths (schedule_all work paths r) = valuePaths r
  /\ statusPaths (schedule_all work paths r) = statusPaths r.
Proof.
  unfold schedule_all.
  induction paths as [|p paths IH]; intros r; simpl; [tauto|].
  destruct (IH (with_gate (schedule (work p)) r))
    as (-> & -> & -> & -> & -> & -> & -> & -> & -> & ->).
  simpl. tauto.
Qed.

(** C7.  When the timer of the batch fires and the request to save.php
    is made, then whatever comes back (status 200, another status, a
    transport failure, an abort) the pending batch is empty afterwards.
    Exactly one request was made, carrying the batch as it was when the
    timer was armed; no timer is armed again, and after a failure
    nothing is scheduled either: the flush is not retried. *)
Theorem flush_clears_batch :
  forall (cfg : config) (r : runtime) (data : list (string * value))
         (resp : response),
    CommandTimeout r = Some data ->
    let r' := flush cfg (Posted resp) r in
    commands r' = []
    /\ CommandTimeout r' = None
    /\ requests r'
       = (requests r
          ++ [Request (host_text r ++ "/save.php") "POST" (isgUser cfg)
                      (isgPassword cfg) (Some data)])%list
    /\ (succeeded resp = false -> gate r' = gate r).
Proof.
  intros cfg r data resp Ht. unfold flush. rewrite Ht.
  destruct resp as [status cl| |]; simpl.
  - destruct (status =? 200) eqn:E; simpl.
    + match goal with
      | |- context [schedule_all ?w ?p ?x] =>
          destruct (schedule_all_frame w p x)
            as (_ & _ & Hc & Hr & _)
      end.
      rewrite Hc, Hr. simpl. repeat split; try reflexivity. discriminate.
    + repeat split; reflexivity.
  - repeat split; reflexivity.
  - repeat split; reflexivity.
Qed.

Import Examples.

(** Two writes within the debounce window, then the device answers 500. *)
Lemma flush_clears_batch_witness :
  let r := setIsgCommands "val5" (VNum (of_Z 22))
             (setIsgCommands "val5" (VNum (of_Z 21)) idle) in
  CommandTimeout r
  = Some [("val5", VNum (of_Z 21)); ("val5", VNum (of_Z 22))]
  /\ commands (flush cfg (Posted (Response 500 None)) r) = []
  /\ CommandTimeout (flush cfg (Posted (Response 500 None)) r) = None.
Proof.
  split; [reflexivity|].
  pose proof (flush_clears_batch cfg
                (setIsgCommands "val5" (VNum (of_Z 22))
                   (setIsgCommands "val5" (VNum (of_Z 21)) idle))
                [("val5", VNum (of_Z 21)); ("val5", VNum (of_Z 22))]
                (Response 500 None) eq_refl) as H.
  split; [exact (proj1 H) | exact (proj1 (proj2 H))].
Defined.

End BatchFacts.

(** ** C8: start-up with an invalid address *)

Module StartupFacts.
Import JsString JsNumber JsValue Adapter FetchGate Runtime PageFetcher
       Startup AdapterFacts BatchFacts.

Lemma exec_bind {A B} (m : M A) (k : A -> M B) w :
  exec (bind m k) w = exec (k (fst (m w))) (exec m w).
Proof. unfold exec. now rewrite bind_run. Qed.





Lemma connected_perform {A} (m : M A) r :
  connected (perform m r)
  = st_val <$> states (exec m (store r)) !! "info.connection".
Proof. reflexivity. Qed.


(** After a write of the flag the flag has the value written. *)
Lemma connected_after_connection {A} (m : M A) flag r :
  connected (perform (m >> connection flag) r) = Some (VBool flag).
Proof.
  rewrite connected_perform, exec_bind.
  unfold connection, setState, exec. simpl.
  now rewrite lookup_insert_eq.
Qed.

Section Main.
Variable cfg : config.
Variable translateName : string -> string.




End Main.

Import Examples.


(** With a well-formed address and a device that answers, the same
    start-up sets the flag, hands the five pages to the gate, three of
    which start at once, and arms both intervals. *)
Example valid_address_starts_polling :
  let r := ready cfg no_translation (SysFound (Some "de"))
                 (Response 200 (Some "main")) idle in
  connected r = Some (VBool true)
  /\ started (gate r)
     = [GetIsgStatus "1,1"; GetIsgValues "1,0"; GetIsgCommands "1,13"]
  /\ queue (gate r) = [GetIsgCommands "1,14"]
  /\ isgIntervall_timer r = Some (of_Z 60000)
  /\ host r = Some "http://192.168.1.2".
Proof. vm_compute. repeat split; reflexivity. Qed.

End StartupFacts.

(** ** The labels and identifiers built from the texts of a page *)

Module LabelFacts.
Import JsString JsValue Adapter StateWrite Reconciler Labels Readings.

Lemma free_of_app class a b :
  free_of class (a ++ b) = free_of class a && free_of class b.
Proof.
  induction a as [|x a IH]; simpl; [reflexivity|].
  now rewrite IH, andb_assoc.
Qed.

Lemma free_of_or c1 c2 s :
  free_of (fun x => c1 x || c2 x) s = free_of c1 s && free_of c2 s.
Proof.
  induction s as [|x s IH]; simpl; [reflexivity|].
  rewrite IH. destruct (c1 x), (c2 x), (free_of c1 s); reflexivity.
Qed.

Lemma free_of_ext c1 c2 s :
  (forall x, c1 x = c2 x) -> free_of c1 s = free_of c2 s.
Proof.
  intros H. induction s as [|x s IH]; simpl; [reflexivity|].
  now rewrite IH, H.
Qed.

Lemma replace_class_runs_step class by_ x r :
  replace_class_runs class by_ (String x r)
  = if class x then
      match r with
      | String y _ =>
          if class y then replace_class_runs class by_ r
          else by_ ++ replace_class_runs class by_ r
      | EmptyString => by_
      end
    else String x (replace_class_runs class by_ r).
Proof. reflexivity. Qed.

(** The class is gone once its runs are replaced by a text outside the
    class. *)
Lemma replace_class_runs_clean class by_ s :
  free_of class by_ = true ->
  free_of class (replace_class_runs class by_ s) = true.
Proof.
  intros Hby. induction s as [|x r IH]; [reflexivity|].
  rewrite replace_class_runs_step.
  destruct (class x) eqn:Hx.
  - destruct r as [|y r']; [exact Hby|].
    destruct (class y); [exact IH|].
    now rewrite free_of_app, Hby, IH.
  - cbn [free_of]. now rewrite Hx, IH.
Qed.

(** Replacing the runs of one class brings in no code unit of another
    class that the replacement text does not have. *)
Lemma replace_class_runs_keeps class other by_ s :
  free_of other by_ = true -> free_of other s = true ->
  free_of other (replace_class_runs class by_ s) = true.
Proof.
  intros Hby. induction s as [|x r IH]; [reflexivity|].
  intros Hs. cbn [free_of] in Hs. apply andb_true_iff in Hs as [Hx Hr].
  rewrite replace_class_runs_step.
  destruct (class x).
  - destruct r as [|y r']; [exact Hby|].
    destruct (class y); [exact (IH Hr)|].
    now rewrite free_of_app, Hby, (IH Hr).
  - cbn [free_of]. now rewrite Hx, (IH Hr).
Qed.

Lemma skip_class_keeps class other s :
  free_of other s = true -> free_of other (skip_class class s) = true.
Proof.
  induction s as [|x r IH]; [reflexivity|].
  intros Hs. cbn [skip_class]. destruct (class x); [|exact Hs].
  cbn [free_of] in Hs. apply andb_true_iff in Hs as [_ Hr]. exact (IH Hr).
Qed.

Lemma replace_first_run_keeps class other by_ s :
  free_of other by_ = true -> free_of other s = true ->
  free_of other (replace_first_run class by_ s) = true.
Proof.
  intros Hby. induction s as [|x r IH]; [reflexivity|].
  intros Hs. cbn [free_of] in Hs. apply andb_true_iff in Hs as [Hx Hr].
  cbn [replace_first_run]. destruct (class x).
  - now rewrite free_of_app, Hby, skip_class_keeps.
  - cbn [free_of]. now rewrite Hx, (IH Hr).
Qed.

(** [replace_runs] is the replacement of the runs of a one-unit class. *)
Lemma replace_runs_class c by_ s :
  replace_runs c by_ s
  = replace_class_runs (fun x => Ascii.eqb x c) by_ s.
Proof.
  induction s as [|x r IH]; [reflexivity|].
  rewrite replace_class_runs_step. cbn [replace_runs].
  destruct (Ascii.eqb x c).
  - destruct r as [|y r']; [reflexivity|].
    destruct (Ascii.eqb y c); now rewrite IH.
  - now rewrite IH.
Qed.

Lemma separator_split s :
  free_of separator s = free_of space_or_hyphen s && free_of is_period s.
Proof.
  rewrite <- free_of_or. apply free_of_ext. intros x. reflexivity.
Qed.

(** *** Path segments *)

Lemma split_on_nonempty sep s : split_on sep s <> [].
Proof.
  destruct s as [|c r]; [discriminate|]. cbn [split_on].
  destruct (Ascii.eqb c sep); [discriminate|].
  destruct (split_on sep r); discriminate.
Qed.

Lemma split_on_app sep a b :
  split_on sep (a ++ String sep b) = (split_on sep a ++ split_on sep b)%list.
Proof.
  induction a as [|c a IH].
  - simpl. now rewrite Ascii.eqb_refl.
  - simpl. rewrite IH.
    destruct (Ascii.eqb c sep); [reflexivity|].
    pose proof (split_on_nonempty sep a) as Hne.
    destruct (split_on sep a) as [|h t]; [contradiction|]. reflexivity.
Qed.

Lemma split_on_whole sep s :
  free_of (fun x => Ascii.eqb x sep) s = true -> split_on sep s = [s].
Proof.
  induction s as [|c r IH]; [reflexivity|].
  cbn [free_of split_on]. intros H. apply andb_true_iff in H as [Hc Hr].
  apply negb_true_iff in Hc. rewrite Hc, (IH Hr). reflexivity.
Qed.

(** The last segment of an identifier that ends in a text without a
    period is that text. *)
Lemma last_segment_app g k :
  free_of is_period k = true -> last_segment (g ++ "." ++ k) = k.
Proof.
  intros Hk. unfold last_segment.
  change (g ++ "." ++ k) with (g ++ String "." k).
  rewrite split_on_app, (split_on_whole "." k Hk).
  apply List.last_last.
Qed.

End LabelFacts.

(** ** The identifiers of readings and commands *)

Module Identifiers.
Import JsString JsValue Adapter StateWrite Reconciler Labels Readings
       LabelFacts.

Lemma umlaut_split s :
  free_of is_umlaut s
  = free_of (fun x => Ascii.eqb x A_umlaut) s
    && free_of (fun x => Ascii.eqb x O_umlaut) s
    && free_of (fun x => Ascii.eqb x U_umlaut) s.
Proof.
  rewrite <- !free_of_or. apply free_of_ext. intros x. reflexivity.
Qed.

Lemma Umlauts_clean s : free_of is_umlaut (Umlauts s) = true.
Proof.
  rewrite umlaut_split. unfold Umlauts. rewrite !replace_runs_class.
  rewrite !andb_true_iff. split; [split|].
  - apply replace_class_runs_keeps; [reflexivity|].
    apply replace_class_runs_keeps; [reflexivity|].
    now apply replace_class_runs_clean.
  - apply replace_class_runs_keeps; [reflexivity|].
    now apply replace_class_runs_clean.
  - now apply replace_class_runs_clean.
Qed.

Lemma Umlauts_keeps other s :
  free_of other "AEOEUE" = true -> free_of other s = true ->
  free_of other (Umlauts s) = true.
Proof.
  intros Hby Hs. unfold Umlauts. rewrite !replace_runs_class.
  cbn [free_of] in Hby.
  repeat (apply andb_true_iff in Hby; destruct Hby as [? Hby]).
  repeat apply replace_class_runs_keeps; trivial;
    cbn [free_of]; repeat (apply andb_true_iff; split); trivial.
Qed.

Lemma tag_of_keeps cfg other tag :
  free_of other "AEOEUE_" = true -> free_of other tag = true ->
  free_of other (tag_of cfg tag) = true.
Proof.
  intros Hby Ht. unfold tag_of. rewrite replace_runs_class.
  cbn [free_of] in Hby.
  repeat (apply andb_true_iff in Hby; destruct Hby as [? Hby]).
  apply replace_class_runs_keeps.
  - cbn [free_of]. apply andb_true_iff; split; trivial.
  - destruct (String.eqb (isgUmlauts cfg) "no"); [|exact Ht].
    apply Umlauts_keeps; [|exact Ht].
    cbn [free_of]. repeat (apply andb_true_iff; split); trivial.
Qed.

Lemma key_label_clean text : free_of separator (key_label text) = true.
Proof.
  rewrite separator_split. unfold key_label.
  apply andb_true_iff. split.
  - apply replace_first_run_keeps; [reflexivity|].
    apply replace_class_runs_keeps; [reflexivity|].
    now apply replace_class_runs_clean.
  - apply replace_first_run_keeps; [reflexivity|].
    now apply replace_class_runs_clean.
Qed.

(** X1.  The label of a group or of a key has no blank, hyphen or period,
    whatever the text of the page: it is one segment of an identifier.
    The label of a submenu has none of hyphen, slash, blank, period and
    sharp s. *)
Theorem labels_are_segments :
  forall text : string,
    free_of separator (key_label text) = true
    /\ free_of (fun c => hyphen_or_slash c || space_or_period c
                         || is_sharp_s c) (submenu_label text) = true.
Proof.
  intros text. split.
  - apply key_label_clean.
  - rewrite !free_of_or. unfold submenu_label.
    rewrite !andb_true_iff. split; [split|].
    + apply replace_class_runs_keeps; [reflexivity|].
      apply replace_class_runs_keeps; [reflexivity|].
      now apply replace_class_runs_clean.
    + apply replace_class_runs_keeps; [reflexivity|].
      now apply replace_class_runs_clean.
    + now apply replace_class_runs_clean.
Qed.

(** X2.  With the setting isgUmlauts at no, the identifier under which
    [createISGCommands] and [updateState] store an object has no capital
    umlaut, in the group or in the tag; and whatever the setting, the tag
    has no asterisk. *)
Theorem identifiers_without_umlauts :
  forall (cfg : config) (c : command) (group tag : string),
    isgUmlauts cfg = "no" ->
    free_of is_umlaut (id_of cfg c tag) = true
    /\ free_of is_umlaut (reading_id cfg group tag) = true
    /\ free_of is_star (tag_of cfg tag) = true.
Proof.
  intros cfg c group tag Hno.
  assert (Htag : free_of is_umlaut (tag_of cfg tag) = true).
  { unfold tag_of. rewrite Hno, replace_runs_class.
    change (String.eqb "no" "no") with true. cbv iota.
    apply replace_class_runs_keeps; [reflexivity|]. apply Umlauts_clean. }
  split; [|split].
  - unfold id_of, group_of. rewrite Hno.
    change (String.eqb "no" "no") with true. cbv iota.
    rewrite !free_of_app, Umlauts_clean, Htag. reflexivity.
  - unfold reading_id, reading_group. rewrite Hno.
    change (String.eqb "no" "no") with true. cbv iota.
    rewrite !free_of_app, Umlauts_clean, Htag. reflexivity.
  - unfold tag_of. rewrite replace_runs_class.
    now apply replace_class_runs_clean.
Qed.

Lemma identifiers_without_umlauts_witness :
  let cfg := Config (Some "192.168.1.2") "" "" "no" (JsNumber.of_Z 60)
                    (JsNumber.of_Z 60) "" "" "" false ""
                    VUndefined in
  let c := Command (String O_umlaut "L") (Some "x") "" "number" "" "state"
                   VUndefined VUndefined VUndefined VUndefined in
  isgUmlauts cfg = "no"
  /\ (free_of is_umlaut (id_of cfg c (String A_umlaut "*B")) = true
      /\ free_of is_umlaut
           (reading_id cfg (String U_umlaut "") (String A_umlaut "*B"))
         = true
      /\ free_of is_star (tag_of cfg (String A_umlaut "*B")) = true).
Proof.
  intros cfg c. split; [reflexivity|].
  apply (identifiers_without_umlauts cfg c); reflexivity.
Defined.

End Identifiers.

(** ** What [safeSetState] writes *)

Module WrittenValue.
Import JsString JsNumber JsValue Adapter StateWrite AdapterFacts WriteFacts.

Lemma issued_direct id val ack expire w :
  is_valNN (last_segment id) = false ->
  issued (safeSetState id val ack expire) w
  = [CSetState id (State val ack expire)].
Proof.
  intros E. apply issued_adds. unfold exec.
  now rewrite (safeSetState_direct id val ack expire w E).
Qed.

Lemma effects_clamped id val ack expire w :
  is_valNN (last_segment id) = true ->
  effects (issued (safeSetState id val ack expire) w)
  = [CSetState id
       (State (final_value (if db_down w then GetErr
                            else GetOk (objects w !! id)) val) ack expire)].
Proof.
  intros E.
  destruct (safeSetState_clamped id val ack expire w E) as [tr [Et R]].
  erewrite issued_adds; [|unfold exec; rewrite R; reflexivity].
  cbn [effects List.filter quiet negb]. fold (effects (tr ++ [CSetState id
    (State (final_value (if db_down w then GetErr
                         else GetOk (objects w !! id)) val) ack expire)])).
  rewrite effects_app, Et. reflexivity.
Qed.

(** X3.  Whatever the identifier, the value, the store and its errors,
    [safeSetState] makes exactly one writing call, a [setState] on the
    given identifier with the given acknowledgement and expiry, and
    changes no object.  The value written is the given value or the
    number of the declared minimum of the object: the declared maximum
    is never written. *)
Theorem written_value_is_given_or_minimum :
  forall (id : string) (val : value) (ack : bool) (expire : option value)
         (w : world),
  exists v : value,
    effects (issued (safeSetState id val ack expire) w)
    = [CSetState id (State v ack expire)]
    /\ objects (exec (safeSetState id val ack expire) w) = objects w
    /\ states (exec (safeSetState id val ack expire) w)
       = <[id := State v ack expire]> (states w)
    /\ (v = val
        \/ exists (t : string) (common native : jsobj),
             objects w !! id = Some (Object t (Some common) native)
             /\ v = VNum (ToNumber (get common "min"))).
Proof.
  intros id val ack expire w.
  destruct (is_valNN (last_segment id)) eqn:E.
  - exists (final_value (if db_down w then GetErr
                         else GetOk (objects w !! id)) val).
    split; [now apply effects_clamped|].
    destruct (safeSetState_clamped id val ack expire w E) as [tr [_ R]].
    unfold exec. rewrite R. cbn [snd objects states].
    split; [reflexivity|]. split; [reflexivity|].
    destruct (db_down w); [now left|].
    destruct (objects w !! id) as [[t [common|] native]|]; try (now left).
    cbn [final_value]. unfold clamped.
    destruct (below (get common "min") val);
      destruct (above (get common "max") _);
      try (now left); right; exists t, common, native; now split.
  - exists val. split; [now rewrite issued_direct|].
    unfold exec. rewrite (safeSetState_direct id val ack expire w E).
    cbn [snd objects states]. repeat split; try reflexivity. now left.
Qed.

(** X4.  A state whose last segment is val and digits and whose object
    declares a numeric maximum but no minimum: a numeric value above
    the maximum is written as NaN, the number of the missing minimum. *)
Theorem above_maximum_without_minimum_writes_NaN :
  forall (id : string) (val : value) (ack : bool) (expire : option value)
         (w : world) (t : string) (common native : jsobj) (hi : number),
    is_valNN (last_segment id) = true -> db_down w = false ->
    objects w !! id = Some (Object t (Some common) native) ->
    get common "min" = VUndefined -> get common "max" = VNum hi ->
    isNaN hi = false -> isNaN (ToNumber val) = false ->
    gt (ToNumber val) hi = true ->
    effects (issued (safeSetState id val ack expire) w)
    = [CSetState id (State (VNum NaN) ack expire)]
    /\ states (exec (safeSetState id val ack expire) w) !! id
       = Some (State (VNum NaN) ack expire).
Proof.
  intros id val ack expire w t common native hi E Hdb Hobj Hmin Hmax Hhi
         Hval Hgt.
  assert (F : final_value (if db_down w then GetErr
                           else GetOk (objects w !! id)) val = VNum NaN).
  { rewrite Hdb, Hobj. cbn [final_value]. unfold clamped, below, above.
    rewrite Hmin, Hmax. cbn [typeof ToNumber].
    change (String.eqb "undefined" "undefined") with true.
    change (String.eqb "number" "undefined") with false.
    cbn [negb andb]. rewrite Hhi, Hval, Hgt. reflexivity. }
  split.
  - rewrite (effects_clamped id val ack expire w E), F. reflexivity.
  - destruct (safeSetState_clamped id val ack expire w E) as [tr [_ R]].
    unfold exec. rewrite R, F. cbn [snd states].
    apply lookup_insert_eq.
Qed.

Lemma above_maximum_without_minimum_writes_NaN_witness :
  let id := "settings.HEIZEN.val7" in
  let val := VNum (of_Z 40) in
  let w := Samples.upper_only_world in
  (is_valNN (last_segment id) = true /\ db_down w = false
   /\ objects w !! id = Some Samples.upper_only
   /\ gt (ToNumber val) (of_Z 30) = true)
  /\ effects (issued (safeSetState id val true None) w)
     = [CSetState id (State (VNum NaN) true None)]
  /\ states (exec (safeSetState id val true None) w) !! id
     = Some (State (VNum NaN) true None).
Proof.
  intros id val w.
  split; [repeat split; reflexivity|].
  eapply (above_maximum_without_minimum_writes_NaN id val true None w "state"
            _ [] (of_Z 30)); reflexivity.
Defined.

(** X5.  A state whose last segment is val and digits, when the object
    cannot be used for clamping (the store reports an error, the object
    is missing, or it has no common part): the value is written as
    given. *)
Theorem unreadable_object_writes_unchanged :
  forall (id : string) (val : value) (ack : bool) (expire : option value)
         (w : world),
    is_valNN (last_segment id) = true ->
    db_down w = true \/ objects w !! id = None
    \/ (exists (t : string) (native : jsobj),
          objects w !! id = Some (Object t None native)) ->
    effects (issued (safeSetState id val ack expire) w)
    = [CSetState id (State val ack expire)]
    /\ states (exec (safeSetState id val ack expire) w) !! id
       = Some (State val ack expire).
Proof.
  intros id val ack expire w E H.
  assert (F : final_value (if db_down w then GetErr
                           else GetOk (objects w !! id)) val = val).
  { destruct (db_down w); [reflexivity|].
    destruct H as [H | [-> | [t [native ->]]]];
      [discriminate | reflexivity | reflexivity]. }
  split.
  - rewrite (effects_clamped id val ack expire w E), F. reflexivity.
  - destruct (safeSetState_clamped id val ack expire w E) as [tr [_ R]].
    unfold exec. rewrite R, F. cbn [snd states].
    apply lookup_insert_eq.
Qed.

Lemma unreadable_object_writes_unchanged_witness :
  let id := "settings.HEIZEN.val7" in
  let val := VNum (of_Z 40) in
  let w := Samples.bare_world in
  (is_valNN (last_segment id) = true
   /\ objects w !! id = Some (Object "state" None []))
  /\ effects (issued (safeSetState id val true None) w)
     = [CSetState id (State val true None)]
  /\ states (exec (safeSetState id val true None) w) !! id
     = Some (State val true None).
Proof.
  intros id val w.
  split; [split; reflexivity|].
  apply (unreadable_object_writes_unchanged id val true None w);
    [reflexivity|].
  right. right. exists "state", []. reflexivity.
Defined.

End WrittenValue.

(** ** What [updateState] does to the stores *)

Module ReadingFacts.
Import JsString JsNumber JsValue Adapter StateWrite Reconciler Float
       Readings AdapterFacts WriteFacts.

Section WithConfig.
Variable cfg : config.
Variable translateName : string -> string.

Lemma updateState_run r valTag w :
  tag r = Some valTag ->
  updateState cfg translateName r w
  = safeSetState (reading_id cfg (group r) valTag) (reading_value r) true
      (Some (VNum (ValueExpire cfg translateName (group r))))
      (snd (setObjectNotExists (reading_id cfg (group r) valTag)
              (reading_object r) w)).
Proof.
  intros Htag. unfold updateState. rewrite Htag. now rewrite bind_run.
Qed.

Lemma setObjectNotExists_calls id o w :
  calls (snd (setObjectNotExists id o w))
  = (calls w ++ [CSetObjectNotExists id o])%list.
Proof.
  unfold setObjectNotExists. cbn [snd].
  destruct (objects w !! id); [reflexivity|].
  destruct (db_down w); reflexivity.
Qed.

Lemma setObjectNotExists_states id o w :
  states (snd (setObjectNotExists id o w)) = states w.
Proof.
  unfold setObjectNotExists. cbn [snd].
  destruct (objects w !! id); [reflexivity|].
  destruct (db_down w); reflexivity.
Qed.

Lemma setObjectNotExists_db id o w :
  db_down (snd (setObjectNotExists id o w)) = db_down w.
Proof.
  unfold setObjectNotExists. cbn [snd].
  destruct (objects w !! id); [reflexivity|].
  destruct (db_down w) eqn:E; cbn [db_down record]; congruence.
Qed.

(** The calls of [updateState]: the creation request, then what
    [safeSetState] issues. *)
Lemma updateState_issued r valTag w :
  tag r = Some valTag ->
  let id := reading_id cfg (group r) valTag in
  let w1 := snd (setObjectNotExists id (reading_object r) w) in
  let expire := Some (VNum (ValueExpire cfg translateName (group r))) in
  issued (updateState cfg translateName r) w
  = (CSetObjectNotExists id (reading_object r)
     :: issued (safeSetState id (reading_value r) true expire) w1)%list.
Proof.
  intros Htag id w1 expire. unfold issued, exec.
  rewrite (updateState_run r valTag w Htag). fold id w1 expire.
  destruct (safeSetState_effects id (reading_value r) true expire w1)
    as [tr [v [_ R]]].
  rewrite R. cbn [calls]. rewrite (drop_app_length (calls w1) tr).
  subst w1. rewrite setObjectNotExists_calls.
  rewrite <- app_assoc, drop_app_length.
  reflexivity.
Qed.

(** X6.  [updateState] on a reading whose object exists leaves the
    object store as it is (name, unit and role of the object are not
    brought up to date); its writing calls are the creation request and
    one [setState], acknowledged and with the expiry of the group. *)
Theorem reading_keeps_existing_object :
  forall (r : reading) (valTag : string) (o : object) (w : world),
    tag r = Some valTag ->
    objects w !! reading_id cfg (group r) valTag = Some o ->
    let id := reading_id cfg (group r) valTag in
    let expire := Some (VNum (ValueExpire cfg translateName (group r))) in
    objects (exec (updateState cfg translateName r) w) = objects w
    /\ exists v : value,
         effects (issued (updateState cfg translateName r) w)
         = [CSetObjectNotExists id (reading_object r);
            CSetState id (State v true expire)]
         /\ states (exec (updateState cfg translateName r) w) !! id
            = Some (State v true expire).
Proof.
  intros r valTag o w Htag Hobj id expire.
  pose proof (updateState_issued r valTag w Htag) as Hi.
  cbv zeta in Hi. fold id expire in Hi.
  unfold exec. rewrite (updateState_run r valTag w Htag). fold id expire.
  set (w1 := snd (setObjectNotExists id (reading_object r) w)) in *.
  assert (Hw1 : objects w1 = objects w).
  { subst w1. unfold setObjectNotExists. cbn [snd]. fold id.
    unfold id at 1. now rewrite Hobj. }
  destruct (safeSetState_effects id (reading_value r) true expire w1)
    as [tr [v [Et R]]].
  rewrite R. cbn [objects states]. split; [exact Hw1|].
  exists v. split.
  - rewrite Hi. unfold issued, exec. rewrite R. cbn [calls].
    rewrite drop_app_length.
    change (CSetObjectNotExists id (reading_object r) :: tr)
      with ([CSetObjectNotExists id (reading_object r)] ++ tr)%list.
    now rewrite effects_app, Et.
  - apply lookup_insert_eq.
Qed.

(** X7.  [updateState] on a reading that has no object yet creates it
    with [write] false, and writes the value as it was read, acknowledged
    and with the expiry of the group, also when the tag is val and
    digits. *)
Theorem new_reading_is_read_only :
  forall (r : reading) (valTag : string) (w : world),
    tag r = Some valTag ->
    objects w !! reading_id cfg (group r) valTag = None ->
    db_down w = false ->
    let id := reading_id cfg (group r) valTag in
    let expire := Some (VNum (ValueExpire cfg translateName (group r))) in
    objects (exec (updateState cfg translateName r) w)
    = <[id := reading_object r]> (objects w)
    /\ get (common_of (reading_object r)) "write" = VBool false
    /\ effects (issued (updateState cfg translateName r) w)
       = [CSetObjectNotExists id (reading_object r);
          CSetState id (State (reading_value r) true expire)]
    /\ states (exec (updateState cfg translateName r) w) !! id
       = Some (State (reading_value r) true expire).
Proof.
  intros r valTag w Htag Hobj Hdb id expire.
  pose proof (updateState_issued r valTag w Htag) as Hi.
  cbv zeta in Hi. fold id expire in Hi.
  unfold exec. rewrite (updateState_run r valTag w Htag). fold id expire.
  set (w1 := snd (setObjectNotExists id (reading_object r) w)) in *.
  assert (Hw1 : objects w1 = <[id := reading_object r]> (objects w)).
  { subst w1. unfold setObjectNotExists. cbn [snd]. fold id.
    unfold id at 1. rewrite Hobj, Hdb. reflexivity. }
  assert (Hdb1 : db_down w1 = false).
  { subst w1. now rewrite setObjectNotExists_db. }
  assert (R : exists tr,
             effects tr = [CSetState id (State (reading_value r) true expire)]
             /\ safeSetState id (reading_value r) true expire w1
                = (tt, World (objects w1)
                             (<[id := State (reading_value r) true expire]>
                                (states w1))
                             (calls w1 ++ tr)%list (db_down w1))).
  { destruct (is_valNN (last_segment id)) eqn:E.
    - destruct (safeSetState_clamped id (reading_value r) true expire w1 E)
        as [tr [Et R]].
      cbv zeta in R. rewrite Hdb1, Hw1, lookup_insert_eq in R.
      change (final_value (GetOk (Some (reading_object r))) (reading_value r))
        with (reading_value r) in R.
      eexists. split; [|rewrite <- Hw1, <- Hdb1 in R; exact R].
      cbn [effects List.filter quiet negb].
      fold (effects (tr ++ [CSetState id
                              (State (reading_value r) true expire)])).
      now rewrite effects_app, Et.
    - rewrite (safeSetState_direct id _ true expire w1 E).
      eexists. split; [|reflexivity]. reflexivity. }
  destruct R as [tr [Et R]]. rewrite R. cbn [snd objects states].
  split; [exact Hw1|]. split; [reflexivity|]. split.
  - rewrite Hi. unfold issued, exec. rewrite R. cbn [snd calls].
    rewrite drop_app_length.
    change (CSetObjectNotExists id (reading_object r) :: tr)
      with ([CSetObjectNotExists id (reading_object r)] ++ tr)%list.
    now rewrite effects_app, Et.
  - apply lookup_insert_eq.
Qed.

End WithConfig.

Lemma reading_keeps_existing_object_witness :
  let r := Samples.outside_reading in
  let w := Samples.outside_world in
  let id := "info.ANLAGE.HEIZUNG.AUSSENTEMPERATUR" in
  (tag r = Some "AUSSENTEMPERATUR"
   /\ objects w !! id = Some Samples.outside_object)
  /\ objects (exec (updateState Examples.cfg Examples.no_translation r) w)
     = objects w
  /\ exists v : value,
       effects (issued (updateState Examples.cfg Examples.no_translation r) w)
       = [CSetObjectNotExists id (reading_object r);
          CSetState id (State v true (Some (VNum (of_Z 120))))]
       /\ states (exec (updateState Examples.cfg Examples.no_translation r) w)
          !! id
          = Some (State v true (Some (VNum (of_Z 120)))).
Proof.
  intros r w id. split; [split; reflexivity|].
  exact (reading_keeps_existing_object Examples.cfg Examples.no_translation
           r "AUSSENTEMPERATUR" Samples.outside_object w eq_refl eq_refl).
Defined.

Lemma new_reading_is_read_only_witness :
  let r := Samples.outside_reading in
  let w := Examples.empty_world in
  let id := "info.ANLAGE.HEIZUNG.AUSSENTEMPERATUR" in
  (tag r = Some "AUSSENTEMPERATUR" /\ objects w !! id = None
   /\ db_down w = false)
  /\ objects (exec (updateState Examples.cfg Examples.no_translation r) w)
     = <[id := reading_object r]> (objects w)
  /\ get (common_of (reading_object r)) "write" = VBool false
  /\ effects (issued (updateState Examples.cfg Examples.no_translation r) w)
     = [CSetObjectNotExists id (reading_object r);
        CSetState id (State (reading_value r) true
                            (Some (VNum (of_Z 120))))]
  /\ states (exec (updateState Examples.cfg Examples.no_translation r) w)
     !! id
     = Some (State (reading_value r) true (Some (VNum (of_Z 120)))).
Proof.
  intros r w id. split; [repeat split; reflexivity|].
  exact (new_reading_is_read_only Examples.cfg Examples.no_translation
           r "AUSSENTEMPERATUR" w eq_refl eq_refl eq_refl).
Defined.

End ReadingFacts.

(** ** Fetching and reading the pages *)

Module PageFacts.
Import JsString JsNumber JsValue Adapter Runtime PageFetcher CommandBatch
       Values Labels Float Readings Extractors Pages LabelFacts Identifiers.

Lemma connected_after_write flag r :
  connected (perform (connection flag) r) = Some (VBool flag).
Proof.
  unfold connected, perform, with_store, connection, setState, exec.
  cbn [store snd states]. now rewrite lookup_insert_eq.
Qed.

Lemma connected_after_writes {A} (m : M A) flag r :
  connected (perform (m >> connection flag) r) = Some (VBool flag).
Proof.
  unfold connected, perform, with_store, exec. cbn [store].
  rewrite AdapterFacts.bind_run.
  unfold connection, setState. cbn [snd states].
  now rewrite lookup_insert_eq.
Qed.

Lemma connected_after_two {A B} (m : M A) (k : M B) flag r :
  connected (perform (m >> k >> connection flag) r) = Some (VBool flag).
Proof.
  unfold connected, perform, with_store, exec. cbn [store].
  rewrite !AdapterFacts.bind_run.
  unfold connection, setState. cbn [snd states].
  now rewrite lookup_insert_eq.
Qed.

(** [getHTML] returns a page exactly after status 200. *)
Lemma getHTML_page cfg sidePath resp r :
  fst (getHTML cfg sidePath resp r) = None <-> succeeded resp = false.
Proof.
  unfold getHTML.
  destruct resp as [status main_class| |]; cbn [succeeded].
  - destruct (status =? 200); cbn [fst]; split; congruence.
  - split; reflexivity.
  - split; reflexivity.
Qed.

(** X8.  [getHTML] makes one request, a POST of the credentials to the
    page of the host, and writes the connectivity flag: true when the
    answer has status 200, false for any other status, a transport
    failure or an abort.  It returns a page exactly in the first case,
    and touches neither the objects, the gate nor the batch. *)
Theorem getHTML_flag_follows_status :
  forall (cfg : config) (sidePath : string) (resp : response) (r : runtime),
    connected (snd (getHTML cfg sidePath resp r))
    = Some (VBool (succeeded resp))
    /\ (fst (getHTML cfg sidePath resp r) = None <-> succeeded resp = false)
    /\ requests (snd (getHTML cfg sidePath resp r))
       = (requests r
          ++ [Request (host_text r ++ "/?s=" ++ sidePath) "POST"
                      (isgUser cfg) (isgPassword cfg) None])%list
    /\ objects (store (snd (getHTML cfg sidePath resp r)))
       = objects (store r)
    /\ gate (snd (getHTML cfg sidePath resp r)) = gate r
    /\ commands (snd (getHTML cfg sidePath resp r)) = commands r
    /\ CommandTimeout (snd (getHTML cfg sidePath resp r)) = CommandTimeout r.
Proof.
  intros cfg sidePath resp r. unfold getHTML.
  destruct resp as [status main_class| |]; cbn [succeeded].
  - destruct (status =? 200); cbn [fst snd].
    + split; [apply connected_after_write|].
      split; [split; discriminate|]. repeat split.
    + split; [apply connected_after_two|].
      split; [split; reflexivity|]. repeat split.
  - cbn [fst snd]. split; [apply connected_after_writes|].
    split; [split; reflexivity|]. repeat split.
  - cbn [fst snd]. split; [apply connected_after_writes|].
    split; [split; reflexivity|]. repeat split.
Qed.

(** *** The rows *)

Lemma In_readings_of f translateName pg rd :
  In rd (readings_of translateName f pg) ->
  exists p row, In p (panels pg) /\ In row (rows p)
                /\ f (info_group translateName pg p) row = Some rd.
Proof.
  unfold readings_of. intros H. apply in_flat_map in H as [p [Hp H]].
  apply list_elem_of_In, list_elem_of_omap in H as [row [Hrow H]].
  apply list_elem_of_In in Hrow. eauto.
Qed.

Lemma free_of_substring class n m s :
  free_of class s = true -> free_of class (substring n m s) = true.
Proof.
  revert n m. induction s as [|x s IH]; intros n m H.
  - now destruct n, m.
  - cbn [free_of] in H. apply andb_true_iff in H as [Hx Hs].
    destruct n as [|n]; cbn [substring].
    + destruct m as [|m]; [reflexivity|].
      cbn [free_of]. now rewrite Hx, IH.
    + now apply IH.
Qed.

Lemma remove_first_keeps class pattern s :
  free_of class s = true -> free_of class (remove_first pattern s) = true.
Proof.
  intros H. unfold remove_first.
  destruct (String.index 0 pattern s); [|exact H].
  now rewrite free_of_app, !free_of_substring.
Qed.

Lemma drop_point_zero_keeps class s :
  free_of class s = true -> free_of class (drop_point_zero s) = true.
Proof.
  induction s as [|x t IH]; [reflexivity|].
  intros H. cbn [drop_point_zero].
  destruct t as [|y r]; [exact H|].
  pose proof H as H'. cbn [free_of] in H'.
  apply andb_true_iff in H' as [Hx Ht].
  destruct ((Ascii.eqb x "." || Ascii.eqb x "0") && Ascii.eqb y "0").
  - cbn [free_of] in Ht. now apply andb_true_iff in Ht as [_ Hr].
  - change (free_of class (String x (drop_point_zero (String y r))) = true).
    cbn [free_of]. rewrite Hx. apply IH. exact Ht.
Qed.

Lemma skip_keeps class c s :
  free_of class s = true -> free_of class (skip c s) = true.
Proof.
  induction s as [|x r IH]; [reflexivity|].
  intros H. cbn [skip]. destruct (Ascii.eqb x c); [|exact H].
  cbn [free_of] in H. apply andb_true_iff in H as [_ Hr]. exact (IH Hr).
Qed.

Lemma skip_head c s : startsWith (skip c s) (String c "") = false.
Proof.
  induction s as [|x r IH]; [reflexivity|].
  cbn [skip]. destruct (Ascii.eqb x c) eqn:E; [exact IH|].
  unfold startsWith. cbn [String.prefix].
  destruct (ascii_dec c x) as [->|]; [|reflexivity].
  now rewrite Ascii.eqb_refl in E.
Qed.

(** The unit of a value has no blank and does not begin with a zero. *)
Lemma unit_of_clean param n :
  free_of (fun c => Ascii.eqb c " ") (unit_of param n) = true
  /\ startsWith (unit_of param n) "0" = false.
Proof.
  unfold unit_of, drop_leading_zeros. split; [|apply skip_head].
  apply skip_keeps, drop_point_zero_keeps, remove_first_keeps.
  unfold remove_blanks. now apply replace_class_runs_clean.
Qed.

Section WithConfig.
Variable cfg : config.
Variable translateName : string -> string.

(** X9.  Every reading that [getIsgStatus] hands to [updateState] comes
    from a page answered with status 200 and from a row whose value cell
    contains symbol_an; its value is [true], its type boolean, its role
    indicator.state, and its tag is the cleaned key of the row.  A
    status that is off is never written as [false]. *)
Theorem status_readings_are_true :
  forall (sidePath : string) (resp : response) (pg : page) (r : runtime)
         (rd : reading),
    In rd (fst (getIsgStatus cfg translateName sidePath resp pg r)) ->
    succeeded resp = true
    /\ reading_value rd = VBool true
    /\ type_ rd = "boolean" /\ role rd = "indicator.state" /\ unit_ rd = ""
    /\ exists (p : panel) (row_ : row) (html : string),
         In p (panels pg) /\ In row_ (rows p)
         /\ value_html row_ = Some html
         /\ search html "symbol_an" > -1
         /\ group rd = info_group translateName pg p
         /\ tag rd = Some (key_label (key_text row_))
         /\ tagLang rd = translateName (key_text row_).
Proof.
  intros sidePath resp pg r rd. unfold getIsgStatus.
  pose proof (getHTML_page cfg sidePath resp r) as Hres.
  destruct (getHTML cfg sidePath resp r) as [[cl|] r1]; cbn [fst] in *;
    [|intros []].
  intros Hin. split.
  { destruct (succeeded resp); [reflexivity|].
    discriminate (proj2 Hres eq_refl). }
  apply In_readings_of in Hin as (p & row_ & Hp & Hrow & Hrd).
  unfold status_row in Hrd.
  destruct (value_html row_) as [html|] eqn:Hhtml; [|discriminate].
  destruct (search html "symbol_an" >? -1) eqn:Hs; [|discriminate].
  injection Hrd as <-. cbn [reading_value type_ role unit_ group tag tagLang].
  repeat split. exists p, row_, html. repeat split; trivial.
  now apply Z.gtb_lt, Z.lt_gt in Hs.
Qed.

(** X10.  Every reading that [getIsgValues] hands to [updateState] comes
    from a page answered with status 200; its value is a number other
    than NaN, its type number, its tag the cleaned key of the row, which
    is not empty and has no blank, hyphen or period, its role the role
    of that key, and its unit has no blank and no leading zero. *)
Theorem value_readings_are_numbers :
  forall (sidePath : string) (resp : response) (pg : page) (r : runtime)
         (rd : reading),
    In rd (fst (getIsgValues cfg translateName sidePath resp pg r)) ->
    succeeded resp = true
    /\ exists (n : number) (key : string),
         reading_value rd = VNum n /\ isNaN n = false
         /\ type_ rd = "number"
         /\ tag rd = Some key /\ key <> ""
         /\ free_of separator key = true
         /\ role rd = valueRole key
         /\ free_of (fun c => Ascii.eqb c " ") (unit_ rd) = true
         /\ startsWith (unit_ rd) "0" = false.
Proof.
  intros sidePath resp pg r rd. unfold getIsgValues.
  pose proof (getHTML_page cfg sidePath resp r) as Hres.
  destruct (getHTML cfg sidePath resp r) as [[cl|] r1]; cbn [fst] in *;
    [|intros []].
  intros Hin. split.
  { destruct (succeeded resp); [reflexivity|].
    discriminate (proj2 Hres eq_refl). }
  apply In_readings_of in Hin as (p & row_ & Hp & Hrow & Hrd).
  unfold value_row in Hrd.
  destruct (negb (String.eqb (key_label (key_text row_)) "")) eqn:Hk;
    [|discriminate].
  destruct (isNaN (parseFloat (replace_first_char "," "." (value_text row_))))
    eqn:Hn; [discriminate|].
  injection Hrd as <-. cbn [reading_value type_ role unit_ group tag tagLang].
  do 2 eexists. split; [reflexivity|]. split; [exact Hn|].
  split; [reflexivity|]. split; [reflexivity|].
  split; [now apply String.eqb_neq, negb_true_iff|].
  split; [apply key_label_clean|].
  split; [reflexivity|]. apply unit_of_clean.
Qed.

End WithConfig.

Lemma append_assoc (a b c : string) : a ++ (b ++ c) = (a ++ b) ++ c.
Proof.
  induction a as [|x a IH]; [reflexivity|].
  change (String x (a ++ (b ++ c)) = String x ((a ++ b) ++ c)).
  now rewrite IH.
Qed.

Lemma prefix_app p x : String.prefix p (p ++ x) = true.
Proof.
  induction p as [|a p IH].
  - now destruct x.
  - change (String.prefix (String a p) (String a (p ++ x)) = true).
    cbn [String.prefix].
    destruct (ascii_dec a a); [exact IH | contradiction].
Qed.

(** X27.  The readings that [getIsgCommands] hands to [updateState],
    those grouped under the settings of a page and those of the
    statistics of the start page, expire after twice the command
    interval, whatever the translation of the group names; a group that
    starts with neither prefix expires after twice the poll interval. *)
Theorem command_pages_expire_with_command_interval :
  forall (cfg : config) (translateName : string -> string)
         (subnav : string) (submenu : option string) (rest group_ : string),
    ValueExpire cfg translateName
      (settings_group translateName subnav submenu)
    = double (isgCommandIntervall cfg)
    /\ ValueExpire cfg translateName
         (translateName "info" ++ ".ANLAGE.STATISTIK" ++ rest)
       = double (isgCommandIntervall cfg)
    /\ ValueExpire cfg translateName group_
       = (if startsWith group_ (translateName "settings")
             || startsWith group_
                  (translateName "info" ++ ".ANLAGE.STATISTIK")
          then double (isgCommandIntervall cfg)
          else double (isgIntervall cfg))
    /\ double (of_Z 60) = of_Z 120.
Proof.
  intros cfg translateName subnav submenu rest group_.
  split; [|split; [|split; reflexivity]].
  - unfold ValueExpire, settings_group, startsWith.
    now rewrite prefix_app.
  - unfold ValueExpire, startsWith.
    change (translateName "info" ++ ".ANLAGE.STATISTIK" ++ rest)
      with (translateName "info" ++ (".ANLAGE.STATISTIK" ++ rest)).
    rewrite append_assoc, prefix_app. now rewrite orb_true_r.
Qed.

Lemma status_readings_are_true_witness :
  let rd := Reading "info.DIAGNOSE.STATUS" (Some "HEIZKREISPUMPE")
                    "HEIZKREISPUMPE" "boolean" "" "indicator.state"
                    (VBool true) in
  let readings :=
    fst (getIsgStatus Examples.cfg Examples.no_translation "2,0"
           (Response 200 None) Samples.status_page Examples.idle) in
  readings = [rd]
  /\ succeeded (Response 200 None) = true
  /\ reading_value rd = VBool true
  /\ type_ rd = "boolean" /\ role rd = "indicator.state" /\ unit_ rd = ""
  /\ exists (p : panel) (row_ : row) (html : string),
       In p (panels Samples.status_page) /\ In row_ (rows p)
       /\ value_html row_ = Some html
       /\ search html "symbol_an" > -1
       /\ group rd = info_group Examples.no_translation Samples.status_page p
       /\ tag rd = Some (key_label (key_text row_))
       /\ tagLang rd = Examples.no_translation (key_text row_).
Proof.
  intros rd readings.
  assert (E : readings = [rd]) by (vm_compute; reflexivity).
  split; [exact E|].
  apply (status_readings_are_true Examples.cfg Examples.no_translation "2,0"
           (Response 200 None) Samples.status_page Examples.idle rd).
  fold readings. rewrite E. left. reflexivity.
Defined.

Lemma value_readings_are_numbers_witness :
  let rd := Reading "info.ANLAGE.RAUMTEMPERATUR" (Some "ISTTEMPERATUR_FEK")
                    "ISTTEMPERATUR FEK" "number" Samples.degrees
                    "value.temperature" (VNum (Finite 215 (-1))) in
  let readings :=
    fst (getIsgValues Examples.cfg Examples.no_translation "1,0"
           (Response 200 None) Samples.values_page Examples.idle) in
  readings = [rd]
  /\ succeeded (Response 200 None) = true
  /\ exists (n : number) (key : string),
       reading_value rd = VNum n /\ isNaN n = false
       /\ type_ rd = "number"
       /\ tag rd = Some key /\ key <> ""
       /\ free_of separator key = true
       /\ role rd = valueRole key
       /\ free_of (fun c => Ascii.eqb c " ") (unit_ rd) = true
       /\ startsWith (unit_ rd) "0" = false.
Proof.
  intros rd readings.
  assert (E : readings = [rd]) by (vm_compute; reflexivity).
  split; [exact E|].
  apply (value_readings_are_numbers Examples.cfg Examples.no_translation
           "1,0" (Response 200 None) Samples.values_page Examples.idle rd).
  fold readings. rewrite E. left. reflexivity.
Defined.

End PageFacts.

(** ** Reading numbers: [parseFloat] and the decimal comma *)

Module FloatFacts.
Import JsString JsNumber JsValue Values Labels Float Readings Extractors.

Lemma digit_code d : is_digit d = true -> (48 <= code d <= 57)%N.
Proof.
  unfold is_digit. cbv zeta. intros H.
  apply andb_true_iff in H as [H1 H2].
  now apply N.leb_le in H1, H2.
Qed.

Lemma digit_not d c :
  is_digit d = true -> is_digit c = false -> Ascii.eqb d c = false.
Proof.
  intros Hd Hc. destruct (Ascii.eqb d c) eqn:E; [|reflexivity].
  apply Ascii.eqb_eq in E. congruence.
Qed.

Lemma digit_not_white d : is_digit d = true -> is_white d = false.
Proof.
  intros H. apply digit_code in H. unfold is_white. cbv zeta.
  destruct (9 <=? code d)%N eqn:E1, (code d <=? 13)%N eqn:E2,
           (code d =? 32)%N eqn:E3, (code d =? 160)%N eqn:E4;
    try reflexivity;
    try apply N.leb_le in E1; try apply N.leb_le in E2;
    try apply N.eqb_eq in E3; try apply N.eqb_eq in E4; lia.
Qed.

Lemma span_digits_app ds rest :
  all_digits ds = true ->
  match rest with String c _ => is_digit c = false | EmptyString => True end ->
  span_digits (ds ++ rest) = (ds, rest).
Proof.
  intros Hds Hrest. induction ds as [|d ds IH].
  - destruct rest as [|c r]; [reflexivity|].
    simpl. now rewrite Hrest.
  - cbn [all_digits] in Hds. apply andb_true_iff in Hds as [Hd Hds].
    simpl. now rewrite Hd, (IH Hds).
Qed.

Lemma replace_first_char_digits c by_ ds r :
  is_digit c = false -> all_digits ds = true ->
  replace_first_char c by_ (ds ++ String c r) = ds ++ by_ ++ r.
Proof.
  intros Hc Hds. induction ds as [|d ds IH].
  - simpl. now rewrite Ascii.eqb_refl.
  - cbn [all_digits] in Hds. apply andb_true_iff in Hds as [Hd Hds].
    simpl. now rewrite (digit_not d c Hd Hc), (IH Hds).
Qed.

(** [parseFloat] on a text that begins with digits, a point and digits:
    the number these write, whatever follows, as long as it does not go
    on with a digit or an exponent. *)
Lemma parseFloat_decimal d ip fp rest :
  is_digit d = true -> all_digits ip = true -> all_digits fp = true ->
  fp <> "" -> ends_number rest = true ->
  parseFloat (String d ip ++ "." ++ fp ++ rest)
  = round (digits_value (String d ip ++ fp))
          (- Z.of_nat (String.length fp)).
Proof.
  intros Hd Hip Hfp Hne Hrest. unfold parseFloat.
  change (String d ip ++ "." ++ fp ++ rest)
    with (String d (ip ++ String "." (fp ++ rest))).
  cbn [trimStart]. rewrite (digit_not_white d Hd).
  unfold signed.
  rewrite (digit_not d "-" Hd eq_refl), (digit_not d "+" Hd eq_refl).
  assert (Hi : String.prefix "Infinity" (String d (ip ++ String "." (fp ++ rest)))
               = false).
  { cbn [String.prefix]. destruct (ascii_dec "I" d) as [<-|]; [|reflexivity].
    discriminate Hd. }
  rewrite Hi.
  change (String d (ip ++ String "." (fp ++ rest)))
    with (String d ip ++ String "." (fp ++ rest)).
  rewrite span_digits_app;
    [|cbn [all_digits]; now rewrite Hd, Hip | reflexivity].
  cbn [fraction]. rewrite Ascii.eqb_refl.
  assert (Hr : match rest with
               | String c _ => is_digit c = false
               | EmptyString => True
               end).
  { destruct rest as [|c r]; [exact I|]. cbn [ends_number] in Hrest.
    apply andb_true_iff in Hrest as [Hrest _].
    apply andb_true_iff in Hrest as [Hrest _].
    now apply negb_true_iff. }
  rewrite (span_digits_app fp rest Hfp Hr).
  assert (He : exponent_prefix rest = 0).
  { destruct rest as [|c r]; [reflexivity|]. cbn [ends_number] in Hrest.
    apply andb_true_iff in Hrest as [Hrest H2].
    apply andb_true_iff in Hrest as [_ H1].
    apply negb_true_iff in H1, H2. cbn [exponent_prefix].
    now rewrite H1, H2. }
  rewrite He.
  destruct fp as [|f fp']; [contradiction|]. reflexivity.
Qed.

Lemma round_not_NaN m e : isNaN (round m e) = false.
Proof. unfold round. now destruct (overflows m e). Qed.

Section WithTranslation.
Variable translateName : string -> string.

(** X11.  A row of the values page whose cleaned key is not empty and
    whose value is written with a decimal comma, digits on both sides,
    and then goes on with something that is neither a digit nor an
    exponent (a blank and a unit, say): the reading carries the decimal
    number the digits write, under the cleaned key of the row. *)
Theorem decimal_comma_is_read :
  forall (group_ key : string) (d : ascii) (ip fp rest : string)
         (html : option string),
    key_label key <> "" ->
    is_digit d = true -> all_digits ip = true ->
    all_digits fp = true -> fp <> "" -> ends_number rest = true ->
    exists rd : reading,
      value_row translateName group_
        (Row key (String d ip ++ "," ++ fp ++ rest) html) = Some rd
      /\ reading_value rd
         = VNum (round (digits_value (String d ip ++ fp))
                       (- Z.of_nat (String.length fp)))
      /\ tag rd = Some (key_label key)
      /\ group rd = group_
      /\ type_ rd = "number".
Proof.
  intros group_ key d ip fp rest html Hkey Hd Hip Hfp Hne Hrest.
  unfold value_row. cbn [key_text value_text].
  assert (Hds : all_digits (String d ip) = true).
  { cbn [all_digits]. now rewrite Hd, Hip. }
  change (String d ip ++ "," ++ fp ++ rest)
    with (String d ip ++ String "," (fp ++ rest)).
  rewrite (replace_first_char_digits "," "." (String d ip) (fp ++ rest)
             eq_refl Hds).
  rewrite (parseFloat_decimal d ip fp rest Hd Hip Hfp Hne Hrest).
  rewrite round_not_NaN.
  apply String.eqb_neq in Hkey. rewrite Hkey. cbn [negb andb].
  eexists. split; [reflexivity|]. repeat split.
Qed.

End WithTranslation.

Lemma decimal_comma_is_read_witness :
  (key_label "ISTTEMPERATUR FEK" <> ""
   /\ is_digit "2" = true /\ all_digits "1" = true /\ all_digits "5" = true
   /\ "5" <> "" /\ ends_number (" " ++ Samples.degrees) = true)
  /\ exists rd : reading,
       value_row Examples.no_translation "info.ANLAGE.RAUMTEMPERATUR"
         (Row "ISTTEMPERATUR FEK" ("21" ++ "," ++ "5" ++ " " ++ Samples.degrees)
              None) = Some rd
       /\ reading_value rd
          = VNum (round (digits_value ("21" ++ "5")) (- Z.of_nat (String.length "5")))
       /\ tag rd = Some (key_label "ISTTEMPERATUR FEK")
       /\ group rd = "info.ANLAGE.RAUMTEMPERATUR"
       /\ type_ rd = "number".
Proof.
  split; [repeat split; discriminate|].
  apply (decimal_comma_is_read Examples.no_translation
           "info.ANLAGE.RAUMTEMPERATUR" "ISTTEMPERATUR FEK" "2" "1" "5"
           (" " ++ Samples.degrees) None);
    try reflexivity; discriminate.
Defined.

End FloatFacts.

(** ** The slider of a command page *)

Module SliderFacts.
Import JsString JsNumber JsValue Adapter Reconciler Labels Float Extractors
       ObjectFacts AdapterFacts BoundFacts LabelFacts.

Lemma after_prefix_spec p : forall s rest,
  after_prefix p s = Some rest <-> s = p ++ rest.
Proof.
  induction p as [|a p IH]; intros s rest.
  - cbn [after_prefix].
    split; [intros [= ->]; reflexivity | intros ->; reflexivity].
  - destruct s as [|b s]; simpl.
    + split; discriminate.
    + destruct (Ascii.eqb a b) eqn:E.
      * apply Ascii.eqb_eq in E. subst b. rewrite IH.
        split; [now intros -> | now intros [= ->]].
      * split; [discriminate|]. intros [= -> _].
        now rewrite Ascii.eqb_refl in E.
Qed.

Lemma until_quote_sound : forall s body,
  until_quote s = Some body ->
  free_of ends_capture body = true /\ exists post, s = body ++ "'" ++ post.
Proof.
  induction s as [|c r IH]; intros body; [discriminate|].
  cbn [until_quote].
  destruct (Ascii.eqb c "'") eqn:Eq.
  - intros [= <-]. apply Ascii.eqb_eq in Eq. subst c.
    split; [reflexivity|]. now exists r.
  - destruct ((code c =? 10)%N || (code c =? 13)%N) eqn:El; [discriminate|].
    destruct (until_quote r) as [b|] eqn:Er; [|discriminate].
    intros [= <-]. destruct (IH b eq_refl) as [Hb [post ->]].
    split; [|now exists post].
    cbn [free_of]. rewrite Hb. unfold ends_capture.
    rewrite <- orb_assoc, Eq, El. reflexivity.
Qed.

Lemma until_quote_complete body post :
  free_of ends_capture body = true ->
  until_quote (body ++ "'" ++ post) = Some body.
Proof.
  induction body as [|c b IH]; [reflexivity|].
  cbn [free_of]. intros H. apply andb_true_iff in H as [Hc Hb].
  apply negb_true_iff in Hc. unfold ends_capture in Hc.
  rewrite <- orb_assoc in Hc. apply orb_false_iff in Hc as [Hq Hl].
  simpl. cbn [until_quote] in IH. simpl in IH.
  now rewrite Hq, Hl, (IH Hb).
Qed.

Lemma capture_step opening s :
  capture opening s
  = match (match after_prefix opening s with
           | Some rest => until_quote rest
           | None => None
           end) with
    | Some body => Some body
    | None =>
        match s with
        | EmptyString => None
        | String _ r => capture opening r
        end
    end.
Proof. now destruct s. Qed.

Lemma capture_sound opening : forall s body,
  capture opening s = Some body ->
  free_of ends_capture body = true
  /\ exists pre post, s = pre ++ opening ++ body ++ "'" ++ post.
Proof.
  assert (Hhead : forall s body,
            match after_prefix opening s with
            | Some rest => until_quote rest
            | None => None
            end = Some body ->
            free_of ends_capture body = true
            /\ exists pre post, s = pre ++ opening ++ body ++ "'" ++ post).
  { intros s body H.
    destruct (after_prefix opening s) as [rest|] eqn:Ep; [|discriminate].
    apply after_prefix_spec in Ep.
    apply until_quote_sound in H as [Hb [post ->]].
    split; [exact Hb|]. exists "", post. exact Ep. }
  induction s as [|c r IH]; intros body; rewrite capture_step.
  - destruct (match after_prefix opening "" with
              | Some rest => until_quote rest
              | None => None
              end) as [b|] eqn:E; [|discriminate].
    intros [= <-]. now apply Hhead.
  - destruct (match after_prefix opening (String c r) with
              | Some rest => until_quote rest
              | None => None
              end) as [b|] eqn:E.
    + intros [= <-]. now apply Hhead.
    + intros H. destruct (IH body H) as [Hb [pre [post ->]]].
      split; [exact Hb|]. now exists (String c pre), post.
Qed.

Lemma capture_head opening body post :
  free_of ends_capture body = true ->
  capture opening (opening ++ body ++ "'" ++ post) = Some body.
Proof.
  intros Hb. rewrite capture_step.
  rewrite (proj2 (after_prefix_spec opening _ (body ++ "'" ++ post)) eq_refl).
  now rewrite (until_quote_complete body post Hb).
Qed.

(** X12.  What the slider branch reads from the script by one of its
    patterns is text of the script that stands between the opening of
    the pattern and an apostrophe; it contains no apostrophe and no line
    end.  A script that starts with the opening, such a text and an
    apostrophe yields that text. *)
Theorem captured_text_is_quoted :
  forall (opening s body : string),
    capture opening s = Some body ->
    free_of ends_capture body = true
    /\ (exists pre post : string, s = pre ++ opening ++ body ++ "'" ++ post)
    /\ forall post : string,
         capture opening (opening ++ body ++ "'" ++ post) = Some body.
Proof.
  intros opening s body H.
  destruct (capture_sound opening s body H) as [Hb Hs].
  split; [exact Hb|]. split; [exact Hs|].
  intros post. now apply capture_head.
Qed.

Lemma captured_text_is_quoted_witness :
  capture "['id']='" Samples.slider_script = Some "val5"
  /\ free_of ends_capture "val5" = true
  /\ (exists pre post : string,
        Samples.slider_script = pre ++ "['id']='" ++ "val5" ++ "'" ++ post)
  /\ forall post : string,
       capture "['id']='" ("['id']='" ++ "val5" ++ "'" ++ post) = Some "val5".
Proof.
  assert (E : capture "['id']='" Samples.slider_script = Some "val5")
    by (vm_compute; reflexivity).
  split; [exact E|].
  exact (captured_text_is_quoted "['id']='" Samples.slider_script "val5" E).
Defined.

Section WithRuntime.
Variable JSON_parse : string -> option value.
Variable cfg : config.
Variable translateName : string -> string.

Lemma slider_desired subnav submenu name unit script c tag w :
  slider_command translateName subnav submenu name unit script = Some c ->
  fst (desired JSON_parse cfg c tag w) = bounded c.
Proof.
  unfold slider_command.
  destruct (capture "['id']='" script) as [id|]; [|discriminate].
  intros [= <-].
  match goal with
  | |- fst (desired _ _ ?c _ _) = _ =>
      destruct (desired_shape JSON_parse cfg c tag w) as [w' ->]
  end.
  reflexivity.
Qed.

(** X13.  The command that the slider branch hands to
    [createISGCommands] is tagged with the identifier of the script and
    grouped under the settings of the page, and its desired common is
    writable and has no states; when the
    script has no entry for the minimum (the maximum), or one that does
    not begin with a number, the desired common has no [min] ([max]):
    no bound is made up. *)
Theorem slider_bound_needs_a_number :
  forall (subnav : string) (submenu : option string)
         (name unit script : string) (c : command) (tag : string)
         (w : world),
    slider_command translateName subnav submenu name unit script = Some c ->
    let d := fst (desired JSON_parse cfg c tag w) in
    valTag c = capture "['id']='" script
    /\ strGroup c = settings_group translateName subnav submenu
    /\ get d "write" = VBool true
    /\ hasOwn d "states" = false
    /\ (isNaN (script_number (capture "['min'] = '" script)) = true ->
        hasOwn d "min" = false)
    /\ (isNaN (script_number (capture "['max'] = '" script)) = true ->
        hasOwn d "max" = false)
    /\ script_number None = NaN.
Proof.
  intros subnav submenu name unit script c tag w Hc d. subst d.
  rewrite (slider_desired subnav submenu name unit script c tag w Hc).
  unfold slider_command in Hc.
  destruct (capture "['id']='" script) as [id|]; [|discriminate].
  injection Hc as <-. cbn [valTag strGroup].
  split; [reflexivity|]. split; [reflexivity|].
  split.
  { match goal with
    | |- get (bounded ?c) _ = _ =>
        now rewrite (proj1 (bounded_basic c "write" ltac:(discriminate)
                              ltac:(discriminate)))
    end. }
  split.
  { match goal with
    | |- hasOwn (bounded ?c) _ = _ =>
        now rewrite (proj2 (bounded_basic c "states" ltac:(discriminate)
                              ltac:(discriminate)))
    end. }
  split; [|split; [|reflexivity]].
  - intros Hn.
    match goal with
    | |- hasOwn (bounded ?c) _ = _ => rewrite (proj1 (bounded_min c))
    end.
    cbn [valMin].
    destruct (script_number (capture "['min'] = '" script));
      try discriminate Hn. reflexivity.
  - intros Hn.
    match goal with
    | |- hasOwn (bounded ?c) _ = _ => rewrite (proj1 (bounded_max c))
    end.
    cbn [valMax].
    destruct (script_number (capture "['max'] = '" script));
      try discriminate Hn. reflexivity.
Qed.

End WithRuntime.

Lemma slider_bound_needs_a_number_witness :
  let c := Command "settings.HEIZEN" (Some "val5") "Raumtemperatur" "number"
                   "C" "state" (VNum (Finite 215 (-1))) (VStr "")
                   (VNum NaN) (VNum (of_Z 30)) in
  let d := fst (desired Json.parse_flat_object Examples.cfg c "val5"
                  Examples.empty_world) in
  slider_command Examples.no_translation "HEIZEN" None "Raumtemperatur" "C"
    Samples.slider_script
  = Some c
  /\ valTag c = capture "['id']='" Samples.slider_script
  /\ strGroup c = settings_group Examples.no_translation "HEIZEN" None
  /\ get d "write" = VBool true
  /\ hasOwn d "states" = false
  /\ (isNaN (script_number (capture "['min'] = '" Samples.slider_script))
      = true -> hasOwn d "min" = false)
  /\ (isNaN (script_number (capture "['max'] = '" Samples.slider_script))
      = true -> hasOwn d "max" = false)
  /\ script_number None = NaN.
Proof.
  intros c d.
  assert (E : slider_command Examples.no_translation "HEIZEN" None
                "Raumtemperatur" "C" Samples.slider_script = Some c)
    by (vm_compute; reflexivity).
  split; [exact E|].
  exact (slider_bound_needs_a_number Json.parse_flat_object Examples.cfg
           Examples.no_translation "HEIZEN" None "Raumtemperatur" "C"
           Samples.slider_script c "val5" Examples.empty_world E).
Defined.

End SliderFacts.

(** ** State changes, the batch and the polling rounds *)

Module LifecycleFacts.
Import JsString JsNumber JsValue Adapter StateWrite Reconciler FetchGate
       Runtime PageFetcher CommandBatch Startup Labels Lifecycle
       AdapterFacts BatchFacts StartupFacts LabelFacts Identifiers.

(** *** The batch *)

Lemma enqueue_all_spec : forall (cs : list (string * value)) (r : runtime),
  commands (enqueue_all cs r) = (commands r ++ cs)%list
  /\ CommandTimeout (enqueue_all cs r)
     = match cs with
       | [] => CommandTimeout r
       | _ => Some (commands r ++ cs)%list
       end
  /\ requests (enqueue_all cs r) = requests r
  /\ gate (enqueue_all cs r) = gate r
  /\ store (enqueue_all cs r) = store r
  /\ host (enqueue_all cs r) = host r
  /\ commandPaths (enqueue_all cs r) = commandPaths r.
Proof.
  unfold enqueue_all.
  induction cs as [|c cs IH]; intros r.
  - cbn [fold_left]. rewrite app_nil_r. repeat split.
  - cbn [fold_left].
    destruct (IH (setIsgCommands (fst c) (snd c) r))
      as (Hc & Ht & Hr & Hg & Hs & Hh & Hp).
    rewrite Hc, Ht, Hr, Hg, Hs, Hh, Hp.
    unfold setIsgCommands.
    cbn [commands CommandTimeout requests gate store host commandPaths
         with_batch].
    destruct c as [k v]. cbn [fst snd]. rewrite <- !app_assoc.
    repeat split. now destruct cs.
Qed.

(** *** The order of the fetches *)

Lemma drain_order : forall (q : list Task) (g : FetchGate.gate Task),
  (started (drain Task q g) ++ queue (drain Task q g))%list
  = (started g ++ q)%list.
Proof.
  induction q as [|item rest IH]; intros g; cbn [drain].
  - reflexivity.
  - destruct (lt (of_Z (running g)) (limit g)); [|reflexivity].
    rewrite IH. cbn [started]. now rewrite <- app_assoc.
Qed.

Lemma schedule_order fn (g : FetchGate.gate Task) :
  admission_order (schedule fn g) = (admission_order g ++ [fn])%list.
Proof.
  unfold admission_order, schedule, runQueue. cbn [queue].
  rewrite drain_order. cbn [started]. now rewrite app_assoc.
Qed.

Lemma schedule_all_order work paths : forall r,
  admission_order (gate (schedule_all work paths r))
  = (admission_order (gate r) ++ map work paths)%list.
Proof.
  unfold schedule_all.
  induction paths as [|p paths IH]; intros r; cbn [fold_left map].
  - now rewrite app_nil_r.
  - rewrite IH. cbn [gate with_gate]. rewrite schedule_order.
    now rewrite <- app_assoc.
Qed.

(** The flush of an armed batch, with the order of the gate. *)
Lemma flush_posted cfg r data resp :
  CommandTimeout r = Some data ->
  requests (flush cfg (Posted resp) r)
  = (requests r
     ++ [Request (host_text r ++ "/save.php") "POST" (isgUser cfg)
                 (isgPassword cfg) (Some data)])%list
  /\ commands (flush cfg (Posted resp) r) = []
  /\ CommandTimeout (flush cfg (Posted resp) r) = None
  /\ admission_order (gate (flush cfg (Posted resp) r))
     = (admission_order (gate r)
        ++ if succeeded resp then map GetIsgCommands (commandPaths r)
           else [])%list.
Proof.
  intros Ht. unfold flush. rewrite Ht.
  destruct resp as [status cl| |]; simpl.
  - destruct (status =? 200) eqn:E; simpl.
    + match goal with
      | |- context [schedule_all ?w ?p ?x] =>
          destruct (schedule_all_frame w p x) as (_ & _ & Hc & Hr & _);
          pose proof (schedule_all_order w p x) as Ho
      end.
      rewrite Hc, Hr, Ho. simpl. repeat split.
    + rewrite app_nil_r. repeat split.
  - rewrite app_nil_r. repeat split.
  - rewrite app_nil_r. repeat split.
Qed.

(** X14.  State changes that arrive before the timer of the batch
    fires make no request; they leave one armed timer whose data are
    all pending commands in the order of arrival.  When it fires, one
    POST to save.php carries them all, the batch is empty and no timer
    is armed; after status 200 the command pages are handed to the gate
    again in the order of the configuration, after any other outcome
    nothing is. *)
Theorem batch_collects_until_flush :
  forall (cfg : config) (cs : list (string * value)) (resp : response)
         (r : runtime),
    cs <> [] ->
    let r1 := enqueue_all cs r in
    let r2 := flush cfg (Posted resp) r1 in
    requests r1 = requests r
    /\ CommandTimeout r1 = Some (commands r ++ cs)%list
    /\ requests r2
       = (requests r
          ++ [Request (host_text r ++ "/save.php") "POST" (isgUser cfg)
                      (isgPassword cfg) (Some (commands r ++ cs)%list)])%list
    /\ commands r2 = [] /\ CommandTimeout r2 = None
    /\ admission_order (gate r2)
       = (admission_order (gate r)
          ++ if succeeded resp then map GetIsgCommands (commandPaths r)
             else [])%list.
Proof.
  intros cfg cs resp r Hne r1 r2.
  destruct (enqueue_all_spec cs r) as (Hc & Ht & Hr & Hg & Hs & Hh & Hp).
  fold r1 in Hc, Ht, Hr, Hg, Hs, Hh, Hp.
  assert (Ht' : CommandTimeout r1 = Some (commands r ++ cs)%list).
  { rewrite Ht. destruct cs; [contradiction|reflexivity]. }
  split; [exact Hr|]. split; [exact Ht'|].
  destruct (flush_posted cfg r1 _ resp Ht') as (H1 & H2 & H3 & H4).
  fold r2 in H1, H2, H3, H4.
  unfold host_text in H1. rewrite Hh, Hr in H1. rewrite Hg, Hp in H4.
  repeat split; assumption.
Qed.

Lemma batch_collects_until_flush_witness :
  let cs := [("val5", VNum (of_Z 21)); ("val82", VNum (of_Z 11));
             ("val5", VNum (of_Z 22))] in
  let r1 := enqueue_all cs Examples.idle in
  let r2 := flush Examples.cfg (Posted (Response 200 None)) r1 in
  cs <> []
  /\ requests r1 = requests Examples.idle
  /\ CommandTimeout r1 = Some (commands Examples.idle ++ cs)%list
  /\ requests r2
     = (requests Examples.idle
        ++ [Request (host_text Examples.idle ++ "/save.php") "POST"
                    (isgUser Examples.cfg) (isgPassword Examples.cfg)
                    (Some (commands Examples.idle ++ cs)%list)])%list
  /\ commands r2 = [] /\ CommandTimeout r2 = None
  /\ admission_order (gate r2)
     = (admission_order (gate Examples.idle)
        ++ if succeeded (Response 200 None)
           then map GetIsgCommands (commandPaths Examples.idle)
           else [])%list.
Proof.
  intros cs r1 r2. split; [discriminate|].
  apply (batch_collects_until_flush Examples.cfg cs (Response 200 None)
           Examples.idle).
  discriminate.
Defined.

Lemma start_polling_order cfg r :
  admission_order (gate (start_polling cfg r))
  = (admission_order (gate r)
     ++ map GetIsgStatus (statusPaths r)
     ++ map GetIsgValues (valuePaths r)
     ++ map GetIsgCommands (commandPaths r))%list.
Proof.
  unfold start_polling. cbn [gate with_timers].
  rewrite !schedule_all_order.
  destruct (schedule_all_frame GetIsgStatus (statusPaths r) r)
    as (_ & _ & _ & _ & _ & _ & _ & Hc1 & Hv1 & _).
  destruct (schedule_all_frame GetIsgValues
              (valuePaths (schedule_all GetIsgStatus (statusPaths r) r))
              (schedule_all GetIsgStatus (statusPaths r) r))
    as (_ & _ & _ & _ & _ & _ & _ & Hc2 & _).
  rewrite Hc2, Hc1, Hv1. now rewrite <- !app_assoc.
Qed.

Lemma start_polling_frame cfg r :
  store (start_polling cfg r) = store r
  /\ requests (start_polling cfg r) = requests r
  /\ host (start_polling cfg r) = host r
  /\ isgIntervall_timer (start_polling cfg r)
     = Some (period (isgIntervall cfg))
  /\ isgCommandIntervall_timer (start_polling cfg r)
     = Some (period (isgCommandIntervall cfg)).
Proof.
  unfold start_polling.
  cbn [store requests host isgIntervall_timer isgCommandIntervall_timer
       with_timers].
  repeat match goal with
         | |- context [schedule_all ?w ?p ?x] =>
             destruct (schedule_all_frame w p x)
               as (-> & _ & _ & -> & -> & _)
         end.
  repeat split.
Qed.

(** X15.  The tail of [main] hands the pages to the gate in the order
    status, values, commands, each list in the order of the
    configuration; the round of the poll interval takes the value pages
    before the status pages; the round of the command interval takes
    the command pages.  The gate starts them in that order, after what
    it was given before. *)
Theorem polling_rounds_in_order :
  forall (cfg : config) (r : runtime),
    admission_order (gate (start_polling cfg r))
    = (admission_order (gate r)
       ++ map GetIsgStatus (statusPaths r)
       ++ map GetIsgValues (valuePaths r)
       ++ map GetIsgCommands (commandPaths r))%list
    /\ admission_order (gate (poll_tick r))
       = (admission_order (gate r)
          ++ map GetIsgValues (valuePaths r)
          ++ map GetIsgStatus (statusPaths r))%list
    /\ admission_order (gate (command_tick r))
       = (admission_order (gate r)
          ++ map GetIsgCommands (commandPaths r))%list.
Proof.
  intros cfg r. split; [|split].
  - apply start_polling_order.
  - unfold poll_tick. rewrite !schedule_all_order.
    destruct (schedule_all_frame GetIsgValues (valuePaths r) r)
      as (_ & _ & _ & _ & _ & _ & _ & _ & _ & Hs1).
    rewrite Hs1. now rewrite <- !app_assoc.
  - unfold command_tick. apply schedule_all_order.
Qed.

(** *** State changes *)

(** X16.  An unacknowledged change of a state whose last segment is
    ISGReboot makes one GET request to reboot.php of the host and sets
    [main] to run again, whatever value was written ([false] reboots as
    well as [true]) and whatever the device answers; nothing joins the
    batch. *)
Theorem reboot_on_any_value :
  forall (id : string) (s : state) (resp : response) (r : runtime),
    last_segment id = "ISGReboot" -> st_ack s = false ->
    let r' := fst (stateChange id (Some s) (Posted resp) r) in
    snd (stateChange id (Some s) (Posted resp) r) = true
    /\ requests r'
       = (requests r
          ++ [Request (host_text r ++ "/reboot.php") "GET" "" "" None])%list
    /\ commands r' = commands r /\ CommandTimeout r' = CommandTimeout r
    /\ gate r' = gate r
    /\ effects (calls (store r')) = effects (calls (store r)).
Proof.
  intros id s resp r Hid Hack r'. subst r'.
  unfold stateChange. rewrite Hid, Hack.
  change (String.eqb "ISGReboot" "ISGReboot") with true.
  unfold rebootISG.
  destruct resp as [status cl| |]; cbn [fst snd];
    do 5 (split; [reflexivity|]);
    unfold perform, with_store, exec, log;
    cbn [store snd calls record with_request];
    rewrite !effects_app; cbn [effects List.filter quiet negb];
    now rewrite !app_nil_r.
Qed.

Lemma reboot_on_any_value_witness :
  let s := State (VBool false) false None in
  let r' := fst (stateChange "stiebel-isg.0.ISGReboot" (Some s)
                   (Posted (Response 200 None)) Examples.idle) in
  (last_segment "stiebel-isg.0.ISGReboot" = "ISGReboot" /\ st_ack s = false)
  /\ snd (stateChange "stiebel-isg.0.ISGReboot" (Some s)
            (Posted (Response 200 None)) Examples.idle) = true
  /\ requests r'
     = (requests Examples.idle
        ++ [Request (host_text Examples.idle ++ "/reboot.php") "GET" "" ""
                    None])%list
  /\ commands r' = commands Examples.idle
  /\ CommandTimeout r' = CommandTimeout Examples.idle
  /\ gate r' = gate Examples.idle
  /\ effects (calls (store r')) = effects (calls (store Examples.idle)).
Proof.
  intros s r'. split; [split; reflexivity|].
  apply (reboot_on_any_value "stiebel-isg.0.ISGReboot" s (Response 200 None)
           Examples.idle); reflexivity.
Defined.

(** X17.  An unacknowledged change of the state that [createISGCommands]
    created for a tag without a period, other than the reboot button,
    joins the batch under the tag as it was stored, asterisks replaced
    and, with isgUmlauts at no, umlauts transcribed; the group is not
    part of the name.  No request is made before the timer fires. *)
Theorem state_change_sends_stored_tag :
  forall (cfg : config) (c : command) (tag : string) (v : value)
         (expire : option value) (a : attempt) (r : runtime),
    free_of is_period tag = true ->
    tag_of cfg tag <> "ISGReboot" ->
    let r' := fst (stateChange (id_of cfg c tag)
                     (Some (State v false expire)) a r) in
    last_segment (id_of cfg c tag) = tag_of cfg tag
    /\ snd (stateChange (id_of cfg c tag) (Some (State v false expire)) a r)
       = false
    /\ commands r' = (commands r ++ [(tag_of cfg tag, v)])%list
    /\ CommandTimeout r' = Some (commands r ++ [(tag_of cfg tag, v)])%list
    /\ requests r' = requests r.
Proof.
  intros cfg c tag v expire a r Htag Hne r'. subst r'.
  assert (Hlast : last_segment (id_of cfg c tag) = tag_of cfg tag).
  { unfold id_of. apply last_segment_app.
    now apply tag_of_keeps. }
  split; [exact Hlast|].
  unfold stateChange. rewrite Hlast. cbn [st_ack st_val].
  apply String.eqb_neq in Hne. rewrite Hne. cbn [fst snd].
  repeat split.
Qed.

Lemma state_change_sends_stored_tag_witness :
  let c := Command "settings.HEIZEN" (Some "val*5") "" "number" "" "state"
                   VUndefined VUndefined VUndefined VUndefined in
  let r' := fst (stateChange (id_of Examples.cfg c "val*5")
                   (Some (State (VNum (of_Z 21)) false None))
                   FetchUnavailable Examples.idle) in
  (free_of is_period "val*5" = true
   /\ tag_of Examples.cfg "val*5" = "val_5")
  /\ last_segment (id_of Examples.cfg c "val*5") = tag_of Examples.cfg "val*5"
  /\ snd (stateChange (id_of Examples.cfg c "val*5")
            (Some (State (VNum (of_Z 21)) false None))
            FetchUnavailable Examples.idle) = false
  /\ commands r'
     = (commands Examples.idle
        ++ [(tag_of Examples.cfg "val*5", VNum (of_Z 21))])%list
  /\ CommandTimeout r'
     = Some (commands Examples.idle
             ++ [(tag_of Examples.cfg "val*5", VNum (of_Z 21))])%list
  /\ requests r' = requests Examples.idle.
Proof.
  intros c r'. split; [split; reflexivity|].
  apply (state_change_sends_stored_tag Examples.cfg c "val*5"
           (VNum (of_Z 21)) None FetchUnavailable Examples.idle);
    [reflexivity | discriminate].
Defined.

End LifecycleFacts.

(** ** The numbers and lists of the configuration *)

Module ConfigFacts.
Import JsString JsNumber JsValue Adapter FetchGate Runtime Startup Labels
       Lifecycle LabelFacts.

Lemma gt_zero_mantissa e : gt (Finite 0 e) (of_Z 0) = false.
Proof. unfold gt, lt, of_Z, align. now rewrite !Z.mul_0_l. Qed.

(** X18.  The abort timer of a request follows the configured
    requestTimeout: unset, null or not a number it is 60000 ms and the
    timer is armed; otherwise it is the configured number, and the timer
    is armed exactly when that number is above zero, so that zero, a
    negative number, an empty text or false switch the timeout off. *)
Theorem abort_timer_follows_configuration :
  forall requestTimeout : value,
    timer_armed requestTimeout
    = gt (configuredTimeout requestTimeout) (of_Z 0)
    /\ (if timer_armed requestTimeout
        then timeout requestTimeout = configuredTimeout requestTimeout
        else True)
    /\ configuredTimeout requestTimeout
       = (if Reconciler.is_null requestTimeout
             || String.eqb (typeof requestTimeout) "undefined"
             || isNaN (ToNumber requestTimeout)
          then of_Z 60000 else ToNumber requestTimeout)
    /\ timer_armed VUndefined = true
    /\ timer_armed (VNum (of_Z 0)) = false
    /\ timer_armed (VStr "") = false
    /\ timer_armed (VBool false) = false.
Proof.
  intros v.
  assert (H : forall c, gt (if ToBoolean (VNum c) then c else of_Z 0) (of_Z 0)
                        = gt c (of_Z 0)
                        /\ (if gt (if ToBoolean (VNum c) then c else of_Z 0)
                                  (of_Z 0)
                            then (if ToBoolean (VNum c) then c else of_Z 0) = c
                            else True)).
  { intros [|b|m e]; cbn [ToBoolean].
    - split; reflexivity.
    - split; [reflexivity|]. now destruct (gt _ _).
    - destruct (m =? 0) eqn:E; cbn [negb].
      + apply Z.eqb_eq in E. subst m. rewrite gt_zero_mantissa.
        split; reflexivity.
      + split; [reflexivity|]. now destruct (gt _ _). }
  unfold timer_armed, timeout.
  destruct (H (configuredTimeout v)) as [H1 H2].
  split; [exact H1|]. split; [exact H2|].
  split; [|repeat split].
  unfold configuredTimeout, Reconciler.is_null.
  destruct v; try reflexivity; cbn [typeof ToNumber];
    match goal with
    | |- context [String.eqb ?a "undefined"] =>
        change (String.eqb a "undefined") with false
    end; cbn [orb]; reflexivity.
Qed.

(** X19.  Whatever is configured as a polling interval, the period of
    the timer is a number, not NaN, and not below 1000 ms: zero and NaN
    count as 60 seconds, anything below one second as one second. *)
Theorem polling_period_at_least_a_second :
  forall seconds : number,
    isNaN (period seconds) = false
    /\ lt (period seconds) (of_Z 1000) = false
    /\ period (of_Z 0) = of_Z 60000
    /\ period NaN = of_Z 60000
    /\ period (Finite 5 (-1)) = of_Z 1000
    /\ (ToBoolean (VNum seconds) = true ->
        lt seconds (of_Z 1) = true -> period seconds = of_Z 1000).
Proof.
  intros s.
  assert (H60 : isNaN (period (of_Z 60)) = false
                /\ lt (period (of_Z 60)) (of_Z 1000) = false)
    by (vm_compute; split; reflexivity).
  assert (H1 : isNaN (round (1 * 1000) 0) = false
               /\ lt (round (1 * 1000) 0) (of_Z 1000) = false)
    by (vm_compute; split; reflexivity).
  split; [|split; [|do 3 (split; [vm_compute; reflexivity|])]].
  3: { intros Ht Hl. unfold period. rewrite Ht, Hl.
       vm_compute. reflexivity. }
  - destruct s as [|b|m e]; [exact (proj1 H60)| |].
    + now destruct b.
    + unfold period. cbn [ToBoolean].
      destruct (m =? 0); cbn [negb]; [exact (proj1 H60)|].
      destruct (lt (Finite m e) (of_Z 1)); [exact (proj1 H1)|].
      unfold round. now destruct (overflows _ _).
  - destruct s as [|b|m e]; [exact (proj2 H60)| |].
    + now destruct b.
    + unfold period. cbn [ToBoolean].
      destruct (m =? 0); cbn [negb]; [exact (proj2 H60)|].
      destruct (lt (Finite m e) (of_Z 1)) eqn:Hlt; [exact (proj2 H1)|].
      unfold lt, of_Z, align in Hlt. apply Z.ltb_ge in Hlt.
      assert (Ha : 0 < 10 ^ (e - Z.min e 0)) by (apply Z.pow_pos_nonneg; lia).
      assert (Hb : 0 < 10 ^ (0 - Z.min e 0)) by (apply Z.pow_pos_nonneg; lia).
      unfold round. destruct (overflows (m * 1000) e).
      * cbn [lt]. apply Z.ltb_ge. nia.
      * unfold lt, of_Z, align. apply Z.ltb_ge. nia.
Qed.

(** X20.  Whatever is configured as maxConcurrentFetches, the limit of
    the gate is a number above zero (3 unless the configured value is
    one), so the first task handed to the idle gate starts at once: the
    gate cannot be configured shut. *)
Theorem gate_cannot_be_configured_shut :
  forall (configured : value) (fn : Task),
    isNaN (concurrency_limit configured) = false
    /\ gt (concurrency_limit configured) zero = true
    /\ started (schedule fn (init (concurrency_limit configured))) = [fn]
    /\ queue (schedule fn (init (concurrency_limit configured))) = []
    /\ running (schedule fn (init (concurrency_limit configured))) = 1
    /\ concurrency_limit (VNum (of_Z 0)) = of_Z 3
    /\ concurrency_limit (VStr "abc") = of_Z 3.
Proof.
  intros v fn.
  assert (H : isNaN (concurrency_limit v) = false
              /\ gt (concurrency_limit v) zero = true).
  { unfold concurrency_limit.
    destruct (isNaN (ToNumber v)) eqn:En; cbn [negb andb];
      [split; reflexivity|].
    destruct (gt (ToNumber v) zero) eqn:Eg; [|split; reflexivity].
    now split. }
  destruct H as [Hn Hg]. split; [exact Hn|]. split; [exact Hg|].
  unfold schedule, runQueue, init. cbn [queue app drain running limit].
  change (lt (of_Z 0) (concurrency_limit v))
    with (gt (concurrency_limit v) zero).
  rewrite Hg. cbn [drain started queue running inflight app].
  repeat split.
Qed.

(** *** The lists of pages *)

Lemma split_on_pieces sep : forall s x,
  In x (split_on sep s) -> free_of (fun c => Ascii.eqb c sep) x = true.
Proof.
  induction s as [|c r IH]; intros x.
  - intros [<-|[]]. reflexivity.
  - cbn [split_on]. destruct (Ascii.eqb c sep) eqn:E.
    + intros [<-|H]; [reflexivity | now apply IH].
    + destruct (split_on sep r) as [|h t] eqn:Er.
      * intros [<-|[]]. cbn [free_of]. now rewrite E.
      * intros [<-|H].
        -- cbn [free_of]. rewrite E. apply IH. now left.
        -- apply IH. now right.
Qed.

Lemma paths_clean text p : In p (paths text) -> is_path p.
Proof.
  unfold paths. intros H. apply filter_In in H as [H Hne].
  split.
  - now apply String.eqb_neq, negb_true_iff.
  - now apply (split_on_pieces ";" text).
Qed.

Lemma paths_of_path p : is_path p -> paths p = [p].
Proof.
  intros [Hne Hp]. unfold paths.
  rewrite (split_on_whole ";" p Hp). cbn [List.filter].
  apply String.eqb_neq in Hne. now rewrite Hne.
Qed.

(** X21.  The text of a path list of the configuration is the lists
    paths joined by semicolons: reading the joined text gives the
    paths back, in order, for any paths that are not empty and have no
    semicolon. *)
Theorem paths_round_trip :
  forall ps : list string,
    Forall is_path ps -> paths (join ";" ps) = ps.
Proof.
  induction ps as [|p ps IH]; intros H; [reflexivity|].
  apply Forall_cons_iff in H as [Hp Hps].
  destruct ps as [|q rest].
  - simpl. now apply paths_of_path.
  - unfold join in *.
    change (String.concat ";" (p :: q :: rest))
      with (p ++ String ";" (String.concat ";" (q :: rest))).
    unfold paths. rewrite split_on_app, List.filter_app.
    fold (paths p). fold (paths (String.concat ";" (q :: rest))).
    rewrite (paths_of_path p Hp), (IH Hps). reflexivity.
Qed.

Lemma paths_round_trip_witness :
  Forall is_path ["1,13"; "1,14"; "2,0"]
  /\ paths (join ";" ["1,13"; "1,14"; "2,0"]) = ["1,13"; "1,14"; "2,0"].
Proof.
  assert (H : Forall is_path ["1,13"; "1,14"; "2,0"]).
  { repeat constructor; discriminate. }
  split; [exact H|]. exact (paths_round_trip _ H).
Defined.

Section Ready.
Variable cfg : config.
Variable translateName : string -> string.

Lemma getHTML_paths sidePath resp r :
  commandPaths (snd (PageFetcher.getHTML cfg sidePath resp r))
  = commandPaths r
  /\ valuePaths (snd (PageFetcher.getHTML cfg sidePath resp r))
     = valuePaths r
  /\ statusPaths (snd (PageFetcher.getHTML cfg sidePath resp r))
     = statusPaths r.
Proof.
  unfold PageFetcher.getHTML.
  destruct resp as [status cl| |]; [destruct (status =? 200)| |];
    repeat split.
Qed.

Lemma start_polling_paths r :
  commandPaths (start_polling cfg r) = commandPaths r
  /\ valuePaths (start_polling cfg r) = valuePaths r
  /\ statusPaths (start_polling cfg r) = statusPaths r.
Proof.
  unfold start_polling. cbn [commandPaths valuePaths statusPaths with_timers].
  repeat match goal with
         | |- context [schedule_all ?w ?p ?x] =>
             destruct (BatchFacts.schedule_all_frame w p x)
               as (_ & _ & _ & _ & _ & _ & _ & -> & -> & ->)
         end.
  repeat split.
Qed.

Lemma main_paths probe r :
  commandPaths (main cfg translateName probe r) = commandPaths r
  /\ valuePaths (main cfg translateName probe r) = valuePaths r
  /\ statusPaths (main cfg translateName probe r) = statusPaths r.
Proof.
  unfold main.
  destruct (address_missing cfg); [repeat split|].
  destruct (address_malformed cfg); [repeat split|].
  match goal with
  | |- context [PageFetcher.getHTML cfg ?p probe ?x] =>
      pose proof (getHTML_paths p probe x) as (H1 & H2 & H3);
      destruct (PageFetcher.getHTML cfg p probe x) as [[cl|] r3]
  end; cbn [snd] in H1, H2, H3.
  - destruct (match cl with
              | Some c => String.eqb c "login"
              | None => false
              end).
    + cbn [commandPaths valuePaths statusPaths perform with_store].
      rewrite H1, H2, H3. repeat split.
    + match goal with
      | |- context [start_polling cfg ?x] =>
          destruct (start_polling_paths x) as (-> & -> & ->)
      end.
      cbn [commandPaths valuePaths statusPaths perform with_store].
      rewrite H1, H2, H3. repeat split.
  - match goal with
    | |- context [start_polling cfg ?x] =>
        destruct (start_polling_paths x) as (-> & -> & ->)
    end.
    cbn [commandPaths valuePaths statusPaths perform with_store].
    rewrite H1, H2, H3. repeat split.
Qed.

(** X22.  After [ready], whatever the system configuration and the
    device answer, the lists of pages hold the paths of the
    configuration in their order, the expert paths after the command
    paths when isgExpert is set and not otherwise; no list holds an
    empty path or a path with a semicolon. *)
Theorem ready_reads_the_page_lists :
  forall (sys : system_config) (probe : response) (r : runtime),
    let r' := ready cfg translateName sys probe r in
    commandPaths r'
    = (paths (isgCommandPaths cfg)
       ++ if isgExpert cfg then paths (isgExpertPaths cfg) else [])%list
    /\ valuePaths r' = paths (isgValuePaths cfg)
    /\ statusPaths r' = paths (isgStatusPaths cfg)
    /\ Forall is_path (commandPaths r' ++ valuePaths r' ++ statusPaths r').
Proof.
  intros sys probe r r'.
  assert (Hexp : (if isgExpert cfg
                     && negb (String.eqb (isgExpertPaths cfg) "")
                  then (paths (isgCommandPaths cfg)
                        ++ paths (isgExpertPaths cfg))%list
                  else paths (isgCommandPaths cfg))
                 = (paths (isgCommandPaths cfg)
                    ++ if isgExpert cfg then paths (isgExpertPaths cfg)
                       else [])%list).
  { destruct (isgExpert cfg); cbn [andb]; [|now rewrite app_nil_r].
    destruct (String.eqb (isgExpertPaths cfg) "") eqn:E;
      cbn [negb]; [|reflexivity].
    apply String.eqb_eq in E. rewrite E.
    change (paths "") with (@nil string). now rewrite app_nil_r. }
  assert (H : commandPaths r'
              = (paths (isgCommandPaths cfg)
                 ++ if isgExpert cfg then paths (isgExpertPaths cfg)
                    else [])%list
              /\ valuePaths r' = paths (isgValuePaths cfg)
              /\ statusPaths r' = paths (isgStatusPaths cfg)).
  { subst r'. unfold ready. rewrite Hexp.
    destruct sys as [| |language]; [repeat split | repeat split |].
    match goal with
    | |- context [main cfg translateName probe ?x] =>
        destruct (main_paths probe x) as (-> & -> & ->)
    end.
    repeat split. }
  destruct H as (Hc & Hv & Hs). rewrite Hc, Hv, Hs.
  repeat split.
  rewrite !Forall_app. repeat split;
    try (apply Forall_forall; intros p Hp; apply list_elem_of_In in Hp;
         now apply paths_clean in Hp).
  destruct (isgExpert cfg); [|constructor].
  apply Forall_forall; intros p Hp; apply list_elem_of_In in Hp.
  now apply paths_clean in Hp.
Qed.

End Ready.

End ConfigFacts.

(** ** Start-up with a well-formed address *)

Module StartupRun.
Import JsString JsNumber JsValue Adapter FetchGate Runtime PageFetcher
       CommandBatch Startup Lifecycle AdapterFacts BatchFacts StartupFacts
       PageFacts LifecycleFacts.

Lemma has_scheme_added h : has_scheme ("http://" ++ h) = true.
Proof. now destruct h. Qed.

Lemma connected_store r r' : store r' = store r -> connected r' = connected r.
Proof. unfold connected. now intros ->. Qed.

(** The flag after a failed login check: the error log of [main]
    comes after the write of [getHTML]. *)
Lemma flag_after_error {A} (m : M A) msg r :
  connected (perform (log Lerror msg)
               (perform (m >> connection false) r))
  = Some (VBool false).
Proof.
  rewrite <- (connected_after_connection m false r). reflexivity.
Qed.

Lemma flag_after_status {A B} (m : M A) (k : M B) msg r :
  connected (perform (log Lerror msg)
               (perform (m >> k >> connection false) r))
  = Some (VBool false).
Proof.
  rewrite <- (connected_after_two m k false r). reflexivity.
Qed.

Ltac polls Hh :=
  match goal with
  | |- context [start_polling ?c ?x] =>
      let Hs := fresh "Hs" in
      let Hr := fresh "Hr" in
      let Hho := fresh "Hho" in
      let Ht1 := fresh "Ht1" in
      let Ht2 := fresh "Ht2" in
      let Ho := fresh "Ho" in
      destruct (start_polling_frame c x) as (Hs & Hr & Hho & Ht1 & Ht2);
      pose proof (start_polling_order c x) as Ho;
      rewrite Hho, Hr, Ht1, Ht2, Ho, (connected_store _ _ Hs);
      split; [reflexivity|]; split; [exact Hh|]; split; [reflexivity|]
  end.

Section Main.
Variable cfg : config.
Variable translateName : string -> string.

(** X23.  [main] with an address that is set and well formed: the host
    carries a scheme (http is put before an address without one), and
    exactly one request is made, the login check.  If the device shows
    its login page, the connectivity flag is false and nothing is
    polled.  In every other case, also when the check fails with
    another status, a transport failure or an abort, the pages are
    handed to the gate and both intervals are armed; the flag is true
    only after status 200. *)
Theorem startup_with_valid_address :
  forall (probe : response) (r : runtime),
    address_missing cfg = false -> address_malformed cfg = false ->
    let r' := main cfg translateName probe r in
    exists h : string,
      host r' = Some h /\ has_scheme h = true
      /\ requests r'
         = (requests r
            ++ [Request (h ++ "/?s=1,0") "POST" (isgUser cfg)
                        (isgPassword cfg) None])%list
      /\ connected r'
         = Some (VBool (succeeded probe && negb (login_page probe)))
      /\ if login_page probe
         then gate r' = gate r
              /\ isgIntervall_timer r' = isgIntervall_timer r
              /\ isgCommandIntervall_timer r' = isgCommandIntervall_timer r
         else admission_order (gate r')
              = (admission_order (gate r)
                 ++ map GetIsgStatus (statusPaths r)
                 ++ map GetIsgValues (valuePaths r)
                 ++ map GetIsgCommands (commandPaths r))%list
              /\ isgIntervall_timer r' = Some (period (isgIntervall cfg))
              /\ isgCommandIntervall_timer r'
                 = Some (period (isgCommandIntervall cfg)).
Proof.
  intros probe r Hm Hf r'. subst r'. unfold main. rewrite Hm, Hf.
  set (h := if has_scheme (trim (address_text cfg))
            then trim (address_text cfg)
            else "http://" ++ trim (address_text cfg)).
  assert (Hh : has_scheme h = true).
  { subst h. destruct (has_scheme (trim (address_text cfg))) eqn:E;
      [exact E | apply has_scheme_added]. }
  exists h. unfold getHTML.
  destruct probe as [status cl| |]; cbn [succeeded login_page].
  - destruct (status =? 200) eqn:E200; cbn [andb].
    + destruct cl as [cl|]; [destruct (String.eqb cl "login") eqn:El|];
        cbn [negb andb].
      * split; [reflexivity|]. split; [exact Hh|].
        split; [reflexivity|].
        split; [apply connected_after_connection|].
        repeat split.
      * polls Hh. split; [apply connected_after_connection|].
        repeat split.
      * polls Hh. split; [apply connected_after_connection|].
        repeat split.
    + destruct cl as [cl|]; cbn [negb andb]; polls Hh;
        (split; [apply flag_after_status | repeat split]).
  - polls Hh. split; [apply flag_after_error | repeat split].
  - polls Hh. split; [apply flag_after_error | repeat split].
Qed.

End Main.

(** The device does not answer the login check. *)
Lemma startup_with_valid_address_witness :
  let r' := main Examples.cfg Examples.no_translation TransportError
                 Examples.idle in
  (address_missing Examples.cfg = false
   /\ address_malformed Examples.cfg = false)
  /\ exists h : string,
       host r' = Some h /\ has_scheme h = true
       /\ requests r'
          = (requests Examples.idle
             ++ [Request (h ++ "/?s=1,0") "POST" (isgUser Examples.cfg)
                         (isgPassword Examples.cfg) None])%list
       /\ connected r'
          = Some (VBool (succeeded TransportError
                         && negb (login_page TransportError)))
       /\ if login_page TransportError
          then gate r' = gate Examples.idle
               /\ isgIntervall_timer r' = isgIntervall_timer Examples.idle
               /\ isgCommandIntervall_timer r'
                  = isgCommandIntervall_timer Examples.idle
          else admission_order (gate r')
               = (admission_order (gate Examples.idle)
                  ++ map GetIsgStatus (statusPaths Examples.idle)
                  ++ map GetIsgValues (valuePaths Examples.idle)
                  ++ map GetIsgCommands (commandPaths Examples.idle))%list
               /\ isgIntervall_timer r'
                  = Some (period (isgIntervall Examples.cfg))
               /\ isgCommandIntervall_timer r'
                  = Some (period (isgCommandIntervall Examples.cfg)).
Proof.
  intros r'.
  assert (H1 : address_missing Examples.cfg = false)
    by (vm_compute; reflexivity).
  assert (H2 : address_malformed Examples.cfg = false)
    by (vm_compute; reflexivity).
  split; [split; assumption|].
  exact (startup_with_valid_address Examples.cfg Examples.no_translation
           TransportError Examples.idle H1 H2).
Defined.

End StartupRun.

(** ** [createISGCommands]: errors, creation and what it leaves alone *)

Module ReconcileRun.
Import JsString JsNumber JsValue Adapter StateWrite Reconciler
       ObjectFacts AdapterFacts BoundFacts WriteFacts ReconcileFacts.

Section WithRuntime.
Variable JSON_parse : string -> option value.
Variable JSON_stringify : value -> string.
Variable extend_common : jsobj -> jsobj -> jsobj.
Variable cfg : config.

Abbreviation reconcile :=
  (createISGCommands JSON_parse JSON_stringify extend_common cfg).

(** When nothing can be done: no tag, or the store reports an error on
    the read. *)
Lemma reconcile_idle c w :
  valTag c = None \/ db_down w = true ->
  exists tr, effects tr = []
    /\ snd (reconcile c w)
       = World (objects w) (states w) (calls w ++ tr)%list (db_down w).
Proof.
  intros H. unfold createISGCommands.
  destruct (valTag c) as [tag|] eqn:Htag.
  - destruct H as [H|Hdb]; [discriminate|].
    rewrite bind_run.
    destruct (desired_silent JSON_parse cfg c tag w) as [tr0 [E0 A0]].
    unfold adds in A0. rewrite A0.
    rewrite bind_run. unfold getObject.
    cbn [fst snd objects states calls db_down record].
    rewrite Hdb. cbn [on_object]. unfold log.
    cbn [snd objects states calls db_down record].
    exists ((tr0 ++ [CGetObject (id_of cfg c tag)])
            ++ [CLog Lerror ("createISGCommands: getObject error for "
                             ++ id_of cfg c tag)])%list.
    split.
    + rewrite !effects_app, E0. reflexivity.
    + unfold record. cbn [objects states calls db_down].
      now rewrite <- !app_assoc.
  - exists []. split; [reflexivity|].
    unfold ret. cbn [snd]. now rewrite app_nil_r, world_eta.
Qed.

(** X24.  When the store reports an error on the read of the object, or
    when the command has no tag, [createISGCommands] makes no writing
    call: no object is created or patched, no state is written. *)
Theorem reconcile_gives_up_on_store_error :
  forall (c : command) (w : world),
    valTag c = None \/ db_down w = true ->
    effects (issued (reconcile c) w) = []
    /\ objects (exec (reconcile c) w) = objects w
    /\ states (exec (reconcile c) w) = states w.
Proof.
  intros c w H. destruct (reconcile_idle c w H) as [tr [Et R]].
  unfold issued, exec. rewrite R. cbn [calls objects states].
  now rewrite drop_app_length.
Qed.

(** X25.  [createISGCommands] on a command whose object does not exist
    creates the object with the desired common and then writes the
    value once, acknowledged and without expiry.  When the last segment
    of the identifier is val and digits, the value is clamped against
    the bounds of the desired common just stored; otherwise it is
    written as given. *)
Theorem new_command_is_created_then_written :
  forall (c : command) (tag : string) (w : world),
    valTag c = Some tag -> db_down w = false ->
    objects w !! id_of cfg c tag = None ->
    let id := id_of cfg c tag in
    let d := fst (desired JSON_parse cfg c tag w) in
    let v := if is_valNN (last_segment id) then clamped d (valValue c)
             else valValue c in
    objects (exec (reconcile c) w)
    = <[id := Object "state" (Some d) []]> (objects w)
    /\ effects (issued (reconcile c) w)
       = [CSetObjectNotExists id (Object "state" (Some d) []);
          CSetState id (State v true None)]
    /\ states (exec (reconcile c) w) !! id = Some (State v true None).
Proof.
  intros c tag w Htag Hdb Hobj id d v.
  unfold issued, exec, createISGCommands. rewrite Htag, bind_run.
  destruct (desired_silent JSON_parse cfg c tag w) as [tr0 [E0 A0]].
  unfold adds in A0. fold d. rewrite A0. fold id.
  rewrite bind_run. unfold getObject.
  cbn [fst snd objects states calls db_down record].
  rewrite Hdb. fold id in Hobj. rewrite Hobj. cbn [on_object].
  rewrite bind_run. unfold setObjectNotExists.
  cbn [fst snd objects states calls db_down record].
  rewrite Hobj.
  set (o := Object "state" (Some d) []).
  set (w1 := World (<[id := o]> (objects w)) (states w)
                   (((calls w ++ tr0) ++ [CGetObject id])
                    ++ [CSetObjectNotExists id o]) false).
  assert (R : exists tr,
             effects tr = [CSetState id (State v true None)]
             /\ safeSetState id (valValue c) true None w1
                = (tt, World (objects w1)
                             (<[id := State v true None]> (states w1))
                             (calls w1 ++ tr)%list (db_down w1))).
  { subst v. destruct (is_valNN (last_segment id)) eqn:E.
    - destruct (safeSetState_clamped id (valValue c) true None w1 E)
        as [tr [Et R]].
      cbv zeta in R. cbn [db_down objects w1] in R.
      rewrite lookup_insert_eq in R. cbn [final_value o] in R.
      eexists. split; [|exact R].
      cbn [effects List.filter quiet negb].
      fold (effects (tr ++ [CSetState id
                              (State (clamped d (valValue c)) true None)])).
      now rewrite effects_app, Et.
    - rewrite (safeSetState_direct id _ true None w1 E).
      eexists. split; [|reflexivity]. reflexivity. }
  destruct R as [tr [Et R]]. rewrite R.
  cbn [snd objects states calls w1].
  split; [reflexivity|]. split; [|apply lookup_insert_eq].
  rewrite <- !app_assoc, drop_app_length, !effects_app, E0, Et.
  reflexivity.
Qed.

(** X26.  [createISGCommands] leaves every object and every state other
    than its own as it was, in every store. *)
Theorem reconcile_touches_only_its_object :
  forall (c : command) (tag : string) (w : world) (other : string),
    valTag c = Some tag -> other <> id_of cfg c tag ->
    objects (exec (reconcile c) w) !! other = objects w !! other
    /\ states (exec (reconcile c) w) !! other = states w !! other.
Proof.
  intros c tag w other Htag Hother.
  destruct (db_down w) eqn:Hdb.
  - destruct (reconcile_idle c w (or_intror Hdb)) as [tr [_ R]].
    unfold exec. rewrite R. now split.
  - destruct (reconcile_run JSON_parse JSON_stringify extend_common cfg
                c tag w Htag Hdb) as [tr [v [_ R]]].
    unfold exec. rewrite R. cbn [objects states]. split.
    + unfold reconciled_objects.
      destruct (objects w !! id_of cfg c tag) as [obj|].
      * destruct (needUpdate _ _ _); [|reflexivity].
        now apply lookup_insert_ne.
      * now apply lookup_insert_ne.
    + now apply lookup_insert_ne.
Qed.

End WithRuntime.

Lemma reconcile_gives_up_on_store_error_witness :
  let c := Examples.slider in
  let w := Samples.down_world in
  let m := createISGCommands Json.parse_flat_object Json.stringify
             replace_common Examples.cfg c in
  (valTag c = None \/ db_down w = true)
  /\ effects (issued m w) = []
  /\ objects (exec m w) = objects w
  /\ states (exec m w) = states w.
Proof.
  intros c w m.
  assert (H : valTag c = None \/ db_down w = true) by (right; reflexivity).
  split; [exact H|].
  exact (reconcile_gives_up_on_store_error Json.parse_flat_object
           Json.stringify replace_common Examples.cfg c w H).
Defined.

Lemma new_command_is_created_then_written_witness :
  let c := Samples.hot_slider in
  let w := Examples.empty_world in
  let m := createISGCommands Json.parse_flat_object Json.stringify
             replace_common Examples.cfg c in
  let id := id_of Examples.cfg c "val5" in
  let d := fst (desired Json.parse_flat_object Examples.cfg c "val5" w) in
  let v := if is_valNN (last_segment id) then clamped d (valValue c)
           else valValue c in
  (valTag c = Some "val5" /\ db_down w = false
   /\ objects w !! id_of Examples.cfg c "val5" = None
   /\ v = VNum (of_Z 10))
  /\ objects (exec m w) = <[id := Object "state" (Some d) []]> (objects w)
  /\ effects (issued m w)
     = [CSetObjectNotExists id (Object "state" (Some d) []);
        CSetState id (State v true None)]
  /\ states (exec m w) !! id = Some (State v true None).
Proof.
  intros c w m id d v.
  assert (Hv : v = VNum (of_Z 10)) by (vm_compute; reflexivity).
  split; [repeat split; exact Hv|].
  exact (new_command_is_created_then_written Json.parse_flat_object
           Json.stringify replace_common Examples.cfg c "val5" w
           eq_refl eq_refl eq_refl).
Defined.

Lemma reconcile_touches_only_its_object_witness :
  let c := Examples.slider_unbounded in
  let w := Examples.room_world in
  let m := createISGCommands Json.parse_flat_object Json.stringify
             replace_common Examples.cfg c in
  (valTag c = Some "val5"
   /\ Examples.room_id <> id_of Examples.cfg c "val5")
  /\ objects (exec m w) !! Examples.room_id = objects w !! Examples.room_id
  /\ states (exec m w) !! Examples.room_id = states w !! Examples.room_id.
Proof.
  intros c w m.
  assert (H : Examples.room_id <> id_of Examples.cfg c "val5")
    by (vm_compute; discriminate).
  split; [split; [reflexivity | exact H]|].
  exact (reconcile_touches_only_its_object Json.parse_flat_object
           Json.stringify replace_common Examples.cfg c "val5" w
           Examples.room_id eq_refl H).
Defined.

End ReconcileRun.

(** ** Numbers and their text: [Number(String(x))] *)

Module NumberText.
Import JsString JsNumber JsValue Reconciler Float NumberFacts FloatFacts.

(** *** Runs of digits *)

Lemma digits_acc_app acc a b :
  digits_acc acc (a ++ b) = digits_acc (digits_acc acc a) b.
Proof.
  revert acc. induction a as [|c a IH]; intros acc; [reflexivity|].
  change (String c a ++ b) with (String c (a ++ b)).
  cbn [digits_acc]. apply IH.
Qed.

Lemma digits_acc_zeros acc j : digits_acc acc (zeros j) = acc * 10 ^ Z.of_nat j.
Proof.
  revert acc. induction j as [|j IH]; intros acc.
  - cbn [zeros digits_acc]. change (Z.of_nat 0) with 0. lia.
  - cbn [zeros digits_acc]. rewrite IH.
    change (digit_of "0") with 0.
    rewrite Nat2Z.inj_succ, Z.pow_succ_r by lia. ring.
Qed.

Lemma string_of_uint_digits d :
  all_digits (NilEmpty.string_of_uint d) = true.
Proof. induction d; cbn [NilEmpty.string_of_uint all_digits]; trivial. Qed.

Lemma digits_of_pos_digits p : all_digits (digits_of_pos p) = true.
Proof. apply string_of_uint_digits. Qed.

Lemma digits_of_pos_nonempty p : digits_of_pos p <> "".
Proof.
  pose proof (digits_of_pos_first p) as H.
  destruct (digits_of_pos p); [discriminate H | discriminate].
Qed.

(** The library reading of a run of digits is the reading from the
    left. *)
Lemma uint_of_string_acc : forall s,
  all_digits s = true ->
  exists u, NilEmpty.uint_of_string s = Some u
    /\ (forall acc, Zpos (Pos.of_uint_acc u acc) = digits_acc (Zpos acc) s)
    /\ Z.of_N (Pos.of_uint u) = digits_acc 0 s.
Proof.
  induction s as [|c r IH]; intros H.
  - exists Decimal.Nil. repeat split.
  - cbn [all_digits] in H. apply andb_true_iff in H as [Hc Hr].
    destruct (IH Hr) as [u [Hu [Hacc H0]]].
    cbn [NilEmpty.uint_of_string]. rewrite Hu.
    destruct c as [[] [] [] [] [] [] [] []]; try discriminate Hc;
      (eexists; split; [reflexivity|]; split;
       [ intros acc; cbn [Pos.of_uint_acc digits_acc]; rewrite Hacc;
         f_equal; unfold digit_of; cbn; lia
       | cbn [Pos.of_uint digits_acc Z.of_N]; unfold digit_of;
         rewrite ?Hacc, ?H0; f_equal ]).
Qed.

Lemma digits_value_acc s :
  all_digits s = true -> digits_value s = digits_acc 0 s.
Proof.
  intros H. unfold digits_value, NilZero.uint_of_string.
  destruct s as [|c r]; [reflexivity|].
  destruct (uint_of_string_acc (String c r) H) as [u [-> [_ H0]]].
  exact H0.
Qed.

Lemma digits_value_pos p : digits_value (digits_of_pos p) = Zpos p.
Proof.
  unfold digits_value, NilZero.uint_of_string, digits_of_pos.
  pose proof (Unsigned.to_uint_nonnil p) as Hn.
  destruct (NilEmpty.string_of_uint (Pos.to_uint p)) eqn:E.
  - destruct (Pos.to_uint p); try discriminate E. contradiction.
  - rewrite <- E, NilEmpty.usu. unfold Z.of_uint.
    now rewrite DecimalPos.Unsigned.of_to.
Qed.

(** *** The code units of a printed number *)

Lemma plain_not c x : plain x = false -> plain c = true -> Ascii.eqb c x = false.
Proof.
  intros Hx Hc. destruct (Ascii.eqb c x) eqn:E; [|reflexivity].
  apply Ascii.eqb_eq in E. congruence.
Qed.

Lemma plain_not_white c : plain c = true -> is_white c = false.
Proof.
  unfold plain. intros H.
  destruct (is_digit c) eqn:Hd; [now apply digit_not_white|].
  cbn [orb] in H.
  repeat match type of H with
         | (_ || _) = true => apply orb_true_iff in H as [H|H]
         end;
    apply Ascii.eqb_eq in H; subst c; reflexivity.
Qed.

Lemma all_plain_app a b : all_plain (a ++ b) = all_plain a && all_plain b.
Proof.
  induction a as [|x a IH]; [reflexivity|].
  change (String x a ++ b) with (String x (a ++ b)).
  cbn [all_plain]. now rewrite IH, andb_assoc.
Qed.

Lemma digits_plain s : all_digits s = true -> all_plain s = true.
Proof.
  induction s as [|c r IH]; [reflexivity|].
  cbn [all_digits all_plain]. intros H.
  apply andb_true_iff in H as [Hc Hr].
  unfold plain. now rewrite Hc, (IH Hr).
Qed.

Lemma dropEnd_plain s : all_plain s = true -> dropEnd s = s.
Proof.
  induction s as [|c r IH]; [reflexivity|].
  cbn [all_plain]. intros H. apply andb_true_iff in H as [Hc Hr].
  cbn [dropEnd]. rewrite (IH Hr).
  destruct r; [|reflexivity]. now rewrite (plain_not_white c Hc).
Qed.

Lemma trim_plain s : all_plain s = true -> trim s = s.
Proof.
  intros H. unfold trim.
  assert (E : trimStart s = s).
  { destruct s as [|c r]; [reflexivity|].
    cbn [all_plain] in H. apply andb_true_iff in H as [Hc _].
    cbn [trimStart]. now rewrite (plain_not_white c Hc). }
  rewrite E. now apply dropEnd_plain.
Qed.

Lemma non_decimal_plain s : all_plain s = true -> non_decimal s = None.
Proof.
  destruct s as [|c [|x r]]; intros H.
  - reflexivity.
  - destruct c as [[] [] [] [] [] [] [] []]; reflexivity.
  - cbn [all_plain] in H. apply andb_true_iff in H as [_ H].
    apply andb_true_iff in H as [Hx _].
    destruct c as [[] [] [] [] [] [] [] []]; try reflexivity.
    cbn [non_decimal].
    rewrite (plain_not x "x" eq_refl Hx), (plain_not x "X" eq_refl Hx),
            (plain_not x "o" eq_refl Hx), (plain_not x "O" eq_refl Hx),
            (plain_not x "b" eq_refl Hx), (plain_not x "B" eq_refl Hx).
    reflexivity.
Qed.

Lemma sign_of_digit c r :
  is_digit c = true ->
  match String c r with
  | String "-" t => (true, t)
  | String "+" t => (false, t)
  | _ => (false, String c r)
  end = (false, String c r).
Proof.
  intros H.
  destruct c as [[] [] [] [] [] [] [] []]; try discriminate H; reflexivity.
Qed.

(** *** Reading the notations *)

Lemma append_nil_r s : s ++ "" = s.
Proof.
  induction s as [|c s IH]; [reflexivity|].
  change (String c s ++ "") with (String c (s ++ "")). now rewrite IH.
Qed.

Lemma length_app a b :
  String.length (a ++ b) = (String.length a + String.length b)%nat.
Proof.
  induction a as [|c a IH]; [reflexivity|].
  change (String c a ++ b) with (String c (a ++ b)).
  cbn [String.length]. now rewrite IH.
Qed.

Lemma all_digits_app a b :
  all_digits (a ++ b) = all_digits a && all_digits b.
Proof.
  induction a as [|x a IH]; [reflexivity|].
  change (String x a ++ b) with (String x (a ++ b)).
  cbn [all_digits]. now rewrite IH, andb_assoc.
Qed.

Lemma zeros_digits j : all_digits (zeros j) = true.
Proof. induction j as [|j IH]; [reflexivity | exact IH]. Qed.

Lemma zeros_length j : String.length (zeros j) = j.
Proof. induction j as [|j IH]; [reflexivity|]. cbn. now rewrite IH. Qed.

Lemma all_digits_substring s : forall n m,
  all_digits s = true -> all_digits (substring n m s) = true.
Proof.
  induction s as [|c s IH]; intros n m H.
  - now destruct n, m.
  - cbn [all_digits] in H. apply andb_true_iff in H as [Hc Hs].
    destruct n as [|n]; cbn [substring].
    + destruct m as [|m]; [reflexivity|].
      cbn [all_digits]. now rewrite Hc, IH.
    + now apply IH.
Qed.

Lemma substring_split s : forall n,
  (n <= String.length s)%nat ->
  substring 0 n s ++ substring n (String.length s - n) s = s
  /\ String.length (substring n (String.length s - n) s)
     = (String.length s - n)%nat.
Proof.
  induction s as [|c s IH]; intros n Hn.
  - cbn [String.length] in Hn. assert (n = 0)%nat as -> by lia.
    split; reflexivity.
  - destruct n as [|n].
    + cbn [substring String.length Nat.sub].
      destruct (IH 0%nat ltac:(lia)) as [H1 H2].
      rewrite Nat.sub_0_r in H1, H2.
      assert (E : substring 0 (String.length s) s = s).
      { clear. induction s as [|c s IH]; [reflexivity|].
        cbn [String.length substring]. now rewrite IH. }
      split.
      * change (String c (substring 0 (String.length s) s) = String c s).
        now rewrite E.
      * cbn [String.length]. now rewrite E.
    + cbn [String.length] in Hn.
      destruct (IH n ltac:(lia)) as [H1 H2].
      cbn [substring String.length Nat.sub]. split; [|exact H2].
      change (String c (substring 0 n s
                        ++ substring n (String.length s - n) s)
              = String c s).
      now rewrite H1.
Qed.

Lemma span_digits_all s : all_digits s = true -> span_digits s = (s, "").
Proof.
  intros H. rewrite <- (append_nil_r s) at 1.
  now apply span_digits_app.
Qed.

Lemma unsigned_decimal_integer s :
  all_digits s = true -> s <> "" ->
  unsigned_decimal s = Some (digits_value s, 0).
Proof.
  intros H Hne. unfold unsigned_decimal. rewrite (span_digits_all s H).
  destruct s as [|c r]; [contradiction|].
  cbn [exponent_part String.length]. now rewrite append_nil_r.
Qed.

Lemma unsigned_decimal_fraction a b :
  all_digits a = true -> all_digits b = true -> a <> "" ->
  unsigned_decimal (a ++ "." ++ b)
  = Some (digits_value (a ++ b), - Z.of_nat (String.length b)).
Proof.
  intros Ha Hb Hne. unfold unsigned_decimal.
  change (a ++ "." ++ b) with (a ++ String "." b).
  rewrite (span_digits_app a (String "." b) Ha eq_refl).
  rewrite (span_digits_all b Hb).
  destruct a as [|c r]; [contradiction|].
  cbn [exponent_part]. reflexivity.
Qed.

Lemma digits_of_Z_pos q : digits_of_Z (Zpos q) = digits_of_pos q.
Proof.
  unfold digits_of_Z, digits_of_pos. cbn [Z.to_int NilZero.string_of_int].
  unfold NilZero.string_of_uint.
  pose proof (Unsigned.to_uint_nonnil q) as Hn.
  destruct (Pos.to_uint q); [contradiction | reflexivity ..].
Qed.

Lemma exponent_part_suffix x :
  x <> 0 -> exponent_part ("e" ++ exponent_suffix x) = Some x.
Proof.
  intros Hx. unfold exponent_suffix.
  assert (H : exists q, Z.abs x = Zpos q).
  { destruct x as [|q|q]; [contradiction | now exists q ..]. }
  destruct H as [q Hq]. rewrite Hq, digits_of_Z_pos.
  pose proof (span_digits_all _ (digits_of_pos_digits q)) as Hs.
  pose proof (digits_of_pos_nonempty q) as Hne.
  pose proof (digits_value_pos q) as Hv.
  destruct (x <? 0) eqn:E.
  - change (exponent_part ("e" ++ "-" ++ digits_of_pos q))
      with (match span_digits (digits_of_pos q) with
            | (String d ds, EmptyString) =>
                Some (- digits_value (String d ds))
            | _ => None
            end).
    rewrite Hs. destruct (digits_of_pos q) as [|d ds]; [contradiction|].
    rewrite Hv. apply Z.ltb_lt in E. f_equal. lia.
  - change (exponent_part ("e" ++ "+" ++ digits_of_pos q))
      with (match span_digits (digits_of_pos q) with
            | (String d ds, EmptyString) =>
                Some (digits_value (String d ds))
            | _ => None
            end).
    rewrite Hs. destruct (digits_of_pos q) as [|d ds]; [contradiction|].
    rewrite Hv. apply Z.ltb_ge in E. f_equal. lia.
Qed.

Lemma unsigned_decimal_exponent a x :
  all_digits a = true -> a <> "" -> x <> 0 ->
  unsigned_decimal (a ++ "e" ++ exponent_suffix x)
  = Some (digits_value a, x).
Proof.
  intros Ha Hne Hx. unfold unsigned_decimal.
  change (a ++ "e" ++ exponent_suffix x)
    with (a ++ String "e" (exponent_suffix x)).
  rewrite (span_digits_app a (String "e" (exponent_suffix x)) Ha eq_refl).
  destruct a as [|c r]; [contradiction|].
  change (String "e" (exponent_suffix x)) with ("e" ++ exponent_suffix x).
  cbv iota beta.
  change (match "e" ++ exponent_suffix x with
          | String "." t => let '(f, t') := span_digits t in (f, t', true)
          | _ => (EmptyString, "e" ++ exponent_suffix x, false)
          end) with (EmptyString, "e" ++ exponent_suffix x, false).
  cbv iota beta. rewrite (exponent_part_suffix x Hx), append_nil_r.
  cbn [String.length Z.of_nat]. now rewrite Z.sub_0_r.
Qed.

Lemma unsigned_decimal_scientific a b x :
  all_digits a = true -> all_digits b = true -> a <> "" -> x <> 0 ->
  unsigned_decimal (a ++ "." ++ b ++ "e" ++ exponent_suffix x)
  = Some (digits_value (a ++ b), x - Z.of_nat (String.length b)).
Proof.
  intros Ha Hb Hne Hx. unfold unsigned_decimal.
  change (a ++ "." ++ b ++ "e" ++ exponent_suffix x)
    with (a ++ String "." (b ++ String "e" (exponent_suffix x))).
  rewrite (span_digits_app a
             (String "." (b ++ String "e" (exponent_suffix x))) Ha eq_refl).
  cbv iota beta.
  rewrite (span_digits_app b (String "e" (exponent_suffix x)) Hb eq_refl).
  destruct a as [|c r]; [contradiction|].
  change (String "e" (exponent_suffix x)) with ("e" ++ exponent_suffix x).
  now rewrite (exponent_part_suffix x Hx).
Qed.

Ltac to_props :=
  repeat match goal with
         | H : (_ && _) = true |- _ => apply andb_true_iff in H as [? ?]
         | H : (_ && _) = false |- _ => apply andb_false_iff in H
         | H : (_ <=? _) = true |- _ => apply Z.leb_le in H
         | H : (_ <=? _) = false |- _ => apply Z.leb_gt in H
         | H : (_ <? _) = true |- _ => apply Z.ltb_lt in H
         | H : (_ <? _) = false |- _ => apply Z.ltb_ge in H
         | H : (_ =? _) = true |- _ => apply Z.eqb_eq in H
         | H : (_ =? _) = false |- _ => apply Z.eqb_neq in H
         end.

Lemma exponent_suffix_plain x : all_plain (exponent_suffix x) = true.
Proof.
  unfold exponent_suffix.
  assert (H : all_digits (digits_of_Z (Z.abs x)) = true).
  { destruct x as [|q|q]; [reflexivity | |].
    - change (Z.abs (Z.pos q)) with (Z.pos q).
      rewrite digits_of_Z_pos. apply digits_of_pos_digits.
    - change (Z.abs (Z.neg q)) with (Z.pos q).
      rewrite digits_of_Z_pos. apply digits_of_pos_digits. }
  rewrite all_plain_app, (digits_plain _ H). now destruct (x <? 0).
Qed.

Lemma positive_to_string_plain ds n :
  all_digits ds = true -> all_plain (positive_to_string ds n) = true.
Proof.
  intros H. unfold positive_to_string.
  repeat match goal with
         | |- context [if ?b then _ else _] => destruct b
         end;
    rewrite ?all_plain_app, ?exponent_suffix_plain;
    rewrite ?(digits_plain _ H), ?(digits_plain _ (zeros_digits _)),
            ?(digits_plain _ (all_digits_substring ds _ _ H));
    reflexivity.
Qed.

Lemma substring_head_nonempty ds n :
  ds <> "" -> substring 0 (S n) ds <> "".
Proof. destruct ds; [contradiction | discriminate]. Qed.

(** The text of a positive number reads back as its digits and
    exponent, or, for an integer below 10^21, as the integer. *)
Lemma parse_positive p e' :
  let ds := digits_of_pos p in
  let k := Z.of_nat (String.length ds) in
  unsigned_decimal (positive_to_string ds (k + e'))
  = Some (if (0 <=? e') && (k + e' <=? 21)
          then (Zpos p * 10 ^ e', 0) else (Zpos p, e')).
Proof.
  intros ds k.
  pose proof (digits_of_pos_digits p) as Hd. fold ds in Hd.
  pose proof (digits_of_pos_nonempty p) as Hne. fold ds in Hne.
  pose proof (digits_value_pos p) as Hv. fold ds in Hv.
  assert (Hk : 1 <= k).
  { subst k. destruct ds; [contradiction|]. cbn [String.length]. lia. }
  assert (Hc : (k <=? k + e') = (0 <=? e')).
  { destruct (Z.leb_spec k (k + e')), (Z.leb_spec 0 e'); trivial; lia. }
  unfold positive_to_string. fold k. rewrite Hc.
  destruct ((0 <=? e') && (k + e' <=? 21)) eqn:C1.
  - to_props.
    rewrite unsigned_decimal_integer.
    + rewrite digits_value_acc
        by (now rewrite all_digits_app, Hd, zeros_digits).
      rewrite digits_acc_app, digits_acc_zeros.
      rewrite <- (digits_value_acc ds Hd), Hv.
      repeat f_equal; lia.
    + now rewrite all_digits_app, Hd, zeros_digits.
    + destruct ds; [contradiction | discriminate].
  - destruct ((0 <? k + e') && (k + e' <=? 21)) eqn:C2.
    + to_props.
      assert (He : e' < 0) by lia.
      assert (Hn : (Z.to_nat (k + e') <= String.length ds)%nat) by lia.
      destruct (substring_split ds (Z.to_nat (k + e')) Hn) as [Hs Hl].
      assert (Hb : Z.to_nat (k - (k + e'))
                   = (String.length ds - Z.to_nat (k + e'))%nat) by lia.
      rewrite Hb.
      rewrite unsigned_decimal_fraction;
        try (now apply all_digits_substring).
      * rewrite Hs, Hl, Hv. repeat f_equal; lia.
      * destruct (Z.to_nat (k + e')) eqn:En; [lia|].
        now apply substring_head_nonempty.
    + destruct ((-6 <? k + e') && (k + e' <=? 0)) eqn:C3.
      * to_props.
        change ("0." ++ zeros (Z.to_nat (- (k + e'))) ++ ds)
          with ("0" ++ "." ++ (zeros (Z.to_nat (- (k + e'))) ++ ds)).
        rewrite unsigned_decimal_fraction;
          [| reflexivity
           | now rewrite all_digits_app, Hd, zeros_digits
           | discriminate].
        rewrite digits_value_acc
          by (change ("0" ++ ?x) with (String "0" x); cbn [all_digits];
              now rewrite all_digits_app, Hd, zeros_digits).
        change ("0" ++ ?x) with (String "0" x). cbn [digits_acc].
        change (10 * 0 + digit_of "0") with 0.
        rewrite digits_acc_app, digits_acc_zeros, Z.mul_0_l.
        rewrite <- (digits_value_acc ds Hd), Hv.
        rewrite length_app, zeros_length. repeat f_equal; lia.
      * destruct (k =? 1) eqn:C4.
        -- to_props.
           rewrite unsigned_decimal_exponent; trivial; [|lia].
           rewrite Hv. repeat f_equal; lia.
        -- to_props.
           assert (Hn : (1 <= String.length ds)%nat) by lia.
           destruct (substring_split ds 1 Hn) as [Hs Hl].
           assert (Hb : Z.to_nat (k - 1) = (String.length ds - 1)%nat) by lia.
           rewrite Hb.
           rewrite unsigned_decimal_scientific;
             try (now apply all_digits_substring); [| |lia].
           ++ rewrite Hs, Hl, Hv. repeat f_equal; lia.
           ++ now apply substring_head_nonempty.
Qed.

(** *** From the text back to the number *)

Lemma of_string_printed s m2 e2 :
  all_plain s = true -> digit_first s = true ->
  unsigned_decimal s = Some (m2, e2) ->
  of_string s = round m2 e2 /\ of_string ("-" ++ s) = round (- m2) e2.
Proof.
  intros Hp Hf Hu.
  destruct s as [|c r]; [discriminate Hf|]. cbn [digit_first] in Hf.
  assert (Hi : String.eqb (String c r) "Infinity" = false).
  { cbn [String.eqb]. now rewrite (digit_not c "I" Hf eq_refl). }
  split.
  - unfold of_string. rewrite (trim_plain _ Hp). cbv zeta iota.
    rewrite (non_decimal_plain _ Hp), (sign_of_digit c r Hf), Hi, Hu.
    reflexivity.
  - assert (Hm : all_plain ("-" ++ String c r) = true).
    { change ("-" ++ String c r) with (String "-" (String c r)).
      cbn [all_plain] in *. now rewrite Hp. }
    unfold of_string. rewrite (trim_plain _ Hm).
    change ("-" ++ String c r) with (String "-" (String c r)) in *.
    cbv zeta iota.
    rewrite (non_decimal_plain _ Hm). cbv iota. rewrite Hi, Hu.
    reflexivity.
Qed.

Lemma overflows_opp m e : overflows (- m) e = overflows m e.
Proof. unfold overflows. now rewrite Z.abs_opp. Qed.

(** Whether a number overflows depends on its value, not on how the
    value is split between digits and exponent. *)
Lemma overflows_shift m e k :
  0 <= k -> overflows (m * 10 ^ k) e = overflows m (e + k).
Proof.
  intros Hk. unfold overflows.
  rewrite Z.abs_mul, (Z.abs_eq (10 ^ k)) by (apply Z.pow_nonneg; lia).
  set (T := overflow_threshold). set (a := Z.abs m).
  assert (Hpos : forall x, 0 <= x -> 0 < 10 ^ x)
    by (intros x Hx; apply Z.pow_pos_nonneg; lia).
  destruct (Z.leb_spec 0 e) as [He|He].
  - destruct (Z.leb_spec 0 (e + k)) as [_|]; [|lia].
    rewrite Z.pow_add_r by lia. f_equal. ring.
  - destruct (Z.leb_spec 0 (e + k)) as [Hek|Hek].
    + (* 10^k = 10^(e+k) * 10^(-e) *)
      replace k with ((e + k) + (- e)) at 1 by lia.
      rewrite Z.pow_add_r by lia.
      pose proof (Hpos (- e) ltac:(lia)) as P.
      destruct (Z.leb_spec (T * 10 ^ (- e)) (a * (10 ^ (e + k) * 10 ^ (- e))))
        as [H|H], (Z.leb_spec T (a * 10 ^ (e + k))) as [H'|H'];
        trivial; nia.
    + replace (- e) with ((- (e + k)) + k) by lia.
      rewrite Z.pow_add_r by lia.
      pose proof (Hpos k Hk) as P.
      destruct (Z.leb_spec (T * (10 ^ (- (e + k)) * 10 ^ k)) (a * 10 ^ k))
        as [H|H], (Z.leb_spec (T * 10 ^ (- (e + k))) a) as [H'|H'];
        trivial; nia.
Qed.

Lemma strip_zeros_value fuel : forall m e,
  exists k, 0 <= k
    /\ m = fst (strip_zeros fuel m e) * 10 ^ k
    /\ snd (strip_zeros fuel m e) = e + k.
Proof.
  induction fuel as [|f IH]; intros m e; cbn [strip_zeros].
  - exists 0. cbn [fst snd]. repeat split; lia.
  - destruct ((m mod 10 =? 0) && negb (m =? 0)) eqn:E.
    + apply andb_true_iff in E as [E _]. apply Z.eqb_eq in E.
      destruct (IH (m / 10) (e + 1)) as [k [Hk [Hm He]]].
      exists (k + 1). split; [lia|]. split; [|lia].
      rewrite Z.pow_add_r, Z.pow_1_r by lia.
      pose proof (Z.div_mod m 10 ltac:(lia)) as D.
      rewrite E in D. rewrite Z.mul_assoc, <- Hm. lia.
    + exists 0. cbn [fst snd]. repeat split; lia.
Qed.

Lemma same_number_intro m1 e1 m2 e2 z :
  z <= e1 -> z <= e2 ->
  m1 * 10 ^ (e1 - z) = m2 * 10 ^ (e2 - z) ->
  same_number (Finite m1 e1) (Finite m2 e2) = true.
Proof.
  intros H1 H2 H. unfold same_number, align.
  set (z0 := Z.min e1 e2). apply Z.eqb_eq.
  assert (Hz : z <= z0) by (subst z0; lia).
  assert (P : 0 < 10 ^ (z0 - z)) by (apply Z.pow_pos_nonneg; lia).
  replace (e1 - z) with ((e1 - z0) + (z0 - z)) in H by lia.
  replace (e2 - z) with ((e2 - z0) + (z0 - z)) in H by lia.
  rewrite !Z.pow_add_r in H by (subst z0; lia).
  rewrite !Z.mul_assoc in H.
  now apply Z.mul_cancel_r in H; [|lia].
Qed.

(** What [of_string] makes of the text of a number with digits [p]
    (positive) and exponent [e']: the same value. *)
Lemma printed_value p e' m e k (neg : bool) :
  0 <= k -> m = (if neg then Zneg p else Zpos p) * 10 ^ k -> e' = e + k ->
  overflows m e = false ->
  let m2 := if (0 <=? e') && (Z.of_nat (String.length (digits_of_pos p))
                              + e' <=? 21)
            then Zpos p * 10 ^ e' else Zpos p in
  let e2 := if (0 <=? e') && (Z.of_nat (String.length (digits_of_pos p))
                              + e' <=? 21)
            then 0 else e' in
  round (if neg then - m2 else m2) e2
  = Finite (if neg then - m2 else m2) e2
  /\ same_number (Finite (if neg then - m2 else m2) e2) (Finite m e) = true.
Proof.
  intros Hk Hm He Ho m2 e2.
  assert (Hop : overflows (Zpos p) e' = false).
  { rewrite He, <- overflows_shift by exact Hk.
    destruct neg; rewrite Hm in Ho; [|exact Ho].
    change (Z.neg p) with (- Z.pos p) in Ho.
    now rewrite Z.mul_opp_l, overflows_opp in Ho. }
  assert (Hsign : (if neg then Zneg p else Zpos p)
                  = if neg then - Zpos p else Zpos p) by now destruct neg.
  subst m2 e2.
  destruct ((0 <=? e')
            && (Z.of_nat (String.length (digits_of_pos p)) + e' <=? 21))
    eqn:C.
  - to_props. split.
    + unfold round.
      assert (Hov : overflows (if neg then - (Zpos p * 10 ^ e')
                               else Zpos p * 10 ^ e') 0 = false).
      { destruct neg; rewrite ?overflows_opp, overflows_shift by lia;
          exact Hop. }
      now rewrite Hov.
    + apply (same_number_intro _ _ _ _ (Z.min 0 e)); [lia | lia |].
      rewrite Hm, Hsign.
      assert (E : 10 ^ e' * 10 ^ (0 - Z.min 0 e)
                  = 10 ^ k * 10 ^ (e - Z.min 0 e)).
      { rewrite <- !Z.pow_add_r by lia. f_equal. lia. }
      destruct neg.
      * rewrite !Z.mul_opp_l. f_equal.
        now rewrite <- !Z.mul_assoc, E.
      * now rewrite <- !Z.mul_assoc, E.
  - split.
    + unfold round.
      assert (Hov : overflows (if neg then - Zpos p else Zpos p) e' = false).
      { destruct neg; rewrite ?overflows_opp; exact Hop. }
      now rewrite Hov.
    + apply (same_number_intro _ _ _ _ e); [lia | lia |].
      rewrite Hm, Hsign, Z.sub_diag, Z.pow_0_r, Z.mul_1_r.
      replace (e' - e) with k by lia. reflexivity.
Qed.

Lemma of_string_to_string m e :
  overflows m e = false ->
  exists m2 e2,
    of_string (to_string (Finite m e)) = Finite m2 e2
    /\ same_number (Finite m2 e2) (Finite m e) = true
    /\ all_plain (to_string (Finite m e)) = true
    /\ to_string (Finite m e) <> "".
Proof.
  intros Ho. unfold to_string, normalize.
  destruct (m =? 0) eqn:E0.
  - apply Z.eqb_eq in E0. subst m. exists 0, 0.
    split; [reflexivity|]. split; [|split; [reflexivity | discriminate]].
    unfold same_number, align. now rewrite !Z.mul_0_l.
  - apply Z.eqb_neq in E0.
    destruct (strip_zeros_value (Z.to_nat (Z.log2 (Z.abs m)) + 1) m e)
      as [k [Hk [Hm He]]].
    destruct (strip_zeros (Z.to_nat (Z.log2 (Z.abs m)) + 1) m e)
      as [m' e'].
    cbn [fst snd] in Hm, He.
    destruct m' as [|p|p]; [lia | |].
    + pose proof (parse_positive p e') as Hu. cbv zeta in Hu.
      pose proof (positive_to_string_plain (digits_of_pos p)
                    (Z.of_nat (String.length (digits_of_pos p)) + e')
                    (digits_of_pos_digits p)) as Hp.
      pose proof (positive_to_string_first (digits_of_pos p)
                    (Z.of_nat (String.length (digits_of_pos p)) + e')
                    (digits_of_pos_first p)) as Hf.
      destruct (printed_value p e' m e k false Hk Hm He Ho) as [Hr Hsame].
      cbv zeta in Hr, Hsame.
      match type of Hu with
      | _ = Some (if ?c then (?a, ?z) else (?b, ?x)) =>
          replace (if c then (a, z) else (b, x))
            with (if c then a else b, if c then z else x) in Hu
            by now destruct c
      end.
      destruct (of_string_printed _ _ _ Hp Hf Hu) as [Hof _].
      do 2 eexists. split; [rewrite Hof; exact Hr|].
      split; [exact Hsame|]. split; [exact Hp|].
      intros Hempty. rewrite Hempty in Hf. discriminate Hf.
    + pose proof (parse_positive p e') as Hu. cbv zeta in Hu.
      pose proof (positive_to_string_plain (digits_of_pos p)
                    (Z.of_nat (String.length (digits_of_pos p)) + e')
                    (digits_of_pos_digits p)) as Hp.
      pose proof (positive_to_string_first (digits_of_pos p)
                    (Z.of_nat (String.length (digits_of_pos p)) + e')
                    (digits_of_pos_first p)) as Hf.
      destruct (printed_value p e' m e k true Hk Hm He Ho) as [Hr Hsame].
      cbv zeta in Hr, Hsame.
      match type of Hu with
      | _ = Some (if ?c then (?a, ?z) else (?b, ?x)) =>
          replace (if c then (a, z) else (b, x))
            with (if c then a else b, if c then z else x) in Hu
            by now destruct c
      end.
      destruct (of_string_printed _ _ _ Hp Hf Hu) as [_ Hof].
      do 2 eexists. split; [rewrite Hof; exact Hr|].
      split; [exact Hsame|]. split; [|discriminate].
      change ("-" ++ ?x) with (String "-" x). cbn [all_plain].
      now rewrite Hp.
Qed.

Lemma number_bound_round_trip_aux m e :
  overflows m e = false ->
  included (VNum (Finite m e)) = true
  /\ isFinite (of_string (bound_text (VNum (Finite m e)))) = true
  /\ same_number (of_string (bound_text (VNum (Finite m e))))
                 (Finite m e) = true.
Proof.
  intros Ho.
  destruct (of_string_to_string m e Ho) as [m2 [e2 [Hof [Hs [Hp Hne]]]]].
  assert (Hb : bound_text (VNum (Finite m e)) = to_string (Finite m e)).
  { unfold bound_text. cbn [ToString]. now apply trim_plain. }
  assert (Hfin : isFinite (of_string (bound_text (VNum (Finite m e)))) = true)
    by now rewrite Hb, Hof.
  split; [|split; [exact Hfin | now rewrite Hb, Hof]].
  unfold included. rewrite Hfin. cbn [typeof is_null].
  change (String.eqb "number" "undefined") with false.
  rewrite Hb. apply String.eqb_neq in Hne. now rewrite Hne.
Qed.

(** X28.  A number handed to [createISGCommands] as a bound is kept
    exactly when it is finite, and then it survives the conversion the
    code makes, to a string, trimmed, and back to a number: what is
    persisted is a finite number of the same value.  NaN and the
    infinities are dropped. *)
Theorem number_bound_round_trip :
  forall n : number,
    match n with Finite m e => overflows m e = false | _ => True end ->
    included (VNum n) = isFinite n
    /\ isFinite (of_string (bound_text (VNum n))) = isFinite n
    /\ (if isFinite n
        then same_number (of_string (bound_text (VNum n))) n = true
        else True).
Proof.
  intros [|b|m e] H.
  - repeat split.
  - destruct b; repeat split.
  - cbn [isFinite].
    destruct (number_bound_round_trip_aux m e H) as (H1 & H2 & H3).
    now rewrite H1, H2, H3.
Qed.

Section Slider.
Variable JSON_parse : string -> option value.
Variable cfg : config.
Variable translateName : string -> string.

(** X29.  A slider whose script gives a minimum and a maximum that
    [parseFloat] reads as finite numbers: the desired common of the
    command has [min] and [max], and they hold numbers of the same
    value as the ones read, after the conversion to a string and back
    that [createISGCommands] makes. *)
Theorem slider_bounds_are_persisted :
  forall (subnav : string) (submenu : option string)
         (name unit script : string) (c : command) (tag : string)
         (w : Adapter.world) (lo_m lo_e hi_m hi_e : Z),
    Extractors.slider_command translateName subnav submenu name unit script
    = Some c ->
    Extractors.script_number (Extractors.capture "['min'] = '" script)
    = Finite lo_m lo_e ->
    Extractors.script_number (Extractors.capture "['max'] = '" script)
    = Finite hi_m hi_e ->
    overflows lo_m lo_e = false -> overflows hi_m hi_e = false ->
    let d := fst (desired JSON_parse cfg c tag w) in
    exists lo hi : number,
      get d "min" = VNum lo /\ get d "max" = VNum hi
      /\ hasOwn d "min" = true /\ hasOwn d "max" = true
      /\ same_number lo (Finite lo_m lo_e) = true
      /\ same_number hi (Finite hi_m hi_e) = true.
Proof.
  intros subnav submenu name unit script c tag w lo_m lo_e hi_m hi_e
         Hc Hlo Hhi Holo Hohi d. subst d.
  rewrite (SliderFacts.slider_desired JSON_parse cfg translateName subnav
             submenu name unit script c tag w Hc).
  unfold Extractors.slider_command in Hc.
  destruct (Extractors.capture "['id']='" script) as [id|]; [|discriminate].
  injection Hc as <-. rewrite Hlo, Hhi.
  destruct (number_bound_round_trip_aux lo_m lo_e Holo) as (Hi1 & _ & Hs1).
  destruct (number_bound_round_trip_aux hi_m hi_e Hohi) as (Hi2 & _ & Hs2).
  match goal with
  | |- context [bounded ?c] =>
      destruct (BoundFacts.bounded_min c) as [Hh1 Hg1];
      destruct (BoundFacts.bounded_max c) as [Hh2 Hg2]
  end.
  cbn [valMin valMax] in Hh1, Hg1, Hh2, Hg2.
  rewrite Hi1 in Hh1, Hg1. rewrite Hi2 in Hh2, Hg2.
  do 2 eexists. split; [exact Hg1|]. split; [exact Hg2|].
  split; [exact Hh1|]. split; [exact Hh2|]. split; assumption.
Qed.

End Slider.

Lemma slider_bounds_are_persisted_witness :
  let c := Command "settings.HEIZEN" (Some "val5") "Raumtemperatur" "number"
                   "C" "state" (VNum (Finite 215 (-1))) (VStr "")
                   (VNum (Finite 55 (-1))) (VNum (Finite 30 0)) in
  let d := fst (desired Json.parse_flat_object Examples.cfg c "val5"
                  Examples.empty_world) in
  (Extractors.slider_command Examples.no_translation "HEIZEN" None
     "Raumtemperatur" "C" Samples.bounded_script = Some c
   /\ Extractors.script_number
        (Extractors.capture "['min'] = '" Samples.bounded_script)
      = Finite 55 (-1)
   /\ Extractors.script_number
        (Extractors.capture "['max'] = '" Samples.bounded_script)
      = Finite 30 0
   /\ overflows 55 (-1) = false /\ overflows 30 0 = false)
  /\ exists lo hi : number,
       get d "min" = VNum lo /\ get d "max" = VNum hi
       /\ hasOwn d "min" = true /\ hasOwn d "max" = true
       /\ same_number lo (Finite 55 (-1)) = true
       /\ same_number hi (Finite 30 0) = true.
Proof.
  intros c d.
  assert (H1 : Extractors.slider_command Examples.no_translation "HEIZEN" None
                 "Raumtemperatur" "C" Samples.bounded_script = Some c)
    by (vm_compute; reflexivity).
  assert (H2 : Extractors.script_number
                 (Extractors.capture "['min'] = '" Samples.bounded_script)
               = Finite 55 (-1)) by (vm_compute; reflexivity).
  assert (H3 : Extractors.script_number
                 (Extractors.capture "['max'] = '" Samples.bounded_script)
               = Finite 30 0) by (vm_compute; reflexivity).
  assert (H4 : overflows 55 (-1) = false) by (vm_compute; reflexivity).
  assert (H5 : overflows 30 0 = false) by (vm_compute; reflexivity).
  split; [repeat split; assumption|].
  exact (slider_bounds_are_persisted Json.parse_flat_object Examples.cfg
           Examples.no_translation "HEIZEN" None "Raumtemperatur" "C"
           Samples.bounded_script c "val5" Examples.empty_world
           55 (-1) 30 0 H1 H2 H3 H4 H5).
Defined.

Lemma number_bound_round_trip_witness :
  overflows 215 (-1) = false
  /\ included (VNum (Finite 215 (-1))) = isFinite (Finite 215 (-1))
  /\ isFinite (of_string (bound_text (VNum (Finite 215 (-1)))))
     = isFinite (Finite 215 (-1))
  /\ (if isFinite (Finite 215 (-1))
      then same_number (of_string (bound_text (VNum (Finite 215 (-1)))))
                       (Finite 215 (-1)) = true
      else True).
Proof.
  assert (H : overflows 215 (-1) = false) by (vm_compute; reflexivity).
  split; [exact H|]. exact (number_bound_round_trip (Finite 215 (-1)) H).
Defined.

End NumberText.

(** ** The radio buttons of a command page *)

Module RadioFacts.
Import JsString JsNumber JsValue Adapter Reconciler Json Labels Float
       Extractors ObjectFacts AdapterFacts BoundFacts LabelFacts PageFacts.

Lemma not_brace pre r : pre ++ String double_quote r <> "{".
Proof.
  destruct pre as [|c [|d p]]; try discriminate.
Qed.

Lemma add_entry_first i : add_entry "{" i = "{" ++ entry_text i.
Proof. reflexivity. Qed.

Lemma add_entry_next acc i :
  acc <> "{" -> add_entry acc i = (acc ++ ",") ++ entry_text i.
Proof.
  intros H. unfold add_entry. apply String.eqb_neq in H. now rewrite H.
Qed.

Lemma fold_entries : forall rest acc,
  acc <> "{" ->
  fold_left add_entry rest acc ++ "}" = acc ++ members_text rest.
Proof.
  induction rest as [|i rest IH]; intros acc H; [reflexivity|].
  cbn [fold_left members_text]. rewrite (add_entry_next acc i H).
  rewrite IH by apply not_brace.
  now rewrite <- !append_assoc.
Qed.

(** The states text: a brace, the entries with commas in between, a
    brace. *)
Lemma states_text_shape inputs :
  states_text inputs
  = match inputs with
    | [] => "{}"
    | i :: rest => "{" ++ entry_text i ++ members_text rest
    end.
Proof.
  unfold states_text. destruct inputs as [|i rest]; [reflexivity|].
  cbn [fold_left]. rewrite add_entry_first.
  rewrite fold_entries by (intros H; discriminate H).
  now rewrite <- append_assoc.
Qed.

Lemma read_string_plain k rest :
  free_of json_special k = true ->
  read_string (k ++ String dq rest) = Some (k, rest).
Proof.
  induction k as [|c k IH]; intros H.
  - reflexivity.
  - cbn [free_of] in H. apply andb_true_iff in H as [Hc Hk].
    apply negb_true_iff in Hc. unfold json_special in Hc.
    apply orb_false_iff in Hc as [Hc Hctl].
    apply orb_false_iff in Hc as [Hq Hb].
    change (String c k ++ String dq rest)
      with (String c (k ++ String dq rest)).
    cbn [read_string]. unfold is_control.
    change dq with double_quote. change backslash with (ascii_of_N 92).
    rewrite Hq, Hb, Hctl. change double_quote with dq. now rewrite (IH Hk).
Qed.

Lemma members_length rest :
  (length rest < String.length (members_text rest))%nat.
Proof.
  induction rest as [|i rest IH]; [cbn; lia|].
  cbn [members_text length].
  change ("," ++ entry_text i ++ members_text rest)
    with (String "," (entry_text i ++ members_text rest)).
  cbn [String.length]. rewrite NumberText.length_app. lia.
Qed.

Lemma entry_text_dq i :
  entry_text i
  = String dq (radio_value i
               ++ String dq (String ":" (String dq (radio_alt i
                                                    ++ String dq "")))).
Proof. reflexivity. Qed.

(** One entry is read, whatever follows it. *)
Lemma read_entry i tail :
  plain_radio i ->
  entry_text i ++ tail
  = String dq (radio_value i
               ++ String dq (String ":" (String dq (radio_alt i
                                                    ++ String dq tail))))
  /\ read_string (radio_value i
                  ++ String dq (String ":" (String dq (radio_alt i
                                                       ++ String dq tail))))
     = Some (radio_value i,
             String ":" (String dq (radio_alt i ++ String dq tail)))
  /\ read_string (radio_alt i ++ String dq tail) = Some (radio_alt i, tail).
Proof.
  intros [Hv Ha]. split; [|split; now apply read_string_plain].
  rewrite entry_text_dq.
  change (String dq ?x ++ tail) with (String dq (x ++ tail)).
  rewrite <- PageFacts.append_assoc.
  change (String dq (String ":" (String dq ?x)) ++ tail)
    with (String dq (String ":" (String dq (x ++ tail)))).
  now rewrite <- PageFacts.append_assoc.
Qed.

Lemma read_entries : forall rest i acc fuel,
  (length rest < fuel)%nat ->
  plain_radio i -> Forall plain_radio rest ->
  read_members fuel acc (entry_text i ++ members_text rest)
  = Some (fold_left (fun o j => set o (radio_value j) (VStr (radio_alt j)))
                    rest (set acc (radio_value i) (VStr (radio_alt i)))).
Proof.
  induction rest as [|j rest IH]; intros i acc fuel Hf Hi Hrest;
    (destruct fuel as [|fuel]; [cbn [length] in Hf; lia|]).
  - destruct (read_entry i (members_text []) Hi) as (E & R1 & R2).
    rewrite E. cbn [read_members]. rewrite Ascii.eqb_refl, R1.
    rewrite Ascii.eqb_refl, R2. reflexivity.
  - apply Forall_cons_iff in Hrest as [Hj Hrest].
    destruct (read_entry i (members_text (j :: rest)) Hi) as (E & R1 & R2).
    rewrite E. cbn [read_members]. rewrite Ascii.eqb_refl, R1.
    rewrite Ascii.eqb_refl, R2.
    cbn [members_text fold_left].
    change ("," ++ entry_text j ++ members_text rest)
      with (String "," (entry_text j ++ members_text rest)).
    cbv iota beta.
    apply IH; trivial. cbn [length] in Hf. lia.
Qed.

(** The text the loop builds is read by the parser as the mapping from
    values to labels. *)
Lemma states_text_parses inputs :
  Forall plain_radio inputs ->
  parse_flat_object (states_text inputs) = Some (VObj (states_of inputs)).
Proof.
  intros H. rewrite states_text_shape. unfold states_of.
  destruct inputs as [|i rest]; [reflexivity|].
  apply Forall_cons_iff in H as [Hi Hrest].
  change ("{" ++ entry_text i ++ members_text rest)
    with (String "{" (entry_text i ++ members_text rest)).
  unfold parse_flat_object.
  assert (Hfuel : (length rest
                   < String.length (entry_text i ++ members_text rest))%nat).
  { rewrite NumberText.length_app. pose proof (members_length rest). lia. }
  rewrite (read_entries rest i [] _ Hfuel Hi Hrest).
  unfold entry_text.
  change (String double_quote ?x ++ ?y) with (String double_quote (x ++ y)).
  reflexivity.
Qed.

Lemma dropEnd_brace a : dropEnd (a ++ "}") = a ++ "}".
Proof.
  induction a as [|c a IH]; [reflexivity|].
  change (String c a ++ "}") with (String c (a ++ "}")).
  cbn [dropEnd]. rewrite IH. now destruct a.
Qed.

Lemma states_text_trim inputs :
  trim (states_text inputs) = states_text inputs
  /\ startsWith (states_text inputs) "{" = true
  /\ states_text inputs <> "".
Proof.
  assert (H : exists a, states_text inputs = String "{" (a ++ "}")).
  { rewrite states_text_shape. destruct inputs as [|i rest].
    - now exists "".
    - assert (E : exists b, members_text rest = b ++ "}").
      { clear. induction rest as [|j rest [b Hb]]; [now exists ""|].
        cbn [members_text]. rewrite Hb.
        exists ("," ++ entry_text j ++ b).
        now rewrite <- !PageFacts.append_assoc. }
      destruct E as [b ->]. exists (entry_text i ++ b).
      change ("{" ++ ?x) with (String "{" x).
      now rewrite <- PageFacts.append_assoc. }
  destruct H as [a ->]. split; [|split; [|discriminate]].
  - unfold trim. cbn [trimStart].
    change (is_white "{") with false. cbv iota.
    change (String "{" (a ++ "}")) with (String "{" a ++ "}").
    apply dropEnd_brace.
  - unfold startsWith. cbn [String.prefix].
    destruct (ascii_dec "{" "{"); [|contradiction].
    now destruct (a ++ "}").
Qed.

Section WithConfig.
Variable cfg : config.
Variable translateName : string -> string.

(** X30.  The command that the radio-button branch of [getIsgCommands]
    hands to [createISGCommands], for values and labels without double
    quote, backslash or control character (a code unit below U+0020):
    the states text the loop builds is a flat JSON object, so the
    desired common gets as [states] the mapping from each value to its
    label, a later entry for the same value replacing the earlier one;
    it has no [min] and no [max], the bounds being passed as empty
    strings, and it is writable. *)
Theorem radio_states_reach_common :
  forall (subnav : string) (submenu : option string) (name : string)
         (id : option string) (tag : string) (inputs : list radio)
         (w : world),
    Forall plain_radio inputs ->
    let c := radio_command translateName subnav submenu name id inputs in
    let d := fst (desired parse_flat_object cfg c tag w) in
    parse_flat_object (states_text inputs) = Some (VObj (states_of inputs))
    /\ get d "states" = VObj (states_of inputs)
    /\ hasOwn d "min" = false /\ hasOwn d "max" = false
    /\ get d "write" = VBool true
    /\ valTag c = id.
Proof.
  intros subnav submenu name id tag inputs w Hplain c d.
  pose proof (states_text_parses inputs Hplain) as Hparse.
  destruct (states_text_trim inputs) as (Htrim & Hstart & Hne).
  split; [exact Hparse|].
  assert (Hd : d = set (basic_common c) "states" (VObj (states_of inputs))).
  { subst d.
    destruct (desired_shape parse_flat_object cfg c tag w) as [w' ->].
    unfold add_states. cbn [valStates c radio_command ToBoolean typeof].
    apply String.eqb_neq in Hne. rewrite Hne. cbn [negb].
    change (String.eqb "string" "object") with false. cbv iota.
    rewrite Htrim, Hstart. cbn [orb]. rewrite Hparse. reflexivity. }
  rewrite Hd.
  split; [apply get_set_same|].
  split; [now rewrite hasOwn_set_other by discriminate|].
  split; [now rewrite hasOwn_set_other by discriminate|].
  split; [now rewrite get_set_other by discriminate | reflexivity].
Qed.

End WithConfig.

(** A label with a line feed in it: the states text is not JSON, the
    reader refuses it as [JSON.parse] does, and the desired common gets
    no states. *)
Example control_character_in_label :
  let inputs := [Radio "11" (String (ascii_of_N 10) "AUTOMATIK") true] in
  let c := radio_command Examples.no_translation "HEIZEN" None "Betriebsart"
             (Some "val82") inputs in
  parse_flat_object (states_text inputs) = None
  /\ hasOwn (fst (desired parse_flat_object Examples.cfg c "val82"
                    Examples.empty_world)) "states" = false.
Proof. vm_compute. split; reflexivity. Qed.

Lemma radio_states_reach_common_witness :
  let inputs := Samples.mode_inputs in
  let c := radio_command Examples.no_translation "HEIZEN" None "Betriebsart"
             (Some "val82") inputs in
  let d := fst (desired parse_flat_object Examples.cfg c "val82"
                  Examples.empty_world) in
  (Forall plain_radio inputs
   /\ states_text inputs = Examples.selector_states
   /\ states_of inputs = Examples.selector_mapping
   /\ valValue c = VNum (of_Z 11))
  /\ parse_flat_object (states_text inputs) = Some (VObj (states_of inputs))
  /\ get d "states" = VObj (states_of inputs)
  /\ hasOwn d "min" = false /\ hasOwn d "max" = false
  /\ get d "write" = VBool true
  /\ valTag c = Some "val82".
Proof.
  intros inputs c d.
  assert (H : Forall plain_radio inputs).
  { repeat constructor. }
  assert (E1 : states_text inputs = Examples.selector_states)
    by (vm_compute; reflexivity).
  assert (E2 : states_of inputs = Examples.selector_mapping)
    by (vm_compute; reflexivity).
  assert (E3 : valValue c = VNum (of_Z 11)) by (vm_compute; reflexivity).
  split; [repeat split; assumption|].
  exact (radio_states_reach_common Examples.cfg Examples.no_translation
           "HEIZEN" None "Betriebsart" (Some "val82") "val82" inputs
           Examples.empty_world H).
Defined.

End RadioFacts.
